(** * fitness-tools: the MyWellness JSON to TCX conversion

    A shallow embedding of [src/fitness_tools/mywellness2tcx_pandas.py]
    and the verification of its specification.

    Conventions of the embedding
    - a Python [float] (and a NumPy [float64]) is a binary64 number: Rocq's
      primitive [float], whose operations are the IEEE 754 ones;
    - JSON numbers of the channels are taken as floats (an integer channel
      value is its float; exact below 2^53);
    - elapsed-time offsets ([t]) are integers, in seconds;
    - a [datetime] is an integer number of microseconds since the epoch;
    - a raised Python exception is a value of [exn], carried by [result];
    - a pandas [DataFrame] is its set of column labels and its list of
      rows, the row labels being the positions [0 .. n-1] (the code only
      ever drops rows at the end, which keeps labels and positions equal). *)

From Stdlib Require Import ZArith List Lia Bool Floats Ascii String.
From stdpp Require Import base option list sorting gmap strings pretty.

Set Warnings "-inexact-float,-register-all".
Local Open Scope string_scope.
Local Open Scope list_scope.
Local Open Scope Z_scope.

(** ** Python exceptions and failing computations *)

Inductive exn : Type :=
  | KeyError (key : string)
  | IndexError
  | AssertionError
  | ValueError
  | OverflowError.

Inductive result (A : Type) : Type :=
  | Ok (a : A)
  | Raise (e : exn).
Arguments Ok {A} a.
Arguments Raise {A} e.

Definition bind {A B : Type} (r : result A) (k : A -> result B) : result B :=
  match r with
  | Ok a => k a
  | Raise e => Raise e
  end.

Notation "'do' x <- r ; k" := (bind r (fun x => k))
  (at level 10, x name, r at level 100, k at level 200).

Fixpoint mapM {A B : Type} (f : A -> result B) (l : list A) : result (list B) :=
  match l with
  | [] => Ok []
  | a :: l' => do b <- f a; do bs <- mapM f l'; Ok (b :: bs)
  end.

Definition is_ok {A : Type} (r : result A) : bool :=
  match r with Ok _ => true | Raise _ => false end.

(** ** Python numbers *)

Module Py.

(** [x != y] on floats: true on a NaN operand. *)
Definition ne (x y : float) : bool := negb (x =? y)%float.

(** Conversion of an integer to the nearest float (ties to even). *)
Definition float_of_Z (z : Z) : float :=
  SF2Prim (binary_normalize prec emax z 0 false).

(** [int(x)] on a float: truncation toward zero; [ValueError] on a NaN
    and [OverflowError] on an infinity. *)
Definition int (x : float) : result Z :=
  match Prim2SF x with
  | S754_nan => Raise ValueError
  | S754_infinity _ => Raise OverflowError
  | S754_zero _ => Ok 0
  | S754_finite s m e =>
      Ok (cond_Zopp s (match e with
                       | Zneg p => Z.shiftr (Zpos m) (Zpos p)
                       | _ => Z.shiftl (Zpos m) e
                       end))
  end.

(** [timedelta.seconds]: the seconds field of the normalised
    (days, seconds, microseconds) triple, [0 <= seconds < 86400].  The
    argument is the difference in microseconds. *)
Definition timedelta_seconds (us : Z) : Z := (us / 1000000) mod 86400.

(** The integer nearest to [n / d] for [0 < d], a tie going to the even
    one. *)
Definition div_half_even (n d : Z) : Z :=
  let q := n / d in
  match 2 * (n mod d) ?= d with
  | Lt => q
  | Gt => q + 1
  | Eq => if Z.even q then q else q + 1
  end.

(** The number of tenths nearest to the magnitude [m * 2^e]. *)
Definition tenths (m : positive) (e : Z) : Z :=
  match e with
  | Zneg p => div_half_even (10 * Zpos m) (2 ^ Zpos p)
  | _ => 10 * Zpos m * 2 ^ e
  end.

(** [round(x, 1)] on a float: the exact value of [x] is rounded to the
    nearest tenth (ties to even) and the float nearest to that decimal
    is returned, with the sign of [x].  From 2^49 on the floats are more
    than a tenth apart and [x] is returned; below, the number of tenths
    is under 2^53, so its quotient by ten is the float wanted. *)
Definition round1 (x : float) : float :=
  match Prim2SF x with
  | S754_finite s m e =>
      if 50 <=? Zpos (digits2_pos m) + e then x
      else
        let y := (float_of_Z (tenths m e) / 10)%float in
        if s then (- y)%float else y
  | _ => x
  end.

End Py.

(** ** The input tree (what the JSON loader returns) *)

Record RawSample : Type := { t : Z; vs : list float }.

Record HrPoint : Type := { hr_t : Z; hr_v : float }.

Record Analitics : Type :=
  { descriptor : list string;      (* descriptor[].pr.name *)
    samples : list RawSample;
    hr : list HrPoint }.

(** ** The sample table *)

(** One row.  [values] is the dict built from the descriptor; the other
    fields are the columns the code assigns under fixed labels, which
    shadow a channel of the same name. *)
Record Row : Type :=
  { values : gmap string float;
    datetime : Z;
    interval : Z;
    SmoothDistance : float;
    HeartRate : option Z }.        (* [None] is the missing value NaN *)

Record DataFrame : Type :=
  { columns : gset string;
    rows : list Row }.

(** [df.empty]: one of the axes has length zero. *)
Definition empty (df : DataFrame) : bool :=
  bool_decide (rows df = []) || bool_decide (columns df = ∅).

(** [sample[c]] for a channel [c] of a row of [df]: [KeyError] when the
    frame has no such column, NaN when this row's dict had no such key. *)
Definition getitem (df : DataFrame) (r : Row) (c : string) : result float :=
  if bool_decide (c ∈ columns df) then Ok (default nan (values r !! c))
  else Raise (KeyError c).

(** [df[c]] for a column assigned by the code. *)
Definition column {A : Type} (df : DataFrame) (c : string) (proj : Row -> A)
  : result (list A) :=
  if bool_decide (c ∈ columns df) then Ok (map proj (rows df))
  else Raise (KeyError c).

(** [df[c]] for a channel: the missing cells read as NaN. *)
Definition channel (df : DataFrame) (c : string) : result (list float) :=
  column df c (fun r => default nan (values r !! c)).

(** [s.iloc[i]] for [0 <= i], and [s.iloc[-1]]. *)
Definition iloc {A : Type} (s : list A) (i : nat) : result A :=
  match s !! i with Some a => Ok a | None => Raise IndexError end.

Definition iloc_last {A : Type} (s : list A) : result A :=
  match last s with Some a => Ok a | None => Raise IndexError end.

(** ** Sample Extractor: [process_samples] *)

(** [dict(zip(fields, vs))]: pairs up to the shorter list, a later
    duplicate key overriding an earlier one. *)
Definition dict_zip (fields : list string) (vs : list float) : gmap string float :=
  foldl (fun m kv => <[kv.1 := kv.2]> m) ∅ (zip fields vs).

(** One turn of the loop over the samples.  The datetimes are counted in
    microseconds and are not bounded here: the addition of line 52 raises
    an [OverflowError] past the last datetime of Python, a case that the
    statements below set apart by [samples_in_range]. *)
Definition make_row (fields : list string) (start_dt : Z) (sample : RawSample) : Row :=
  {| values := dict_zip fields (vs sample);
     datetime := start_dt + t sample * 1000000;
     interval := t sample;
     SmoothDistance := nan;
     HeartRate := None |}.

(** [pd.DataFrame(samples)]: the columns are the keys of all the dicts. *)
Definition frame_of (rs : list Row) : DataFrame :=
  {| columns :=
       foldr (fun r acc => dom (values r) ∪ {["datetime"; "interval"]} ∪ acc) ∅ rs;
     rows := rs |}.

(** [df[:-1]] *)
Definition drop_last (df : DataFrame) : DataFrame :=
  {| columns := columns df; rows := removelast (rows df) |}.

(** The trailing-idle loop.  Each turn removes one row, so the number of
    rows bounds the number of turns. *)
Fixpoint trim_loop (fuel : nat) (df : DataFrame) : result DataFrame :=
  match fuel with
  | O => Ok df
  | S fuel' =>
      if empty df then Ok df
      else
        match last (rows df) with
        | None => Ok df
        | Some last_sample =>
            do speed <- getitem df last_sample "Speed";
            if Py.ne speed 0 then Ok df
            else
              do power <- getitem df last_sample "Power";
              if Py.ne power 0 then Ok df
              else trim_loop fuel' (drop_last df)
        end
  end.

Definition trim (df : DataFrame) : result DataFrame :=
  trim_loop (length (rows df)) df.

Definition extract (analitics : Analitics) (start_dt : Z) : DataFrame :=
  frame_of (map (make_row (descriptor analitics) start_dt) (samples analitics)).

Definition process_samples (analitics : Analitics) (start_dt : Z) : result DataFrame :=
  trim (extract analitics start_dt).

(** ** Distance Smoother: [calculate_distances] *)

Definition set_smooth (d : float) (r : Row) : Row :=
  {| values := values r; datetime := datetime r; interval := interval r;
     SmoothDistance := d; HeartRate := HeartRate r |}.

(** [df["SmoothDistance"] = col] *)
Definition assign_smooth (df : DataFrame) (col : list float) : DataFrame :=
  {| columns := {["SmoothDistance"]} ∪ columns df;
     rows := zip_with set_smooth col (rows df) |}.

(** [df.at[i, "SmoothDistance"] = dist], for a label [i] of the frame. *)
Definition at_set (df : DataFrame) (i : nat) (dist : float) : DataFrame :=
  {| columns := columns df; rows := alter (set_smooth dist) i (rows df) |}.

Fixpoint foldM {S I : Type} (f : S -> I -> result S) (s : S) (l : list I) : result S :=
  match l with
  | [] => Ok s
  | i :: l' => do s' <- f s i; foldM f s' l'
  end.

(** The increments of the two passes, for a time delta in whole seconds
    and a speed in km/h, on a float Speed column; [increment1_of] and
    [increment2_of] below give them by the dtype of the column. *)
Definition increment1 (delta_time : Z) (speed : float) : float :=
  (Py.float_of_Z delta_time * speed / 3.6)%float.

Definition increment2 (fact : float) (delta_time : Z) (speed : float) : float :=
  (Py.float_of_Z delta_time * speed / 3.6 * fact)%float.

(** One turn of either [for i in range(1, len(df_samples))] loop. *)
Definition integrate_step (inc : Z -> float -> float)
    (st : float * DataFrame) (i : nat) : result (float * DataFrame) :=
  let dist := st.1 in
  let df := st.2 in
  do dts <- column df "datetime" datetime;
  do dt_i <- iloc dts i;
  do dt_prev <- iloc dts (i - 1);
  let delta_time := Py.timedelta_seconds (dt_i - dt_prev) in
  do speeds <- channel df "Speed";
  do speed <- iloc speeds i;
  let dist := (dist + inc delta_time speed)%float in
  Ok (dist, at_set df i dist).

Definition integrate (inc : Z -> float -> float) (dist : float) (df : DataFrame)
  : result (float * DataFrame) :=
  foldM (integrate_step inc) (dist, df) (seq 1 (length (rows df) - 1)).

(** [assert 0.94 < fact < 1.06] *)
Definition in_band (fact : float) : bool :=
  ((0.94 <? fact) && (fact <? 1.06))%float.

Definition calculate_distances (df : DataFrame) : result DataFrame :=
  do hdistance <- channel df "HDistance";
  let df := assign_smooth df hdistance in
  do dist <- iloc hdistance 0;
  do st <- integrate increment1 dist df;
  do h_last <- iloc_last hdistance;
  let fact := (h_last / st.1)%float in
  if in_band fact then
    do dist <- iloc hdistance 0;
    let df := assign_smooth st.2 (replicate (length (rows st.2)) dist) in
    do st' <- integrate (increment2 fact) dist df;
    Ok st'.2
  else Raise AssertionError.

(** ** The dtype of the Speed column *)

(** pandas infers the dtype of a column from the JSON values: the Speed
    column holds [int64] when every sample gives it an integer of 64
    bits, and [float64] when a value is a float or is missing.  The
    table keeps every cell as its float (an integer below 2^53 is its
    float, exactly); the dtype tells which product the smoother
    computes. *)
Inductive dtype : Type := int64 | float64.

Module I64.

(** The wrap-around of the arithmetic of NumPy on [int64]. *)
Definition wrap (z : Z) : Z := (z + 2 ^ 63) mod 2 ^ 64 - 2 ^ 63.

(** The integer that a cell of an integer column holds. *)
Definition of_cell (x : float) : Z :=
  match Py.int x with Ok z => z | Raise _ => 0 end.

End I64.

(** [delta_time * df_samples["Speed"].iloc[i]]: the product of a Python
    int and a NumPy scalar.  On an integer column it is an [int64], which
    wraps around, and the division that follows takes its float; on a
    float column it is a [float64]. *)
Definition product (d : dtype) (delta_time : Z) (speed : float) : float :=
  match d with
  | int64 => Py.float_of_Z (I64.wrap (delta_time * I64.of_cell speed))
  | float64 => (Py.float_of_Z delta_time * speed)%float
  end.

Definition increment1_of (d : dtype) (delta_time : Z) (speed : float) : float :=
  (product d delta_time speed / 3.6)%float.

Definition increment2_of (d : dtype) (fact : float) (delta_time : Z) (speed : float)
  : float :=
  (product d delta_time speed / 3.6 * fact)%float.

(** [calculate_distances] on a table whose Speed column has the dtype
    [d]; on a float column it is [calculate_distances] above. *)
Definition calculate_distances_of (d : dtype) (df : DataFrame) : result DataFrame :=
  do hdistance <- channel df "HDistance";
  let df := assign_smooth df hdistance in
  do dist <- iloc hdistance 0;
  do st <- integrate (increment1_of d) dist df;
  do h_last <- iloc_last hdistance;
  let fact := (h_last / st.1)%float in
  if in_band fact then
    do dist <- iloc hdistance 0;
    let df := assign_smooth st.2 (replicate (length (rows st.2)) dist) in
    do st' <- integrate (increment2_of d fact) dist df;
    Ok st'.2
  else Raise AssertionError.

(** ** Heart-Rate Resampler: [interpolate_heart_rates] *)

(** What the code uses of NumPy and SciPy, on integer abscissas. *)
Module Np.

(** [np.argsort(x, kind="mergesort")] followed by the reordering of both
    arrays: a stable sort of the points by abscissa. *)
Fixpoint insert_point (p : Z * float) (l : list (Z * float)) : list (Z * float) :=
  match l with
  | [] => [p]
  | q :: l' => if q.1 <? p.1 then q :: insert_point p l' else p :: l
  end.

Definition sort_points (l : list (Z * float)) : list (Z * float) :=
  foldr insert_point [] l.

(** [np.searchsorted(x, v)] (side left) on a sorted array: the number of
    elements below [v]. *)
Fixpoint searchsorted (x : list Z) (v : Z) : nat :=
  match x with
  | [] => O
  | a :: x' => if a <? v then S (searchsorted x' v) else O
  end.

(** [a.clip(lo, hi)], which is [minimum(maximum(a, lo), hi)]. *)
Definition clip (a lo hi : Z) : Z := Z.min (Z.max a lo) hi.

(** [a[i]], a negative index counting from the end. *)
Definition take {A : Type} (d : A) (a : list A) (i : Z) : A :=
  nth (Z.to_nat (if i <? 0 then Z.of_nat (length a) + i else i)) a d.

(** [np.arange(start, stop, step)] on integers, for a positive step. *)
Definition arange (start stop step : Z) : list Z :=
  map (fun k => start + step * Z.of_nat k)
      (seq 0 (Z.to_nat (- ((start - stop) / step)))).

(** [interp1d._call_linear] at one new abscissa. *)
Definition call_linear (x : list Z) (y : list float) (x_new : Z) : float :=
  let x_new_indices :=
    clip (Z.of_nat (searchsorted x x_new)) 1 (Z.of_nat (length x) - 1) in
  let lo := x_new_indices - 1 in
  let hi := x_new_indices in
  let x_lo := take 0 x lo in
  let x_hi := take 0 x hi in
  let y_lo := take nan y lo in
  let y_hi := take nan y hi in
  let slope := ((y_hi - y_lo) / Py.float_of_Z (x_hi - x_lo))%float in
  (slope * Py.float_of_Z (x_new - x_lo) + y_lo)%float.

(** [interp1d(x, y, fill_value="extrapolate")]: the points are sorted
    (assume_sorted is false), an empty array is refused. *)
Definition interp1d (x : list Z) (y : list float) : result (Z -> float) :=
  let pts := sort_points (zip x y) in
  if bool_decide (pts = []) then Raise ValueError
  else Ok (call_linear (map fst pts) (map snd pts)).

End Np.

(** [max(l)] of a list of integers. *)
Definition py_max (l : list Z) : result Z :=
  match l with
  | [] => Raise ValueError
  | a :: l' => Ok (foldl Z.max a l')
  end.

(** [{int(interval): int(hr) for interval, hr in zip(...)}] *)
Definition hr_dict (hr_intervals : list Z) (interpolated : list float)
  : result (gmap Z Z) :=
  do bpm <- mapM Py.int interpolated;
  Ok (foldl (fun m kv => <[kv.1 := kv.2]> m) ∅ (zip hr_intervals bpm)).

Definition set_hr (h : option Z) (r : Row) : Row :=
  {| values := values r; datetime := datetime r; interval := interval r;
     SmoothDistance := SmoothDistance r; HeartRate := h |}.

(** [df["HeartRate"] = col] *)
Definition assign_hr (df : DataFrame) (col : list (option Z)) : DataFrame :=
  {| columns := {["HeartRate"]} ∪ columns df;
     rows := zip_with set_hr col (rows df) |}.

(** [Series.ffill()]: a missing value takes the last value before it. *)
Fixpoint ffill_from (prev : option Z) (s : list (option Z)) : list (option Z) :=
  match s with
  | [] => []
  | v :: s' =>
      let v' := match v with Some _ => v | None => prev end in
      v' :: ffill_from v' s'
  end.

Definition ffill (s : list (option Z)) : list (option Z) := ffill_from None s.

Definition interpolate_heart_rates (analitics : Analitics) (df : DataFrame)
  : result DataFrame :=
  let hr_data := hr analitics in
  let hr_times := map hr_t hr_data in
  let hr_values := map hr_v hr_data in
  do interpolation_function <- Np.interp1d hr_times hr_values;
  do max_t <- py_max hr_times;
  let hr_intervals := Np.arange 5 (max_t + 1) 5 in
  let interpolated_heart_rates := map interpolation_function hr_intervals in
  do interpolated_hr_data <- hr_dict hr_intervals interpolated_heart_rates;
  do intervals <- column df "interval" interval;
  let df := assign_hr df (map (fun i => interpolated_hr_data !! i) intervals) in
  do heart_rate <- column df "HeartRate" HeartRate;
  Ok (assign_hr df (ffill heart_rate)).

(** ** Metrics Aggregator: [calculate_metrics] *)

Record Metrics : Type :=
  { total_time_seconds : Z;
    total_distance_meters : float;
    max_speed : float;
    avg_heart_rate_bpm : float;
    max_heart_rate_bpm : float }.

(** [Series.max()] of a float column: the missing values are skipped,
    the result is NaN when nothing is left. *)
Definition series_max (s : list float) : float :=
  foldl (fun acc x =>
           if is_nan x then acc
           else if is_nan acc then x
           else if (acc <? x)%float then x else acc) nan s.

(** The resolved values of the heart-rate column. *)
Definition resolved (s : list (option Z)) : list Z := omap id s.

(** [Series.mean()]: the mean of the values that are not missing (NaN
    when there is none).  The sum of heart rates is an integer below
    2^53, so it is exact in floats whatever the order of summation. *)
Definition series_mean (s : list (option Z)) : float :=
  let total := foldr Z.add 0 (resolved s) in
  let count := Z.of_nat (length (resolved s)) in
  (Py.float_of_Z total / Py.float_of_Z count)%float.

Definition series_max_hr (s : list (option Z)) : float :=
  series_max (map Py.float_of_Z (resolved s)).

Definition calculate_metrics (df : DataFrame) : result Metrics :=
  do intervals <- column df "interval" interval;
  do t_last <- iloc_last intervals;
  do t_first <- iloc intervals 0;
  do smooth <- column df "SmoothDistance" SmoothDistance;
  do distance <- iloc_last smooth;
  do speeds <- channel df "Speed";
  do heart_rate <- column df "HeartRate" HeartRate;
  Ok {| total_time_seconds := t_last - t_first;
        total_distance_meters := distance;
        max_speed := series_max speeds;
        avg_heart_rate_bpm := series_mean heart_rate;
        max_heart_rate_bpm := series_max_hr heart_rate |}.

(** ** Activity Writer: [create_tcx] *)

(** The text of an element.  Python's formatting of a datetime and of a
    float is not unfolded: such a text is the call that produces it. *)
Inductive Text : Type :=
  | Literal (s : string)
  | Iso (dt : Z)                  (* dt.strftime("%Y-%m-%dT%H:%M:%SZ") *)
  | Str (x : float)               (* str(x), of a number *)
  | Fixed (digits : nat) (x : float).   (* f"{x:.Nf}" *)

(** An lxml element: tag, namespace map, attributes, text, children. *)
Inductive Element : Type :=
  | Elem (tag : string) (nsmap : list (option string * string))
         (attrib : list (string * Text)) (text : option Text)
         (children : list Element).

Definition tag_of (e : Element) : string :=
  match e with Elem tag _ _ _ _ => tag end.
Definition text_of (e : Element) : option Text :=
  match e with Elem _ _ _ text _ => text end.
Definition children_of (e : Element) : list Element :=
  match e with Elem _ _ _ _ children => children end.

(** [e.find(tag)]: the first child with this tag. *)
Definition find (tag : string) (e : Element) : option Element :=
  List.find (fun c => bool_decide (tag_of c = tag)) (children_of e).

(** [e.findall(tag)]: the children with this tag, in document order. *)
Definition findall (tag : string) (e : Element) : list Element :=
  filter (fun c => tag_of c = tag) (children_of e).

Definition TCD_NS_MAP : list (option string * string) :=
  [ (None, "http://www.garmin.com/xmlschemas/TrainingCenterDatabase/v2");
    (Some "xsi", "http://www.w3.org/2001/XMLSchema-instance");
    (Some "ns2", "http://www.garmin.com/xmlschemas/UserProfile/v2");
    (Some "ns3", "http://www.garmin.com/xmlschemas/ActivityExtension/v2");
    (Some "ns5", "http://www.garmin.com/xmlschemas/ActivityGoals/v1") ].

Definition AX_NS : list (option string * string) :=
  [ (None, "http://www.garmin.com/xmlschemas/ActivityExtension/v2") ].

(** [str(n)] of an integer. *)
Definition str_int (n : Z) : string := pretty n.

(** [int(sample["HeartRate"])]: a missing value is a NaN. *)
Definition int_hr (h : option Z) : result Z :=
  match h with Some n => Ok n | None => Raise ValueError end.

(** [sample[c]] for a column assigned by the code. *)
Definition getfield {A : Type} (df : DataFrame) (c : string) (proj : Row -> A)
    (r : Row) : result A :=
  if bool_decide (c ∈ columns df) then Ok (proj r) else Raise (KeyError c).

Definition leaf (tag : string) (text : Text) : Element :=
  Elem tag [] [] (Some text) [].
Definition node (tag : string) (children : list Element) : Element :=
  Elem tag [] [] None children.

(** The body of [for _, sample in df_samples.iterrows()]. *)
Definition trackpoint (df : DataFrame) (sample : Row) : result Element :=
  do dt <- getfield df "datetime" datetime sample;
  do smooth <- getfield df "SmoothDistance" SmoothDistance sample;
  do heart_rate <- getfield df "HeartRate" HeartRate sample;
  do bpm <- int_hr heart_rate;
  do rpm <- getitem df sample "Rpm";
  do speed <- getitem df sample "Speed";
  do power <- getitem df sample "Power";
  Ok (node "Trackpoint"
        [ leaf "Time" (Iso dt);
          leaf "DistanceMeters" (Str (Py.round1 smooth));
          node "HeartRateBpm" [ leaf "Value" (Literal (str_int bpm)) ];
          leaf "Cadence" (Str rpm);
          node "Extensions"
            [ Elem "TPX" AX_NS [] None
                [ leaf "Speed" (Str (Py.round1 (speed / 3.6)%float));
                  leaf "Watts" (Str power) ] ] ]).

(** The lap, around its track. *)
Definition lap_element (metrics : Metrics) (start_dt : Z) (track : Element) : Element :=
  Elem "Lap" [] [("StartTime", Iso start_dt)] None
    [ leaf "TotalTimeSeconds" (Literal (str_int (total_time_seconds metrics)));
      leaf "DistanceMeters" (Fixed 1 (total_distance_meters metrics));
      leaf "MaximumSpeed" (Fixed 1 (max_speed metrics));
      leaf "Calories" (Literal "0");
      node "AverageHeartRateBpm"
        [ leaf "Value" (Fixed 0 (avg_heart_rate_bpm metrics)) ];
      node "MaximumHeartRateBpm"
        [ leaf "Value" (Fixed 0 (max_heart_rate_bpm metrics)) ];
      leaf "Intensity" (Literal "Active");
      leaf "TriggerMethod" (Literal "Manual");
      track ].

(** The document that [create_tcx] writes to the output file. *)
Definition create_tcx (df : DataFrame) (metrics : Metrics) (start_dt : Z)
  : result Element :=
  do trackpoints <- mapM (trackpoint df) (rows df);
  let lap := lap_element metrics start_dt (node "Track" trackpoints) in
  let activity :=
    Elem "Activity" [] [("Sport", Literal "Biking")] None
      [ leaf "Id" (Iso start_dt); lap ] in
  Ok (Elem "TrainingCenterDatabase" TCD_NS_MAP [] None
        [ node "Activities" [ activity ] ]).

(** The conversion of [main], from the loaded tree to the document
    written; a raised exception leaves no output file. *)
Definition main (analitics : Analitics) (start_dt : Z) : result Element :=
  do df_samples <- process_samples analitics start_dt;
  do df_samples <- calculate_distances df_samples;
  do df_samples <- interpolate_heart_rates analitics df_samples;
  do metrics <- calculate_metrics df_samples;
  create_tcx df_samples metrics start_dt.

(** The conversion of [main] on a table whose Speed column has the dtype
    [d]; on a float column it is [main] above. *)
Definition main_of (d : dtype) (analitics : Analitics) (start_dt : Z)
  : result Element :=
  do df_samples <- process_samples analitics start_dt;
  do df_samples <- calculate_distances_of d df_samples;
  do df_samples <- interpolate_heart_rates analitics df_samples;
  do metrics <- calculate_metrics df_samples;
  create_tcx df_samples metrics start_dt.

(** ** The output path of [main] *)

(** What [main] uses of Python's [str], on strings of ASCII characters. *)
Module Str.

(** [c.lower()] *)
Definition lower_char (c : ascii) : ascii :=
  let n := N_of_ascii c in
  if ((65 <=? n) && (n <=? 90))%N then ascii_of_N (n + 32) else c.

(** [s.lower()] *)
Fixpoint lower (s : string) : string :=
  match s with
  | EmptyString => EmptyString
  | String c s' => String (lower_char c) (lower s')
  end.

(** [s.endswith(suffix)] *)
Definition endswith (s suffix : string) : bool :=
  let n := String.length s in
  let k := String.length suffix in
  (k <=? n)%nat && String.eqb (substring (n - k) k s) suffix.

(** [s[:-k]] for a positive [k]: the string without its last [k]
    characters, empty when it has no more than [k]. *)
Definition drop_end (k : nat) (s : string) : string :=
  substring 0 (String.length s - k) s.

End Str.

(** The path of the document, from the path of the input. *)
Definition out_file (in_file : string) : string :=
  let base_name :=
    if Str.endswith (Str.lower in_file) ".json" then Str.drop_end 5 in_file
    else in_file in
  base_name +:+ ".tcx".

(** ** Vocabulary of the specification *)

(** The value the code reads from a row for a channel. *)
Definition cell (r : Row) (c : string) : float := default nan (values r !! c).

(** A trailing-idle row: both comparisons [!= 0] of the loop are false. *)
Definition idle (r : Row) : Prop :=
  Py.ne (cell r "Speed") 0 = false /\ Py.ne (cell r "Power") 0 = false.

(** The round-trip fixture of the specification: three samples at the
    offsets 0, 5 and 10, and two heart-rate points. *)
Definition fixture : Analitics :=
  {| descriptor := ["Speed"; "Power"; "HDistance"; "Rpm"];
     samples := [ {| t := 0; vs := [0; 0; 0; 0]%float |};
                  {| t := 5; vs := [36; 100; 50; 80]%float |};
                  {| t := 10; vs := [0; 0; 100; 0]%float |} ];
     hr := [ {| hr_t := 0; hr_v := 60 |}; {| hr_t := 10; hr_v := 120 |} ] |}.

(** The channels the specification requires of the descriptor. *)
Definition required_channels : list string := ["Speed"; "Power"; "HDistance"; "Rpm"].

(** An input the specification wants the extractor to refuse: a value
    vector whose length is not the descriptor's, or a required channel
    that the descriptor does not name. *)
Definition malformed (analitics : Analitics) : Prop :=
  (exists s, s ∈ samples analitics /\
             length (vs s) <> length (descriptor analitics)) \/
  (exists c, c ∈ required_channels /\ c ∉ descriptor analitics).

Definition extractor_rejects_malformed : Prop :=
  forall analitics start_dt, malformed analitics ->
    exists e, process_samples analitics start_dt = Raise e.

(** A sample whose value vector lacks the last channel. *)
Definition short_vector_input : Analitics :=
  {| descriptor := ["Speed"; "Power"; "HDistance"; "Rpm"];
     samples := [ {| t := 0; vs := [36; 100; 50]%float |} ];
     hr := [] |}.

(** The claim that the aggregator refuses a table with an unresolved
    heart rate. *)
Definition metrics_reject_unresolved : Prop :=
  forall df, (exists r, r ∈ rows df /\ HeartRate r = None) ->
    exists e, calculate_metrics df = Raise e.

(** The table of the fixture when it reaches the aggregator. *)
Definition fixture_table : result DataFrame :=
  do df <- process_samples fixture 0;
  do df <- calculate_distances df;
  interpolate_heart_rates fixture df.

(** The columns that the aggregator reads. *)
Definition has_metrics_columns (df : DataFrame) : Prop :=
  "interval" ∈ columns df /\ "SmoothDistance" ∈ columns df /\
  "Speed" ∈ columns df /\ "HeartRate" ∈ columns df.

(** The frame of a computation that returned (the frame of no sample
    otherwise). *)
Definition returned (r : result DataFrame) : DataFrame :=
  match r with Ok df => df | Raise _ => frame_of [] end.

(** *** Reading the written document *)

(** The track of the single lap. *)
Definition track (doc : Element) : option Element :=
  activities ← find "Activities" doc;
  activity ← find "Activity" activities;
  lap ← find "Lap" activity;
  find "Track" lap.

Definition trackpoints (doc : Element) : option (list Element) :=
  findall "Trackpoint" <$> track doc.

Definition distance_text (tp : Element) : option Text :=
  e ← find "DistanceMeters" tp; text_of e.

Definition heart_rate_text (tp : Element) : option Text :=
  e ← find "HeartRateBpm" tp; v ← find "Value" e; text_of v.

Definition is_digit (c : ascii) : bool :=
  match c with
  | "0" | "1" | "2" | "3" | "4" | "5" | "6" | "7" | "8" | "9" => true
  | _ => false
  end%char.

Fixpoint all_digits (s : string) : bool :=
  match s with
  | EmptyString => true
  | String c s' => is_digit c && all_digits s'
  end.

(** A whole-number string: decimal digits, at least one, after an
    optional minus sign. *)
Definition whole_number (s : string) : bool :=
  match s with
  | EmptyString => false
  | String "-" (String c d) => is_digit c && all_digits d
  | String c d => is_digit c && all_digits d
  end.

(** [n] is a number of tenths nearest to the magnitude [m * 2^e]: the two
    differ by half a tenth at most. *)
Definition nearest_tenths (m : positive) (e n : Z) : Prop :=
  match e with
  | Zneg p => Z.abs (2 * (10 * Zpos m - n * 2 ^ Zpos p)) <= 2 ^ Zpos p
  | _ => n = 10 * Zpos m * 2 ^ e
  end.

(** [y] is [x] rounded to one decimal place: the float nearest to a
    nearest number of tenths, with the sign of [x]; [x] itself when it is
    not finite, or from 2^49 on (where every float is its own rounding). *)
Definition rounded_to_one_decimal (x y : float) : Prop :=
  match Prim2SF x with
  | S754_finite s m e =>
      (50 <= Zpos (digits2_pos m) + e /\ y = x) \/
      (exists n, nearest_tenths m e n /\
         y = let q := (Py.float_of_Z n / 10)%float in if s then (- q)%float else q)
  | _ => y = x
  end.

(** One row written as one trackpoint. *)
Definition written_row (r : Row) (tp : Element) : Prop :=
  tag_of tp = "Trackpoint" /\
  (exists y, distance_text tp = Some (Str y) /\
             rounded_to_one_decimal (SmoothDistance r) y) /\
  (exists bpm, HeartRate r = Some bpm /\
               heart_rate_text tp = Some (Literal (str_int bpm)) /\
               whole_number (str_int bpm) = true).

(** An activity of one sample, at offset 5, between two heart-rate
    points. *)
Definition one_sample_input : Analitics :=
  {| descriptor := ["Speed"; "Power"; "HDistance"; "Rpm"];
     samples := [ {| t := 5; vs := [36; 100; 50; 80]%float |} ];
     hr := [ {| hr_t := 0; hr_v := 60 |}; {| hr_t := 10; hr_v := 120 |} ] |}.

(** Its table when it reaches the writer, and its metrics. *)
Definition one_sample_table : DataFrame :=
  returned (do df <- process_samples one_sample_input 0;
            do df <- calculate_distances df;
            interpolate_heart_rates one_sample_input df).

Definition one_sample_metrics : Metrics :=
  {| total_time_seconds := 0;
     total_distance_meters := 50;
     max_speed := 36;
     avg_heart_rate_bpm := 90;
     max_heart_rate_bpm := 90 |}.

(** *** The smoothed distances, as the specification describes them *)

(** The forward integration from an accumulated distance [dist] reached
    at the time [prev_dt], over the rows that follow: each row advances
    the distance by the increment of the seconds elapsed, as
    [timedelta.seconds] counts them, and of its Speed. *)
Fixpoint smooth_from (inc : Z -> float -> float) (dist : float) (prev_dt : Z)
    (rest : list Row) : list float :=
  match rest with
  | [] => []
  | r :: rest' =>
      let delta_time := Py.timedelta_seconds (datetime r - prev_dt) in
      let dist' := (dist + inc delta_time (cell r "Speed"))%float in
      dist' :: smooth_from inc dist' (datetime r) rest'
  end.

(** The column of one pass: the raw distance of the first row, then the
    integration. *)
Definition pass (inc : Z -> float -> float) (rs : list Row) : list float :=
  match rs with
  | [] => []
  | r0 :: rest =>
      cell r0 "HDistance" :: smooth_from inc (cell r0 "HDistance") (datetime r0) rest
  end.

(** The correction factor: the last raw distance over the last
    provisional distance of the first pass. *)
Definition factor (rs : list Row) : float :=
  (default nan (last (map (fun r => cell r "HDistance") rs))
   / default nan (last (pass increment1 rs)))%float.

(** The columns that the smoother reads on a table of [n] rows. *)
Definition has_distance_columns (df : DataFrame) : Prop :=
  "HDistance" ∈ columns df /\
  ((2 <= length (rows df))%nat -> "datetime" ∈ columns df /\ "Speed" ∈ columns df).

(** Two rows that differ by their smoothed distance at most. *)
Definition same_sample (r r' : Row) : Prop :=
  values r = values r' /\ datetime r = datetime r' /\
  interval r = interval r' /\ HeartRate r = HeartRate r'.

(** The table that the smoother returns when the factor is in the band. *)
Definition smoothed (df : DataFrame) : DataFrame :=
  {| columns := {["SmoothDistance"]} ∪ ({["SmoothDistance"]} ∪ columns df);
     rows := zip_with set_smooth
               (pass (increment2 (factor (rows df))) (rows df)) (rows df) |}.


(** *** The smoothing, in the words of the specification *)

(** The whole seconds elapsed between two datetimes, a remainder under a
    second being truncated. *)
Definition whole_seconds_elapsed (prev_dt dt : Z) : Z :=
  Z.quot (dt - prev_dt) 1000000.

Fixpoint claimed_from (inc : Z -> float -> float) (dist : float) (prev_dt : Z)
    (rest : list Row) : list float :=
  match rest with
  | [] => []
  | r :: rest' =>
      let dist' :=
        (dist + inc (whole_seconds_elapsed prev_dt (datetime r)) (cell r "Speed"))%float in
      dist' :: claimed_from inc dist' (datetime r) rest'
  end.

Definition claimed_pass (inc : Z -> float -> float) (rs : list Row) : list float :=
  match rs with
  | [] => []
  | r0 :: rest =>
      cell r0 "HDistance" :: claimed_from inc (cell r0 "HDistance") (datetime r0) rest
  end.

Definition claimed_factor (rs : list Row) : float :=
  (default nan (last (map (fun r => cell r "HDistance") rs))
   / default nan (last (claimed_pass increment1 rs)))%float.

(** The smoothed-distance column that the specification describes. *)
Definition claimed_column (rs : list Row) : list float :=
  claimed_pass (increment2 (claimed_factor rs)) rs.

(** Two samples a day apart. *)
Definition day_gap_input : Analitics :=
  {| descriptor := ["Speed"; "Power"; "HDistance"; "Rpm"];
     samples := [ {| t := 0; vs := [36; 100; 100; 80]%float |};
                  {| t := 86400; vs := [36; 100; 100; 80]%float |} ];
     hr := [ {| hr_t := 0; hr_v := 60 |}; {| hr_t := 86400; hr_v := 120 |} ] |}.

(** *** The resampling, in the words of the specification *)

(** The line through two points, at [x]. *)
Definition line (p q : Z * float) (x : Z) : float :=
  ((q.2 - p.2) / Py.float_of_Z (q.1 - p.1) * Py.float_of_Z (x - p.1) + p.2)%float.

(** The piecewise-linear function through [p], [q] and the points after
    them: the first segment whose right end is not below [x], the first
    one extended to the left and the last one to the right with their own
    slopes. *)
Fixpoint piecewise (p q : Z * float) (rest : list (Z * float)) (x : Z) : float :=
  match rest with
  | [] => line p q x
  | q' :: rest' => if x <=? q.1 then line p q x else piecewise q q' rest' x
  end.

Definition interpolant (pts : list (Z * float)) (x : Z) : float :=
  match pts with
  | p :: q :: rest => piecewise p q rest x
  | _ => nan
  end.

Definition hr_points (analitics : Analitics) : list (Z * float) :=
  map (fun h => (hr_t h, hr_v h)) (hr analitics).

Definition sorted_by_offset (pts : list (Z * float)) : Prop :=
  Sorted (fun p q => p.1 <= q.1) pts.

(** The maximum offset of a series. *)
Definition max_offset (pts : list (Z * float)) : Z :=
  match pts with
  | [] => 0
  | p :: pts' => foldl Z.max p.1 (map fst pts')
  end.

(** The offsets of the lookup table: the multiples of 5 from 5 up to the
    maximum offset, inclusive. *)
Definition on_grid (max_t k : Z) : Prop := 5 <= k <= max_t /\ k mod 5 = 0.

(** The dense integer table of a function: its integer part at every
    offset of the grid, and nothing elsewhere. *)
Definition lookup_table (f : Z -> float) (max_t : Z) (table : gmap Z Z) : Prop :=
  forall k,
    (on_grid max_t k -> exists v, Py.int (f k) = Ok v /\ table !! k = Some v) /\
    (~ on_grid max_t k -> table !! k = None).

(** Two rows that differ by their heart rate at most. *)
Definition same_but_heart_rate (r r' : Row) : Prop :=
  values r = values r' /\ datetime r = datetime r' /\
  interval r = interval r' /\ SmoothDistance r = SmoothDistance r'.

(** The heart rate of each row is the value of the table at its offset
    when there is one, and the heart rate of the row before it otherwise
    (none for the first row). *)
Definition forward_filled (table : gmap Z Z) (rs rs' : list Row) : Prop :=
  Forall2 same_but_heart_rate rs rs' /\
  forall j r', rs' !! j = Some r' ->
    HeartRate r' =
      match table !! interval r' with
      | Some v => Some v
      | None => match j with
                | O => None
                | S j' => rs' !! j' ≫= HeartRate
                end
      end.

Definition resampled (pts : list (Z * float)) (df df' : DataFrame) : Prop :=
  exists table,
    lookup_table (interpolant pts) (max_offset pts) table /\
    columns df' = {["HeartRate"]} ∪ ({["HeartRate"]} ∪ columns df) /\
    forward_filled table (rows df) (rows df').

(** *** Binary64 arithmetic: vocabulary *)

Definition inexact (r : shr_record) : bool := shr_r r || shr_s r.

(** [b] is [a] shifted right by [k] bits. *)
Definition shifted (k : Z) (a b : shr_record) : Prop :=
  shr_m b = shr_m a / 2 ^ k /\
  (inexact b = true -> inexact a = true \/ shr_m a mod 2 ^ k <> 0).

Definition fin_or_inf (s : bool) (m : positive) (e : Z) : spec_float :=
  if e <=? emax - prec then S754_finite s m e else S754_infinity s.

(** A float of sign [s], not a NaN. *)
Definition signed (s : bool) (x : spec_float) : Prop :=
  match x with
  | S754_zero s' | S754_infinity s' | S754_finite s' _ _ => s' = s
  | S754_nan => False
  end.

(** Zero, or a positive finite or infinite float. *)
Definition SFnonneg (x : spec_float) : bool :=
  match x with
  | S754_zero _ => true
  | S754_finite s _ _ | S754_infinity s => negb s
  | S754_nan => false
  end.

(** A float that is zero or positive: what [0 <= x] holds of. *)
Definition nonneg (x : float) : Prop := SFnonneg (Prim2SF x) = true.

(** A NaN. *)
Definition SFis_nan (x : spec_float) : bool :=
  match x with S754_nan => true | _ => false end.

(** A NaN or the negative infinity: the accumulated distances from which
    no sum can be compared. *)
Definition SFbad (x : spec_float) : bool :=
  match x with S754_nan | S754_infinity true => true | _ => false end.

(** The increments that a pass adds, row after row. *)
Fixpoint increments (inc : Z -> float -> float) (prev_dt : Z) (rest : list Row)
  : list float :=
  match rest with
  | [] => []
  | r :: rest' =>
      inc (Py.timedelta_seconds (datetime r - prev_dt)) (cell r "Speed")
      :: increments inc (datetime r) rest'
  end.

(** The running sums of a list of increments, from [dist]. *)
Fixpoint running (dist : float) (incs : list float) : list float :=
  match incs with
  | [] => []
  | a :: incs' => (dist + a)%float :: running (dist + a)%float incs'
  end.

(** A descriptor without the "Speed" channel. *)
Definition no_speed_input : Analitics :=
  {| descriptor := ["Power"; "HDistance"; "Rpm"];
     samples := [ {| t := 0; vs := [100; 50; 80]%float |} ];
     hr := [] |}.

(** *** The stages and the whole conversion *)

(** The columns that the writer reads of every row, in the order of the
    reads. *)
Definition writer_columns : list string :=
  ["datetime"; "SmoothDistance"; "HeartRate"; "Rpm"; "Speed"; "Power"].

(** A row whose heart rate is resolved. *)
Definition resolved_row (r : Row) : Prop := is_Some (HeartRate r).

(** The rows of the samples kept by the extractor. *)
Definition rows_of (analitics : Analitics) (start_dt : Z) (kept : list RawSample)
  : list Row :=
  map (make_row (descriptor analitics) start_dt) kept.

(** The texts of a trackpoint. *)
Definition time_text (tp : Element) : option Text :=
  e ← find "Time" tp; text_of e.

Definition cadence_text (tp : Element) : option Text :=
  e ← find "Cadence" tp; text_of e.

Definition tpx (tp : Element) : option Element :=
  e ← find "Extensions" tp; find "TPX" e.

Definition speed_text (tp : Element) : option Text :=
  x ← tpx tp; e ← find "Speed" x; text_of e.

Definition watts_text (tp : Element) : option Text :=
  x ← tpx tp; e ← find "Watts" x; text_of e.

(** One sample written as one trackpoint: its time is the start plus
    its offset, its cadence and power are the values of the sample, its
    speed is in metres per second, to one decimal place. *)
Definition written_sample (fields : list string) (start_dt : Z)
    (s : RawSample) (tp : Element) : Prop :=
  let r := make_row fields start_dt s in
  time_text tp = Some (Iso (start_dt + t s * 1000000)) /\
  cadence_text tp = Some (Str (cell r "Rpm")) /\
  speed_text tp = Some (Str (Py.round1 (cell r "Speed" / 3.6)%float)) /\
  watts_text tp = Some (Str (cell r "Power")).

(** A recording of idle samples only. *)
Definition idle_input : Analitics :=
  {| descriptor := ["Speed"; "Power"; "HDistance"; "Rpm"];
     samples := [ {| t := 0; vs := [0; 0; 0; 0]%float |};
                  {| t := 5; vs := [0; 0; 0; 0]%float |} ];
     hr := [ {| hr_t := 0; hr_v := 60 |}; {| hr_t := 10; hr_v := 120 |} ] |}.

(** A recording whose two samples are on the grid of the heart rates. *)
Definition on_grid_input : Analitics :=
  {| descriptor := ["Speed"; "Power"; "HDistance"; "Rpm"];
     samples := [ {| t := 5; vs := [36; 100; 50; 80]%float |};
                  {| t := 10; vs := [36; 110; 100; 85]%float |} ];
     hr := [ {| hr_t := 0; hr_v := 60 |}; {| hr_t := 10; hr_v := 120 |} ] |}.

(** The tables of the three stages before the aggregator. *)
Definition stage1 (analitics : Analitics) (start_dt : Z) : DataFrame :=
  returned (process_samples analitics start_dt).

Definition stage2 (analitics : Analitics) (start_dt : Z) : DataFrame :=
  returned (calculate_distances (stage1 analitics start_dt)).

Definition stage3 (analitics : Analitics) (start_dt : Z) : DataFrame :=
  returned (interpolate_heart_rates analitics (stage2 analitics start_dt)).

(** A float that is finite and not zero. *)
Definition finite_nonzero (x : float) : Prop :=
  match Prim2SF x with S754_finite _ _ _ => True | _ => False end.



(** *** The order of the floats *)

(** The place of a float that is not a NaN in the order of the floats:
    its class (negative infinity, negative, zero, positive, positive
    infinity), then its exponent and its mantissa, taken with its sign. *)
Definition rank (x : spec_float) : Z * Z * Z :=
  match x with
  | S754_nan | S754_zero _ => (0, 0, 0)
  | S754_infinity s => (if s then -2 else 2, 0, 0)
  | S754_finite s m e => if s then (-1, - e, - Zpos m) else (1, e, Zpos m)
  end.

Definition lex_le (a b : Z * Z * Z) : Prop :=
  a.1.1 < b.1.1 \/
  (a.1.1 = b.1.1 /\ (a.1.2 < b.1.2 \/ (a.1.2 = b.1.2 /\ a.2 <= b.2))).

Definition lex_lt (a b : Z * Z * Z) : Prop :=
  a.1.1 < b.1.1 \/
  (a.1.1 = b.1.1 /\ (a.1.2 < b.1.2 \/ (a.1.2 = b.1.2 /\ a.2 < b.2))).

(** One step of the maximum that skips the missing values. *)
Definition max_step (acc x : float) : float :=
  if is_nan x then acc
  else if is_nan acc then x
  else if (acc <? x)%float then x else acc.

(** The activity of the document, its lap, and the texts of the lap. *)
Definition activity (doc : Element) : option Element :=
  activities ← find "Activities" doc; find "Activity" activities.

Definition lap (doc : Element) : option Element :=
  a ← activity doc; find "Lap" a.



(** The input with its heart-rate series sorted by offset, the points
    of equal offset keeping their order. *)
Definition sorted_series (analitics : Analitics) : Analitics :=
  {| descriptor := descriptor analitics;
     samples := samples analitics;
     hr := map (fun p => {| hr_t := p.1; hr_v := p.2 |})
               (Np.sort_points (hr_points analitics)) |}.

(** A table moved in time by [c] microseconds: every timestamp is
    advanced, nothing else changes. *)
Definition shift_row (c : Z) (r : Row) : Row :=
  {| values := values r; datetime := datetime r + c; interval := interval r;
     SmoothDistance := SmoothDistance r; HeartRate := HeartRate r |}.

Definition shift (c : Z) (df : DataFrame) : DataFrame :=
  {| columns := columns df; rows := map (shift_row c) (rows df) |}.

(** *** The smoothed distances, by the dtype of the Speed column *)

(** The correction factor of a table whose Speed column has the dtype
    [d]. *)
Definition factor_of (d : dtype) (rs : list Row) : float :=
  (default nan (last (map (fun r => cell r "HDistance") rs))
   / default nan (last (pass (increment1_of d) rs)))%float.

(** No product of an integer column leaves [int64]: the seconds elapsed
    are 86399 at most. *)
Definition no_overflow (d : dtype) (rs : list Row) : Prop :=
  match d with
  | float64 => True
  | int64 => forall r, r ∈ rs -> 86399 * I64.of_cell (cell r "Speed") < 2 ^ 63
  end.

(** A column that does not decrease from a row to the next. *)
Definition non_decreasing (col : list float) : Prop :=
  forall i x y, col !! i = Some x -> col !! S i = Some y -> (x <=? y)%float = true.

(** The claim that the smoothed distances never decrease on a table whose
    timestamps do not decrease and whose Speeds are not negative. *)
Definition monotone_claim : Prop :=
  forall d df df',
    calculate_distances_of d df = Ok df' ->
    Sorted Z.le (map datetime (rows df)) ->
    (forall r, r ∈ rows df -> (0 <=? cell r "Speed")%float = true) ->
    non_decreasing (map SmoothDistance (rows df')).

(** Three samples, a second less than a day apart, with integer Speeds:
    the product of 86399 and the second Speed passes 2^63. *)
Definition wrap_input : Analitics :=
  {| descriptor := ["Speed"; "Power"; "HDistance"; "Rpm"];
     samples := [ {| t := 0; vs := [36; 100; 0; 80]%float |};
                  {| t := 86399; vs := [200000000000000; 100; 0; 80]%float |};
                  {| t := 172798;
                     vs := [100000000000000; 100; 2075821090636235776; 80]%float |} ];
     hr := [ {| hr_t := 0; hr_v := 60 |}; {| hr_t := 172800; hr_v := 120 |} ] |}.

(** The table that the smoother returns on the dtype [d] when the factor
    is in the band. *)
Definition smoothed_of (d : dtype) (df : DataFrame) : DataFrame :=
  {| columns := {["SmoothDistance"]} ∪ ({["SmoothDistance"]} ∪ columns df);
     rows := zip_with set_smooth
               (pass (increment2_of d (factor_of d (rows df))) (rows df)) (rows df) |}.

(** *** The range of the datetimes *)

(** Python's datetimes run from 0001-01-01T00:00:00, which the embedding
    takes as its epoch, to 9999-12-31T23:59:59.999999; the addition of
    line 52 raises an [OverflowError] when it leaves this range.  The
    datetimes of the embedding are not bounded: a statement about what
    the extractor returns for every input takes the range as a
    hypothesis. *)
Definition datetime_max : Z := 315537897599999999.

Definition in_range (dt : Z) : Prop := 0 <= dt <= datetime_max.

Definition samples_in_range (analitics : Analitics) (start_dt : Z) : Prop :=
  in_range start_dt /\
  Forall (fun s => in_range (start_dt + t s * 1000000)) (samples analitics).

(** pandas counts the time between two of its timestamps in nanoseconds
    on 64 bits: the subtractions of lines 78-80 and 93-95 raise when two
    rows are 2^63 nanoseconds, 292 years, or more apart.  Offsets under
    2^62 nanoseconds on either side keep every difference in this
    range. *)
Definition offsets_in_range (analitics : Analitics) : Prop :=
  Forall (fun s => - 2 ^ 62 < t s * 1000000000 < 2 ^ 62) (samples analitics).

(** The timestamps of a conversion are in range: the datetimes in the
    range of Python's, the offsets in the range of the time deltas. *)
Definition timestamps_in_range (analitics : Analitics) (start_dt : Z) : Prop :=
  samples_in_range analitics start_dt /\ offsets_in_range analitics.

(** *** The values of a sample, the kept samples and their summary *)

(** A sample has a value for the channel [c]: the name is among the
    names of the descriptor that its value vector reaches. *)
Definition has_value (fields : list string) (s : RawSample) (c : string) : Prop :=
  c ∈ take (length (vs s)) fields.



(** The samples that the extractor keeps: the input without its idle
    tail.  The samples dropped are idle and the last one kept is not. *)
Definition kept_samples (analitics : Analitics) (start_dt : Z)
    (kept dropped : list RawSample) : Prop :=
  samples analitics = kept ++ dropped /\
  Forall idle (rows_of analitics start_dt dropped) /\
  exists final, last kept = Some final /\
    ~ idle (make_row (descriptor analitics) start_dt final).

(** * Verification *)

(** ** Basic facts about [result] *)

Lemma bind_Ok {A B : Type} (r : result A) (k : A -> result B) (b : B) :
  bind r k = Ok b -> exists a, r = Ok a /\ k a = Ok b.
Proof. destruct r as [a|e]; simpl; intros Hk; [eauto | discriminate]. Qed.

Lemma is_ok_true {A : Type} (r : result A) :
  is_ok r = true <-> exists a, r = Ok a.
Proof.
  destruct r as [a|e]; simpl; split; eauto; try discriminate.
  intros [a Ha]. discriminate.
Qed.

(** ** Sample Extractor *)

Lemma getitem_Ok (df : DataFrame) (r : Row) (c : string) (x : float) :
  getitem df r c = Ok x -> c ∈ columns df /\ x = cell r c.
Proof.
  unfold getitem, cell. case_bool_decide; intros Hx; [|discriminate].
  injection Hx as <-. auto.
Qed.

Lemma getitem_in (df : DataFrame) (r : Row) (c : string) :
  c ∈ columns df -> getitem df r c = Ok (cell r c).
Proof. intros Hc. unfold getitem, cell. rewrite bool_decide_eq_true_2; auto. Qed.

Lemma getitem_notin (df : DataFrame) (r : Row) (c : string) :
  c ∉ columns df -> getitem df r c = Raise (KeyError c).
Proof. intros Hc. unfold getitem. rewrite bool_decide_eq_false_2; auto. Qed.

(** What the loop returns, whatever the fuel left: the frame is cut at
    the end, the rows cut are idle, and what remains does not end in an
    idle row. *)
Lemma trim_loop_Ok (fuel : nat) : forall (df df' : DataFrame),
  (length (rows df) <= fuel)%nat ->
  (rows df <> [] -> columns df <> ∅) ->
  trim_loop fuel df = Ok df' ->
  columns df' = columns df /\
  exists tail, rows df = rows df' ++ tail /\ Forall idle tail /\
    (rows df' = [] \/ exists init r, rows df' = init ++ [r] /\ ~ idle r).
Proof.
  induction fuel as [|fuel IH]; intros df df' Hlen Hwf Hrun; simpl in Hrun.
  - injection Hrun as <-. split; [reflexivity|].
    exists []. rewrite app_nil_r. repeat split; auto.
    left. destruct (rows df); [reflexivity | simpl in Hlen; lia].
  - destruct (last (rows df)) as [x|] eqn:Hlast.
    + apply last_Some in Hlast as [init Hinit].
      assert (Hne : rows df <> []) by (rewrite Hinit; intros Habs; destruct init; discriminate).
      assert (Hempty : empty df = false).
      { unfold empty. rewrite !bool_decide_eq_false_2; auto. }
      rewrite Hempty in Hrun.
      apply bind_Ok in Hrun as (speed & Hspeed & Hrun).
      apply getitem_Ok in Hspeed as [_ ->].
      destruct (Py.ne (cell x "Speed") 0) eqn:Hs.
      { injection Hrun as <-. split; [reflexivity|].
        exists []. rewrite app_nil_r. repeat split; auto.
        right. exists init, x. split; [assumption|].
        intros [Hidle _]. congruence. }
      apply bind_Ok in Hrun as (power & Hpower & Hrun).
      apply getitem_Ok in Hpower as [_ ->].
      destruct (Py.ne (cell x "Power") 0) eqn:Hp.
      { injection Hrun as <-. split; [reflexivity|].
        exists []. rewrite app_nil_r. repeat split; auto.
        right. exists init, x. split; [assumption|].
        intros [_ Hidle]. congruence. }
      apply IH in Hrun as (Hcols & tail & Hrows & Htail & Hend).
      * split; [exact Hcols|].
        simpl in Hrows. rewrite Hinit, removelast_last in Hrows.
        exists (tail ++ [x]). rewrite Hinit, Hrows, app_assoc.
        repeat split; auto.
        apply Forall_app. split; [assumption|].
        constructor; [split; assumption | constructor].
      * simpl. rewrite Hinit, removelast_last.
        rewrite Hinit, length_app in Hlen. simpl in Hlen. lia.
      * simpl. intros _. apply Hwf, Hne.
    + assert (Hnil : rows df = []) by (destruct (rows df) using rev_ind;
        [reflexivity | rewrite last_snoc in Hlast; discriminate]).
      assert (df' = df) as -> by (destruct (empty df); congruence).
      split; [reflexivity|].
      exists []. rewrite app_nil_r. repeat split; auto.
Qed.

(** The loop raises only on a missing column. *)
Lemma trim_loop_total (fuel : nat) : forall (df : DataFrame),
  "Speed" ∈ columns df -> "Power" ∈ columns df ->
  is_ok (trim_loop fuel df) = true.
Proof.
  induction fuel as [|fuel IH]; intros df Hs Hp; simpl; [reflexivity|].
  destruct (empty df); [reflexivity|].
  destruct (last (rows df)) as [x|]; [|reflexivity].
  rewrite (getitem_in _ _ _ Hs). simpl.
  destruct (Py.ne _ _); [reflexivity|].
  rewrite (getitem_in _ _ _ Hp). simpl.
  destruct (Py.ne _ _); [reflexivity|].
  apply IH; assumption.
Qed.

Lemma frame_of_wf (rs : list Row) :
  rows (frame_of rs) <> [] -> columns (frame_of rs) <> ∅.
Proof.
  destruct rs as [|r rs]; simpl; [congruence|].
  intros _. set_solver.
Qed.



(** C8. On the fixture of three samples at the offsets 0, 5 and 10 with
    Speed 0, 36, 0 and Power 0, 100, 0, the trim removes the row at offset
    10, where both are zero, and only that row: two rows are left, the
    first two of the table, ending at offset 5 with a nonzero Speed. *)
Theorem fixture_trim (start_dt : Z) :
  exists df r0 r5 r10,
    rows (extract fixture start_dt) = [r0; r5; r10] /\
    process_samples fixture start_dt = Ok df /\
    rows df = [r0; r5] /\
    interval r0 = 0 /\ interval r5 = 5 /\ interval r10 = 10 /\
    idle r10 /\
    cell r5 "Speed" = 36%float /\ Py.ne (cell r5 "Speed") 0 = true.
Proof.
  eexists _, _, _, _. split; [reflexivity|].
  split; [vm_compute; reflexivity|].
  split; [reflexivity|].
  repeat split; vm_compute; reflexivity.
Qed.

(** *** What the extractor checks, and what it does not *)

Lemma foldl_insert_lookup_notin `{Countable K} {V : Type} (kvs : list (K * V)) :
  forall (m : gmap K V) (c : K),
    c ∉ kvs.*1 ->
    foldl (fun m kv => <[kv.1 := kv.2]> m) m kvs !! c = m !! c.
Proof.
  induction kvs as [|[k v] kvs IH]; intros m c Hc; simpl; [reflexivity|].
  rewrite IH.
  - apply lookup_insert_ne. intros ->. apply Hc. simpl. left.
  - intros Hin. apply Hc. simpl. right. exact Hin.
Qed.

Lemma foldl_insert_lookup_None (kvs : list (string * float)) :
  forall (m : gmap string float) (c : string),
    m !! c = None -> c ∉ kvs.*1 ->
    foldl (fun m kv => <[kv.1 := kv.2]> m) m kvs !! c = None.
Proof. intros m c Hm Hc. rewrite foldl_insert_lookup_notin; assumption. Qed.

Lemma foldl_insert_lookup_in `{Countable K} {V : Type} (kvs : list (K * V)) :
  forall (m : gmap K V) (c : K) (v : V),
    NoDup kvs.*1 -> (c, v) ∈ kvs ->
    foldl (fun m kv => <[kv.1 := kv.2]> m) m kvs !! c = Some v.
Proof.
  induction kvs as [|[k0 v0] kvs IH]; intros m c v Hnodup Hin; [inversion Hin|].
  simpl in Hnodup. apply NoDup_cons in Hnodup as [Hk0 Hnodup].
  apply elem_of_cons in Hin as [Heq|Hin]; simpl.
  - injection Heq as -> ->. rewrite foldl_insert_lookup_notin by exact Hk0.
    apply lookup_insert_eq.
  - apply IH; assumption.
Qed.

Lemma fst_zip_take (fields : list string) (values : list float) :
  (zip fields values).*1 = take (length values) fields.
Proof.
  revert values. induction fields as [|f fields IH]; intros [|v values]; simpl;
    try reflexivity.
  f_equal. apply IH.
Qed.

(** Padding: a channel past the end of the value vector is absent from
    the dict of the row. *)
Lemma dict_zip_lookup_None (fields : list string) (values : list float) (c : string) :
  c ∉ take (length values) fields -> dict_zip fields values !! c = None.
Proof.
  intros Hc. unfold dict_zip. apply foldl_insert_lookup_None.
  - apply lookup_empty.
  - rewrite fst_zip_take. exact Hc.
Qed.

(** Truncation: the values past the end of the descriptor are dropped. *)
Lemma dict_zip_take (fields : list string) (values : list float) :
  dict_zip fields (take (length fields) values) = dict_zip fields values.
Proof. unfold dict_zip. rewrite (zip_with_take_r pair). reflexivity. Qed.

Lemma columns_frame_of (rs : list Row) (c : string) :
  c ∈ columns (frame_of rs) ->
  (exists r, r ∈ rs /\ is_Some (values r !! c)) \/ c = "datetime" \/ c = "interval".
Proof.
  induction rs as [|r rs IH]; simpl; [set_solver|].
  rewrite !elem_of_union, elem_of_dom. intros [[Hc|Hc]|Hc].
  - left. exists r. split; [left | exact Hc].
  - right. set_solver.
  - destruct (IH Hc) as [(r' & Hr' & Hv)|Hfix]; [|right; exact Hfix].
    left. exists r'. split; [right; exact Hr' | exact Hv].
Qed.

Lemma columns_extract (analitics : Analitics) (start_dt : Z) (c : string) :
  c ∈ columns (extract analitics start_dt) ->
  c ∈ descriptor analitics \/ c = "datetime" \/ c = "interval".
Proof.
  intros Hc. apply columns_frame_of in Hc as [(r & Hr & Hv)|Hfix];
    [left | right; exact Hfix].
  apply list_elem_of_fmap in Hr as (s & -> & _). simpl in Hv.
  destruct (decide (c ∈ descriptor analitics)) as [Hin|Hout]; [exact Hin|].
  rewrite dict_zip_lookup_None in Hv; [destruct Hv; discriminate|].
  intros Hin. apply Hout. eapply subseteq_take, Hin.
Qed.

Lemma trim_loop_unfold (fuel : nat) (df : DataFrame) (init : list Row) (r : Row) :
  rows df = init ++ [r] ->
  columns df <> ∅ ->
  trim_loop (S fuel) df =
    do speed <- getitem df r "Speed";
    if Py.ne speed 0 then Ok df
    else do power <- getitem df r "Power";
         if Py.ne power 0 then Ok df else trim_loop fuel (drop_last df).
Proof.
  intros Hrows Hcols. simpl.
  assert (Hempty : empty df = false).
  { unfold empty. rewrite !bool_decide_eq_false_2; auto.
    rewrite Hrows. destruct init; discriminate. }
  rewrite Hempty, Hrows, last_snoc. reflexivity.
Qed.

(** C5, the counterexample: a value vector shorter than the descriptor is
    not refused. *)
Lemma short_vector_not_rejected : ~ extractor_rejects_malformed.
Proof.
  intros Hclaim.
  destruct (Hclaim short_vector_input 0) as [e He].
  - left. eexists. split; [left|]. simpl. lia.
  - vm_compute in He. discriminate.
Qed.

(** ** Metrics Aggregator *)

Lemma column_in {A : Type} (df : DataFrame) (c : string) (proj : Row -> A) :
  c ∈ columns df -> column df c proj = Ok (map proj (rows df)).
Proof. intros Hc. unfold column. rewrite bool_decide_eq_true_2; auto. Qed.

Lemma column_notin {A : Type} (df : DataFrame) (c : string) (proj : Row -> A) :
  c ∉ columns df -> column df c proj = Raise (KeyError c).
Proof. intros Hc. unfold column. rewrite bool_decide_eq_false_2; auto. Qed.

Lemma column_Ok {A : Type} (df : DataFrame) (c : string) (proj : Row -> A) l :
  column df c proj = Ok l -> c ∈ columns df /\ l = map proj (rows df).
Proof.
  unfold column. case_bool_decide; intros Hl; [|discriminate].
  injection Hl as <-. auto.
Qed.

(** C6. On an empty table the aggregator raises: a [KeyError] when the
    table has no column "interval" (the frame built from no sample has no
    column at all), an [IndexError] when it has the column and no row.  It
    returns no metrics. *)
Theorem calculate_metrics_empty (df : DataFrame) :
  empty df = true ->
  calculate_metrics df = Raise (KeyError "interval") \/
  calculate_metrics df = Raise IndexError.
Proof.
  unfold empty. intros Hempty. unfold calculate_metrics.
  destruct (decide ("interval" ∈ columns df)) as [Hin|Hout].
  - right. rewrite (column_in _ _ _ Hin). simpl.
    apply orb_true_iff in Hempty as [Hnil|Hcols].
    + apply bool_decide_eq_true in Hnil. rewrite Hnil. reflexivity.
    + apply bool_decide_eq_true in Hcols. rewrite Hcols in Hin. set_solver.
  - left. rewrite (column_notin _ _ _ Hout). reflexivity.
Qed.

Lemma calculate_metrics_empty_witness :
  empty (frame_of []) = true /\
  (calculate_metrics (frame_of []) = Raise (KeyError "interval") \/
   calculate_metrics (frame_of []) = Raise IndexError).
Proof.
  split; [reflexivity|].
  apply (calculate_metrics_empty (frame_of [])). reflexivity.
Defined.

(** *** Unresolved heart rates *)

Lemma mapM_Raise {A B : Type} (f : A -> result B) (l : list A) (x : A) (e : exn) :
  x ∈ l -> f x = Raise e ->
  exists y e', y ∈ l /\ f y = Raise e' /\ mapM f l = Raise e'.
Proof.
  induction l as [|a l IH]; intros Hx Hfx; [inversion Hx|].
  simpl. destruct (f a) as [b|e'] eqn:Hfa.
  - assert (Hxl : x ∈ l).
    { apply elem_of_cons in Hx as [->|Hx]; [congruence | exact Hx]. }
    destruct (IH Hxl Hfx) as (y & e' & Hy & Hfy & Hm).
    exists y, e'. split; [right; exact Hy|]. split; [exact Hfy|].
    simpl. rewrite Hm. reflexivity.
  - exists a, e'. split; [left|]. split; [exact Hfa | reflexivity].
Qed.

Lemma mapM_Ok {A B : Type} (f : A -> result B) (l : list A) (l' : list B) :
  mapM f l = Ok l' -> Forall2 (fun a b => f a = Ok b) l l'.
Proof.
  revert l'. induction l as [|a l IH]; intros l' Hm; simpl in Hm.
  - injection Hm as <-. constructor.
  - apply bind_Ok in Hm as (b & Hb & Hm).
    apply bind_Ok in Hm as (bs & Hbs & Hm).
    injection Hm as <-. constructor; [exact Hb | apply IH, Hbs].
Qed.

Lemma calculate_metrics_returns (df : DataFrame) :
  has_metrics_columns df -> rows df <> [] ->
  exists t_last t_first distance,
    calculate_metrics df =
      Ok {| total_time_seconds := t_last - t_first;
            total_distance_meters := distance;
            max_speed := series_max (map (fun r => cell r "Speed") (rows df));
            avg_heart_rate_bpm := series_mean (map HeartRate (rows df));
            max_heart_rate_bpm := series_max_hr (map HeartRate (rows df)) |} /\
    last (map interval (rows df)) = Some t_last /\
    head (map interval (rows df)) = Some t_first /\
    last (map SmoothDistance (rows df)) = Some distance.
Proof.
  intros (Hi & Hd & Hs & Hh) Hne. unfold calculate_metrics, channel.
  rewrite (column_in _ _ _ Hi), (column_in _ _ _ Hd), (column_in _ _ _ Hs),
    (column_in _ _ _ Hh). simpl.
  destruct (rows df) as [|r0 rs] eqn:Hr; [congruence|].
  destruct (exists_last Hne) as (init & r & Hrows).
  assert (Hlast : forall (A : Type) (f : Row -> A), last (map f (r0 :: rs)) = Some (f r)).
  { intros A f. rewrite Hrows, map_app. apply last_snoc. }
  exists (interval r), (interval r0), (SmoothDistance r).
  unfold iloc_last. rewrite !Hlast. simpl. unfold cell. repeat split; reflexivity.
Qed.

(** C4, the counterexample: on the table of the fixture, whose first row
    (offset 0) has no heart rate, the aggregator returns metrics. *)
Lemma fixture_metrics_computed : ~ metrics_reject_unresolved.
Proof.
  intros Hclaim.
  destruct (Hclaim (returned fixture_table)) as [e He].
  - eexists. split.
    + eapply (list_elem_of_lookup_2 _ 0%nat). vm_compute. reflexivity.
    + reflexivity.
  - vm_compute in He. discriminate.
Qed.

(** ** Activity Writer *)

Lemma pretty_N_char_digit (x : N) : is_digit (pretty_N_char x) = true.
Proof. unfold pretty_N_char. repeat case_match; reflexivity. Qed.

Lemma pretty_N_go_digits (x : N) : forall s,
  all_digits s = true ->
  all_digits (pretty_N_go x s) = true /\
  ((0 < x)%N \/ s <> EmptyString -> pretty_N_go x s <> EmptyString).
Proof.
  induction (N.lt_wf_0 x) as [x _ IH]. intros s Hs.
  destruct (decide (0 < x)%N) as [Hpos|Hzero].
  - rewrite pretty_N_go_step by exact Hpos.
    destruct (IH (x `div` 10)%N) with
      (s := String (pretty_N_char (x `mod` 10)) s) as [Hd Hne].
    + apply N.div_lt; [exact Hpos | reflexivity].
    + simpl. rewrite pretty_N_char_digit, Hs. reflexivity.
    + split; [exact Hd|]. intros _. apply Hne. right. discriminate.
  - assert (x = 0%N) as -> by lia. rewrite pretty_N_go_0.
    split; [exact Hs|]. intros [Habs|Hne]; [lia | exact Hne].
Qed.

Lemma whole_number_digits (s : string) :
  all_digits s = true -> s <> EmptyString -> whole_number s = true.
Proof.
  destruct s as [|c d]; [congruence|]. simpl. intros Hd _.
  apply andb_true_iff in Hd as [Hc Hd].
  destruct c as [[] [] [] [] [] [] [] []]; try discriminate Hc; simpl;
    destruct d; simpl in *; try rewrite Hd; auto.
Qed.

Lemma pretty_positive_digits (p : positive) :
  all_digits (pretty p) = true /\ pretty p <> EmptyString.
Proof.
  unfold pretty, pretty_positive, pretty, pretty_N.
  rewrite decide_False by discriminate.
  destruct (pretty_N_go_digits (Npos p) EmptyString eq_refl) as [Hd Hne].
  split; [exact Hd | apply Hne; left; reflexivity].
Qed.

(** [str] of an integer is a whole-number string. *)
Lemma str_int_whole_number (n : Z) : whole_number (str_int n) = true.
Proof.
  unfold str_int, pretty, pretty_Z. destruct n as [|p|p].
  - reflexivity.
  - destruct (pretty_positive_digits p) as [Hd Hne].
    apply whole_number_digits; assumption.
  - destruct (pretty_positive_digits p) as [Hd Hne].
    destruct (pretty p) as [|c d] eqn:Hp; [congruence|].
    simpl. exact Hd.
Qed.

Lemma div_half_even_nearest (n d : Z) :
  0 < d -> Z.abs (2 * (n - Py.div_half_even n d * d)) <= d.
Proof.
  intros Hd. unfold Py.div_half_even.
  pose proof (Z.div_mod n d ltac:(lia)) as Hdm.
  pose proof (Z.mod_pos_bound n d Hd) as Hr.
  destruct (2 * (n mod d) ?= d) eqn:Hcmp;
    [apply Z.compare_eq in Hcmp | rewrite Z.compare_lt_iff in Hcmp
     | rewrite Z.compare_gt_iff in Hcmp];
    try destruct (Z.even (n / d)); nia.
Qed.

Lemma tenths_nearest (m : positive) (e : Z) : nearest_tenths m e (Py.tenths m e).
Proof.
  unfold nearest_tenths, Py.tenths. destruct e as [|p|p]; try reflexivity.
  apply div_half_even_nearest. apply Z.pow_pos_nonneg; lia.
Qed.

(** [round(x, 1)] rounds to one decimal place. *)
Lemma round1_rounds (x : float) : rounded_to_one_decimal x (Py.round1 x).
Proof.
  unfold rounded_to_one_decimal, Py.round1.
  destruct (Prim2SF x) as [s|s| |s m e]; try reflexivity.
  destruct (50 <=? Zpos (digits2_pos m) + e) eqn:Hbig.
  - left. split; [apply Z.leb_le, Hbig | reflexivity].
  - right. exists (Py.tenths m e). split; [apply tenths_nearest | reflexivity].
Qed.

Lemma getfield_Ok {A : Type} (df : DataFrame) (c : string) (proj : Row -> A)
    (r : Row) (x : A) :
  getfield df c proj r = Ok x -> c ∈ columns df /\ x = proj r.
Proof.
  unfold getfield. case_bool_decide; intros Hx; [|discriminate].
  injection Hx as <-. auto.
Qed.

Lemma trackpoint_written (df : DataFrame) (r : Row) (tp : Element) :
  trackpoint df r = Ok tp -> written_row r tp.
Proof.
  unfold trackpoint. intros Htp.
  apply bind_Ok in Htp as (dt & _ & Htp).
  apply bind_Ok in Htp as (smooth & Hsmooth & Htp).
  apply bind_Ok in Htp as (heart_rate & Hhr & Htp).
  apply bind_Ok in Htp as (bpm & Hbpm & Htp).
  apply bind_Ok in Htp as (rpm & _ & Htp).
  apply bind_Ok in Htp as (speed & _ & Htp).
  apply bind_Ok in Htp as (power & _ & Htp).
  injection Htp as <-.
  apply getfield_Ok in Hsmooth as [_ ->].
  apply getfield_Ok in Hhr as [_ ->].
  destruct (HeartRate r) as [n|] eqn:Hn; [|discriminate].
  injection Hbpm as <-.
  split; [reflexivity|]. split.
  - eexists. split; [reflexivity | apply round1_rounds].
  - exists n. split; [exact Hn|]. split; [reflexivity|].
    apply str_int_whole_number.
Qed.

Lemma filter_all {A : Type} (P : A -> Prop) `{forall x, Decision (P x)} (l : list A) :
  Forall P l -> filter P l = l.
Proof.
  induction 1 as [|x l Hx _ IH]; [reflexivity|].
  rewrite filter_cons_True by exact Hx. f_equal. exact IH.
Qed.

(** C9. The writer emits one trackpoint per row of the table, in the order
    of the table: the trackpoints of the track of the document pair with
    the rows, each carrying the smoothed distance of its row rounded to
    one decimal place as the text of DistanceMeters and the heart rate of
    its row as a whole-number string.  For a table of one row the track
    holds exactly one trackpoint. *)
Theorem create_tcx_one_trackpoint_per_row
    (df : DataFrame) (metrics : Metrics) (start_dt : Z) (doc : Element) :
  create_tcx df metrics start_dt = Ok doc ->
  exists tps,
    trackpoints doc = Some tps /\
    length tps = length (rows df) /\
    Forall2 written_row (rows df) tps /\
    (forall r, rows df = [r] -> exists tp, tps = [tp] /\ written_row r tp).
Proof.
  unfold create_tcx. intros Hdoc.
  apply bind_Ok in Hdoc as (tps & Htps & Hdoc). injection Hdoc as <-.
  apply mapM_Ok in Htps.
  assert (Hrows : Forall2 written_row (rows df) tps).
  { eapply Forall2_impl; [exact Htps|]. intros r tp. apply trackpoint_written. }
  exists tps. split; [|split; [|split]].
  - unfold trackpoints, track, find, findall. simpl. f_equal.
    apply filter_all. apply Forall2_Forall_r with (P := written_row) (l := rows df).
    + exact Hrows.
    + apply Forall_forall. intros tp _ r [Htag _]. exact Htag.
  - symmetry. eapply Forall2_length, Hrows.
  - exact Hrows.
  - intros r Hr. rewrite Hr in Hrows.
    inversion Hrows as [|? tp ? tps' Hw Hnil]; subst.
    inversion Hnil; subst. exists tp. split; [reflexivity | exact Hw].
Qed.

Lemma one_sample_metrics_computed :
  calculate_metrics one_sample_table = Ok one_sample_metrics.
Proof. vm_compute. reflexivity. Qed.

Lemma create_tcx_one_trackpoint_witness :
  exists doc,
    create_tcx one_sample_table one_sample_metrics 0 = Ok doc /\
    exists tps,
      trackpoints doc = Some tps /\
      length tps = length (rows one_sample_table) /\
      Forall2 written_row (rows one_sample_table) tps /\
      (forall r, rows one_sample_table = [r] ->
         exists tp, tps = [tp] /\ written_row r tp).
Proof.
  eexists. split; [vm_compute; reflexivity|].
  apply (create_tcx_one_trackpoint_per_row one_sample_table one_sample_metrics 0).
  vm_compute. reflexivity.
Defined.

(** ** Distance Smoother *)

Lemma ltb_leb (x y : float) : (x <? y)%float = true -> (x <=? y)%float = true.
Proof.
  rewrite ltb_spec, leb_spec. unfold SFltb, SFleb.
  destruct (SFcompare _ _) as [[]|]; auto.
Qed.

Lemma iloc_lookup {A : Type} (s : list A) (i : nat) (a : A) :
  s !! i = Some a -> iloc s i = Ok a.
Proof. intros Hs. unfold iloc. rewrite Hs. reflexivity. Qed.

Lemma default_last_cons {A : Type} (a b : A) (l : list A) :
  default a (last (b :: l)) = default b (last l).
Proof. rewrite last_cons. destruct (last l); reflexivity. Qed.

(** The loop of a pass, started on the row after [prev]: it leaves the
    rows before it alone and writes the integration into the others. *)
Lemma foldM_integrate (inc : Z -> float -> float) (cols : gset string) :
  "datetime" ∈ cols -> "Speed" ∈ cols ->
  forall (todo done : list Row) (prev : Row) (dist : float),
    foldM (integrate_step inc)
      (dist, {| columns := cols; rows := done ++ prev :: todo |})
      (seq (S (length done)) (length todo))
    = Ok (default dist (last (smooth_from inc dist (datetime prev) todo)),
          {| columns := cols;
             rows := done ++ prev ::
                       zip_with set_smooth
                         (smooth_from inc dist (datetime prev) todo) todo |}).
Proof.
  intros Hdt Hspeed. induction todo as [|r todo IH]; intros done prev dist.
  - reflexivity.
  - cbn [length seq foldM]. unfold integrate_step at 1. cbn [fst snd].
    unfold channel. rewrite !column_in by exact Hdt || exact Hspeed.
    cbn [bind rows].
    assert (Hi : forall (A : Type) (f : Row -> A),
              map f (done ++ prev :: r :: todo) !! S (length done) = Some (f r)).
    { intros A f. rewrite list_lookup_fmap.
      rewrite lookup_app_r by lia.
      replace (S (length done) - length done)%nat with 1%nat by lia. reflexivity. }
    assert (Hp : map datetime (done ++ prev :: r :: todo) !! (S (length done) - 1)%nat
                 = Some (datetime prev)).
    { rewrite list_lookup_fmap. rewrite lookup_app_r by lia.
      replace (S (length done) - 1 - length done)%nat with 0%nat by lia. reflexivity. }
    rewrite (iloc_lookup _ _ _ (Hi _ datetime)), (iloc_lookup _ _ _ Hp).
    cbn [bind].
    rewrite (iloc_lookup _ _ _ (Hi _ (fun r => default nan (values r !! "Speed")))).
    cbn [bind].
    set (d := (dist + inc (Py.timedelta_seconds (datetime r - datetime prev))
                          (default nan (values r !! "Speed")))%float).
    assert (Hat : at_set {| columns := cols; rows := done ++ prev :: r :: todo |}
                    (S (length done)) d
                  = {| columns := cols;
                       rows := (done ++ [prev]) ++ set_smooth d r :: todo |}).
    { unfold at_set. cbn [columns rows]. f_equal.
      rewrite <- app_assoc. cbn [app].
      rewrite alter_app_r_alt by lia.
      replace (S (length done) - length done)%nat with 1%nat by lia. reflexivity. }
    rewrite Hat.
    replace (S (S (length done))) with (S (length (done ++ [prev])))
      by (rewrite length_app; simpl; lia).
    rewrite IH. cbn [smooth_from zip_with]. fold d. unfold cell. fold d.
    cbn [datetime set_smooth].
    rewrite <- app_assoc. cbn [app]. f_equal. f_equal.
    symmetry. apply default_last_cons.
Qed.

Lemma same_sample_set_smooth (d : float) (r : Row) : same_sample (set_smooth d r) r.
Proof. repeat split. Qed.

Lemma set_smooth_same (d : float) (r r' : Row) :
  same_sample r r' -> set_smooth d r = set_smooth d r'.
Proof. intros (Hv & Hd & Hi & Hh). unfold set_smooth. congruence. Qed.

Lemma Forall2_same_trans (l1 l2 l3 : list Row) :
  Forall2 same_sample l1 l2 -> Forall2 same_sample l2 l3 ->
  Forall2 same_sample l1 l3.
Proof.
  intros H12. revert l3.
  induction H12 as [|x y l1 l2 Hxy _ IH]; intros l3 H23;
    inversion H23 as [|? z ? l3' Hyz H23']; subst; constructor.
  - unfold same_sample in *. intuition congruence.
  - apply IH, H23'.
Qed.

Lemma zip_with_set_smooth_same (l : list float) (rs : list Row) :
  length l = length rs -> Forall2 same_sample (zip_with set_smooth l rs) rs.
Proof.
  revert l. induction rs as [|r rs IH]; intros [|d l] Hlen; simpl in *;
    try discriminate; constructor.
  - apply same_sample_set_smooth.
  - apply IH. lia.
Qed.

Lemma smooth_from_same (inc : Z -> float -> float) (rs rs' : list Row) :
  Forall2 same_sample rs rs' ->
  forall dist prev_dt, smooth_from inc dist prev_dt rs = smooth_from inc dist prev_dt rs'.
Proof.
  induction 1 as [|r r' rs rs' (Hv & Hd & _) _ IH]; intros dist prev_dt;
    [reflexivity|].
  simpl. unfold cell. rewrite Hv, Hd, IH. reflexivity.
Qed.

Lemma zip_with_same (l : list float) (rs rs' : list Row) :
  Forall2 same_sample rs rs' ->
  zip_with set_smooth l rs = zip_with set_smooth l rs'.
Proof.
  intros Hsame. revert l.
  induction Hsame as [|r r' rs rs' Hr _ IH]; intros [|d l]; simpl;
    try reflexivity.
  rewrite (set_smooth_same d r r' Hr), IH. reflexivity.
Qed.

Lemma length_smooth_from (inc : Z -> float -> float) (rs : list Row) :
  forall dist prev_dt, length (smooth_from inc dist prev_dt rs) = length rs.
Proof.
  induction rs as [|r rs IH]; intros dist prev_dt; simpl; [reflexivity|].
  rewrite IH. reflexivity.
Qed.

Lemma length_pass (inc : Z -> float -> float) (rs : list Row) :
  length (pass inc rs) = length rs.
Proof.
  destruct rs as [|r0 rest]; simpl; [reflexivity|].
  rewrite length_smooth_from. reflexivity.
Qed.

Lemma foldM_integrate' (inc : Z -> float -> float) (cols : gset string)
    (todo done : list Row) (prev : Row) (dist : float) :
  (todo <> [] -> "datetime" ∈ cols /\ "Speed" ∈ cols) ->
  foldM (integrate_step inc)
    (dist, {| columns := cols; rows := done ++ prev :: todo |})
    (seq (S (length done)) (length todo))
  = Ok (default dist (last (smooth_from inc dist (datetime prev) todo)),
        {| columns := cols;
           rows := done ++ prev ::
                     zip_with set_smooth
                       (smooth_from inc dist (datetime prev) todo) todo |}).
Proof.
  intros Hcols. destruct todo as [|r todo]; [reflexivity|].
  destruct Hcols as [Hdt Hspeed]; [discriminate|].
  apply foldM_integrate; assumption.
Qed.

(** The loop raises a [KeyError] at its first turn when one of its two
    columns is missing. *)
Lemma integrate_missing (inc : Z -> float -> float) (dist : float) (df : DataFrame) :
  (2 <= length (rows df))%nat ->
  ~ ("datetime" ∈ columns df /\ "Speed" ∈ columns df) ->
  exists c, integrate inc dist df = Raise (KeyError c).
Proof.
  intros Hlen Hmissing. unfold integrate.
  destruct (length (rows df)) as [|[|n]] eqn:Hn; [lia|lia|].
  replace (S (S n) - 1)%nat with (S n) by lia.
  cbn [seq foldM]. unfold integrate_step at 1. cbn [fst snd].
  destruct (decide ("datetime" ∈ columns df)) as [Hdt|Hdt].
  - assert (Hspeed : "Speed" ∉ columns df) by tauto.
    rewrite (column_in _ _ _ Hdt). cbn [bind].
    assert (Hlen' : (length (map datetime (rows df)) = S (S n))%nat)
      by (rewrite length_map; exact Hn).
    destruct (map datetime (rows df)) as [|d0 [|d1 ds]]; try discriminate.
    unfold iloc. cbn. unfold channel.
    rewrite (column_notin _ _ _ Hspeed). eauto.
  - rewrite (column_notin _ _ _ Hdt). eauto.
Qed.

Lemma length_assign_smooth (df : DataFrame) (col : list float) :
  length col = length (rows df) ->
  length (rows (assign_smooth df col)) = length (rows df).
Proof.
  intros Hlen. unfold assign_smooth. cbn [rows].
  rewrite length_zip_with. lia.
Qed.

(** The smoother returns only on a table with a row and with the columns
    it reads. *)
Lemma calculate_distances_Ok (df df' : DataFrame) :
  calculate_distances df = Ok df' ->
  rows df <> [] /\ has_distance_columns df.
Proof.
  unfold calculate_distances, channel. intros Hrun.
  apply bind_Ok in Hrun as (hdistance & Hh & Hrun).
  apply column_Ok in Hh as [Hcol ->].
  apply bind_Ok in Hrun as (dist & Hdist & Hrun).
  apply bind_Ok in Hrun as (st & Hst & _).
  split.
  - intros Hnil. rewrite Hnil in Hdist. discriminate.
  - split; [exact Hcol|]. intros Hlen.
    destruct (decide ("datetime" ∈ columns df /\ "Speed" ∈ columns df))
      as [Hcols|Hmissing]; [exact Hcols|].
    destruct (integrate_missing increment1 dist
                (assign_smooth df (map (fun r => default nan (values r !! "HDistance"))
                                       (rows df)))) as [c Hc].
    + rewrite length_assign_smooth; [exact Hlen | apply length_map].
    + cbn [assign_smooth columns]. intros [Hdt Hspeed]. apply Hmissing.
      apply elem_of_union in Hdt as [Hdt|Hdt];
        [apply elem_of_singleton in Hdt; discriminate|].
      apply elem_of_union in Hspeed as [Hspeed|Hspeed];
        [apply elem_of_singleton in Hspeed; discriminate|].
      split; assumption.
    + rewrite Hc in Hst. discriminate.
Qed.

(** The smoother on a table with a row and its columns: the assertion on
    the factor, then the second pass. *)
Lemma calculate_distances_eq (df : DataFrame) :
  rows df <> [] -> has_distance_columns df ->
  calculate_distances df =
    if in_band (factor (rows df)) then Ok (smoothed df) else Raise AssertionError.
Proof.
  intros Hne [Hh Hcols]. unfold calculate_distances, channel.
  rewrite (column_in _ _ _ Hh). cbn [bind].
  destruct df as [cols rs]. cbn [rows columns] in *.
  destruct rs as [|r0 rest]; [congruence|]. clear Hne.
  set (cellH := fun r : Row => default nan (values r !! "HDistance")).
  assert (Hcols' : forall (todo : list Row), length todo = length rest ->
            todo <> [] ->
            "datetime" ∈ {["SmoothDistance"]} ∪ cols /\
            "Speed" ∈ {["SmoothDistance"]} ∪ cols).
  { intros todo Hlen Hne. destruct Hcols as [Hdt Hspeed].
    - simpl. destruct todo; [congruence|]. simpl in Hlen. lia.
    - split; apply elem_of_union; right; assumption. }
  cbn [map iloc lookup list_lookup bind].
  unfold integrate at 1. unfold assign_smooth at 1 2.
  cbn [rows columns zip_with length].
  rewrite Nat.sub_succ, Nat.sub_0_r.
  set (rest1 := zip_with set_smooth (map cellH rest) rest).
  assert (Hrest1 : Forall2 same_sample rest1 rest)
    by (apply zip_with_set_smooth_same, length_map).
  assert (Hlen1 : length rest1 = length rest) by (eapply Forall2_length, Hrest1).
  rewrite (foldM_integrate' increment1 _ rest1 [] (set_smooth (cellH r0) r0) (cellH r0))
    by (apply Hcols'; exact Hlen1).
  cbn [bind fst snd app datetime set_smooth].
  rewrite (smooth_from_same _ _ _ Hrest1).
  assert (Hlast : iloc_last (cellH r0 :: map cellH rest)
                  = Ok (default nan (last (cellH r0 :: map cellH rest)))).
  { unfold iloc_last.
    destruct (last (cellH r0 :: map cellH rest)) eqn:Hl; [reflexivity|].
    apply last_None in Hl. discriminate. }
  rewrite Hlast. cbn [bind].
  assert (Hfact : (default nan (last (cellH r0 :: map cellH rest))
                   / default (cellH r0)
                       (last (smooth_from increment1 (cellH r0) (datetime r0) rest)))%float
                  = factor (r0 :: rest)).
  { unfold factor, pass. cbn [map]. rewrite !default_last_cons. reflexivity. }
  rewrite Hfact.
  destruct (in_band (factor (r0 :: rest))); [|reflexivity].
  cbn [bind]. unfold integrate, assign_smooth.
  cbn [rows columns length replicate zip_with].
  rewrite length_zip_with, Nat.sub_succ, Nat.sub_0_r.
  set (fact := factor (r0 :: rest)).
  set (rest2 := zip_with set_smooth _ (zip_with set_smooth _ rest1)).
  assert (Hrest2 : Forall2 same_sample rest2 rest).
  { unfold rest2.
    eapply Forall2_same_trans; [apply zip_with_set_smooth_same|].
    - rewrite length_replicate, length_zip_with. reflexivity.
    - eapply Forall2_same_trans; [apply zip_with_set_smooth_same | exact Hrest1].
      rewrite length_smooth_from, Hlen1. reflexivity. }
  assert (Hlen2 : length rest2 = length rest) by (eapply Forall2_length, Hrest2).
  replace (length (smooth_from increment1 (cellH r0) (datetime r0) rest)
             `min` length rest1)%nat with (length rest2)
    by (rewrite length_smooth_from, Hlen1, Hlen2; lia).
  rewrite (foldM_integrate' (increment2 fact) _ rest2 []
             (set_smooth (cellH r0) (set_smooth (cellH r0) r0)) (cellH r0))
    by (intros Hne; destruct (Hcols' rest2 Hlen2 Hne);
        split; apply elem_of_union; right; assumption).
  cbn [bind fst snd app datetime set_smooth].
  rewrite (smooth_from_same _ _ _ Hrest2), (zip_with_same _ _ _ Hrest2).
  reflexivity.
Qed.



(** *** The smoothed column, and a gap of a day *)

Lemma smooth_column_zip (l : list float) (rs : list Row) :
  length l = length rs ->
  map SmoothDistance (zip_with set_smooth l rs) = l.
Proof.
  revert rs. induction l as [|d l IH]; intros [|r rs] Hlen; simpl in *;
    try discriminate; [reflexivity|].
  f_equal. apply IH. lia.
Qed.

(** The column returned is the second pass. *)
Lemma calculate_distances_column (df df' : DataFrame) :
  calculate_distances df = Ok df' ->
  map SmoothDistance (rows df') = pass (increment2 (factor (rows df))) (rows df).
Proof.
  intros Hrun. destruct (calculate_distances_Ok _ _ Hrun) as [Hne Hcols].
  rewrite (calculate_distances_eq _ Hne Hcols) in Hrun.
  destruct (in_band (factor (rows df))); [|discriminate].
  injection Hrun as <-. unfold smoothed. cbn [rows].
  apply smooth_column_zip, length_pass.
Qed.

(** C2. [timedelta.seconds] drops the days.  For two samples a day
    apart, with the Speed 36 and the raw distance 100, the code counts 0
    seconds between the rows and returns the column 100, 100, on a float
    and on an integer Speed column alike; the specification has 86400
    whole seconds elapsed, and the column 100, 199.99 with its factor. *)
Theorem day_gap_column :
  exists df df',
    process_samples day_gap_input 0 = Ok df /\
    calculate_distances df = Ok df' /\
    map datetime (rows df) = [0; 86400 * 1000000] /\
    map (fun r => cell r "Speed") (rows df) = [36; 36]%float /\
    map (fun r => cell r "HDistance") (rows df) = [100; 100]%float /\
    calculate_distances_of int64 df = Ok df' /\
    map SmoothDistance (rows df') = [100; 100]%float /\
    claimed_column (rows df) = [100; 199.98842726536282]%float.
Proof.
  eexists _, _. split; [vm_compute; reflexivity|].
  split; [vm_compute; reflexivity|].
  repeat split; vm_compute; reflexivity.
Qed.

(** ** Heart-Rate Resampler *)

(** *** The interpolation *)

Lemma insert_point_sorted (p : Z * float) (l : list (Z * float)) :
  (forall q, head l = Some q -> p.1 <= q.1) -> Np.insert_point p l = p :: l.
Proof.
  destruct l as [|q l]; [reflexivity|]. intros Hhead. simpl.
  pose proof (Hhead q eq_refl) as Hle.
  destruct (q.1 <? p.1) eqn:Hlt; [|reflexivity].
  apply Z.ltb_lt in Hlt. lia.
Qed.

(** Sorting leaves a sorted series as it is. *)
Lemma sort_points_sorted (pts : list (Z * float)) :
  sorted_by_offset pts -> Np.sort_points pts = pts.
Proof.
  unfold sorted_by_offset, Np.sort_points.
  induction 1 as [|p l Hsorted IH Hhd]; [reflexivity|].
  cbn [foldr]. rewrite IH. apply insert_point_sorted.
  intros q Hq. destruct Hhd as [|q' l' Hle]; [discriminate|].
  injection Hq as <-. exact Hle.
Qed.

Lemma zip_fst_snd {A B : Type} (l : list (A * B)) : zip (map fst l) (map snd l) = l.
Proof.
  induction l as [|[a b] l IH]; [reflexivity|]. simpl. rewrite IH. reflexivity.
Qed.

Lemma take_cons {A : Type} (d a : A) (l : list A) (i : Z) :
  1 <= i -> Np.take d (a :: l) i = Np.take d l (i - 1).
Proof.
  intros Hi. unfold Np.take.
  rewrite !(proj2 (Z.ltb_ge _ _)) by lia.
  replace (Z.to_nat i) with (S (Z.to_nat (i - 1))) by lia. reflexivity.
Qed.

Lemma searchsorted_bound (x : list Z) (v : Z) :
  (Np.searchsorted x v <= length x)%nat.
Proof.
  induction x as [|a x IH]; simpl; [lia|].
  destruct (a <? v); simpl; lia.
Qed.

Lemma searchsorted_above (a : Z) (x : list Z) (v : Z) :
  a < v -> Np.searchsorted (a :: x) v = S (Np.searchsorted x v).
Proof. intros Hlt. simpl. rewrite (proj2 (Z.ltb_lt _ _)) by exact Hlt. reflexivity. Qed.

(** SciPy's choice of the segment by [searchsorted] and [clip] is the
    choice of the piecewise-linear function of the specification. *)
Lemma call_linear_piecewise (x_new : Z) (rest : list (Z * float)) :
  forall p q, sorted_by_offset (p :: q :: rest) ->
    Np.call_linear (map fst (p :: q :: rest)) (map snd (p :: q :: rest)) x_new
    = piecewise p q rest x_new.
Proof.
  induction rest as [|q' rest IH]; intros p q Hsorted.
  - unfold Np.call_linear. cbn [map length piecewise].
    assert (Hclip : Np.clip (Z.of_nat (Np.searchsorted [p.1; q.1] x_new)) 1
                      (Z.of_nat 2 - 1) = 1).
    { unfold Np.clip. lia. }
    rewrite Hclip. reflexivity.
  - cbn [piecewise]. destruct (x_new <=? q.1) eqn:Hx.
    + apply Z.leb_le in Hx. unfold Np.call_linear. cbn [map length].
      assert (Hclip : Np.clip (Z.of_nat (Np.searchsorted (p.1 :: q.1 :: q'.1 :: map fst rest) x_new))
                        1 (Z.of_nat (S (S (S (length (map fst rest))))) - 1) = 1).
      { unfold Np.clip. cbn [Np.searchsorted].
        destruct (p.1 <? x_new); [|lia].
        rewrite (proj2 (Z.ltb_ge _ _)) by lia. lia. }
      rewrite Hclip. reflexivity.
    + apply Z.leb_gt in Hx.
      assert (Hpq : p.1 <= q.1).
      { unfold sorted_by_offset in Hsorted.
        apply Sorted_inv in Hsorted as [_ Hhd]. inversion Hhd; assumption. }
      assert (Htail : sorted_by_offset (q :: q' :: rest)).
      { unfold sorted_by_offset in *. apply Sorted_inv in Hsorted as [Ht _]. exact Ht. }
      rewrite <- (IH q q' Htail). unfold Np.call_linear.
      cbn [map length].
      rewrite !searchsorted_above by lia.
      set (k := Np.searchsorted (q'.1 :: map fst rest) x_new).
      assert (Hk : (k <= S (length (map fst rest)))%nat) by apply searchsorted_bound.
      set (n := length (map fst rest)) in *.
      assert (Hclip : Np.clip (Z.of_nat (S (S k))) 1 (Z.of_nat (S (S (S n))) - 1)
                      = Np.clip (Z.of_nat (S k)) 1 (Z.of_nat (S (S n)) - 1) + 1).
      { unfold Np.clip. lia. }
      assert (Hlow : 1 <= Np.clip (Z.of_nat (S k)) 1 (Z.of_nat (S (S n)) - 1)).
      { unfold Np.clip. lia. }
      rewrite Hclip.
      set (i := Np.clip (Z.of_nat (S k)) 1 (Z.of_nat (S (S n)) - 1)) in *.
      replace (i + 1 - 1) with i by lia.
      rewrite !(take_cons _ p.1), !(take_cons _ p.2) by lia.
      replace (i + 1 - 1) with i by lia. reflexivity.
Qed.

Lemma interp1d_interpolant (pts : list (Z * float)) :
  sorted_by_offset pts -> (2 <= length pts)%nat ->
  exists f, Np.interp1d (map fst pts) (map snd pts) = Ok f /\
            forall x, f x = interpolant pts x.
Proof.
  intros Hsorted Hlen. unfold Np.interp1d.
  rewrite zip_fst_snd, (sort_points_sorted _ Hsorted).
  destruct pts as [|p [|q rest]]; simpl in Hlen; [lia|lia|].
  rewrite bool_decide_eq_false_2 by discriminate.
  eexists. split; [reflexivity|].
  intros x. apply call_linear_piecewise, Hsorted.
Qed.

(** *** The table and the forward fill *)

Lemma arange_grid (max_t k : Z) : k ∈ Np.arange 5 (max_t + 1) 5 <-> on_grid max_t k.
Proof.
  unfold Np.arange, on_grid. rewrite list_elem_of_fmap. split.
  - intros (j & -> & Hj). apply elem_of_seq in Hj.
    Z.div_mod_to_equations. lia.
  - intros [Hk Hmod]. exists (Z.to_nat (k / 5 - 1)).
    rewrite elem_of_seq. Z.div_mod_to_equations. lia.
Qed.

Lemma arange_NoDup (start stop step : Z) :
  0 < step -> NoDup (Np.arange start stop step).
Proof.
  intros Hstep. unfold Np.arange. apply NoDup_fmap_2; [|apply NoDup_seq].
  intros i j Hij. nia.
Qed.

Lemma hr_dict_lookup (f : Z -> float) (ks : list Z) (table : gmap Z Z) :
  NoDup ks -> hr_dict ks (map f ks) = Ok table ->
  forall k,
    (k ∈ ks -> exists v, Py.int (f k) = Ok v /\ table !! k = Some v) /\
    (k ∉ ks -> table !! k = None).
Proof.
  intros Hnodup Hdict. unfold hr_dict in Hdict.
  apply bind_Ok in Hdict as (bpm & Hbpm & Hdict). injection Hdict as <-.
  apply mapM_Ok in Hbpm. apply Forall2_fmap_l in Hbpm.
  assert (Hfst : (zip ks bpm).*1 = ks).
  { apply fst_zip. erewrite Forall2_length by exact Hbpm. reflexivity. }
  intros k. split.
  - intros Hk. apply list_elem_of_lookup in Hk as [i Hi].
    destruct (Forall2_lookup_l _ _ _ _ _ Hbpm Hi) as (v & Hv & Hint).
    exists v. split; [exact Hint|].
    apply foldl_insert_lookup_in; [rewrite Hfst; exact Hnodup|].
    apply list_elem_of_lookup. exists i.
    rewrite lookup_zip_with, Hi, Hv. reflexivity.
  - intros Hk. rewrite foldl_insert_lookup_notin; [apply lookup_empty|].
    rewrite Hfst. exact Hk.
Qed.

Lemma hr_dict_total (f : Z -> float) (ks : list Z) :
  (forall k, k ∈ ks -> is_ok (Py.int (f k)) = true) ->
  is_ok (hr_dict ks (map f ks)) = true.
Proof.
  intros Hok. unfold hr_dict.
  assert (Hm : exists bpm, mapM Py.int (map f ks) = Ok bpm).
  { induction ks as [|k ks IH]; [eexists; reflexivity|].
    destruct IH as [bpm Hbpm]; [intros k' Hk'; apply Hok; right; exact Hk'|].
    pose proof (Hok k ltac:(left)) as Hk. apply is_ok_true in Hk as [v Hv].
    exists (v :: bpm). simpl. rewrite Hv. simpl. rewrite Hbpm. reflexivity. }
  destruct Hm as [bpm ->]. reflexivity.
Qed.

Lemma ffill_from_lookup (s : list (option Z)) :
  forall (prev : option Z) (j : nat) (x : option Z),
    s !! j = Some x ->
    ffill_from prev s !! j
    = Some (match x with
            | Some v => Some v
            | None => match j with
                      | O => prev
                      | S j' => mjoin (ffill_from prev s !! j')
                      end
            end).
Proof.
  induction s as [|v s IH]; intros prev j x Hx; [discriminate|].
  destruct j as [|j]; cbn in Hx |- *.
  - injection Hx as <-. destruct v; reflexivity.
  - rewrite (IH _ _ _ Hx). f_equal. destruct x as [y|]; [reflexivity|].
    destruct j as [|j]; [|reflexivity].
    cbn. destruct v; reflexivity.
Qed.

Lemma length_ffill_from (s : list (option Z)) :
  forall prev, length (ffill_from prev s) = length s.
Proof.
  induction s as [|v s IH]; intros prev; simpl; [reflexivity|].
  rewrite IH. reflexivity.
Qed.

Lemma hr_column_zip (l : list (option Z)) (rs : list Row) :
  length l = length rs -> map HeartRate (zip_with set_hr l rs) = l.
Proof.
  revert rs. induction l as [|h l IH]; intros [|r rs] Hlen; simpl in *;
    try discriminate; [reflexivity|].
  f_equal. apply IH. lia.
Qed.

Lemma zip_with_set_hr_same (l : list (option Z)) (rs : list Row) :
  length l = length rs -> Forall2 same_but_heart_rate rs (zip_with set_hr l rs).
Proof.
  revert l. induction rs as [|r rs IH]; intros [|h l] Hlen; simpl in *;
    try discriminate; constructor.
  - repeat split.
  - apply IH. lia.
Qed.

Lemma same_but_heart_rate_trans (l1 l2 l3 : list Row) :
  Forall2 same_but_heart_rate l1 l2 -> Forall2 same_but_heart_rate l2 l3 ->
  Forall2 same_but_heart_rate l1 l3.
Proof.
  intros H12. revert l3.
  induction H12 as [|x y l1 l2 Hxy _ IH]; intros l3 H23;
    inversion H23 as [|? z ? l3' Hyz H23']; subst; constructor.
  - unfold same_but_heart_rate in *. intuition congruence.
  - apply IH, H23'.
Qed.

(** The two assignments of the heart-rate column: the lookup in the
    table, then the forward fill. *)
Lemma assign_forward_filled (table : gmap Z Z) (df : DataFrame) :
  let col := map (fun i => table !! i) (map interval (rows df)) in
  forward_filled table (rows df)
    (rows (assign_hr (assign_hr df col) (ffill col))).
Proof.
  intros col. cbn [assign_hr rows].
  assert (Hlen : length col = length (rows df))
    by (unfold col; rewrite !length_map; reflexivity).
  assert (Hfill : length (ffill col) = length (rows df))
    by (unfold ffill; rewrite length_ffill_from; exact Hlen).
  set (rs1 := zip_with set_hr col (rows df)).
  assert (Hsame1 : Forall2 same_but_heart_rate (rows df) rs1)
    by (apply zip_with_set_hr_same, Hlen).
  assert (Hlen1 : length rs1 = length (rows df))
    by (symmetry; eapply Forall2_length, Hsame1).
  assert (Hsame2 : Forall2 same_but_heart_rate rs1 (zip_with set_hr (ffill col) rs1))
    by (apply zip_with_set_hr_same; rewrite Hfill, Hlen1; reflexivity).
  split; [eapply same_but_heart_rate_trans; eassumption|].
  assert (Hrow : forall j r', zip_with set_hr (ffill col) rs1 !! j = Some r' ->
            exists x, col !! j = Some x /\ x = table !! interval r' /\
                      ffill col !! j = Some (HeartRate r')).
  { intros j r' Hr'. rewrite lookup_zip_with in Hr'.
    destruct (ffill col !! j) as [h|] eqn:Hh; [|discriminate]. cbn in Hr'.
    destruct (rs1 !! j) as [r1|] eqn:Hr1; [|discriminate]. cbn in Hr'.
    injection Hr' as <-. unfold rs1 in Hr1. rewrite lookup_zip_with in Hr1.
    destruct (col !! j) as [x|] eqn:Hx; [|discriminate]. cbn in Hr1.
    destruct (rows df !! j) as [r|] eqn:Hr; [|discriminate]. cbn in Hr1.
    injection Hr1 as <-. exists x. split; [reflexivity|]. split; [|reflexivity].
    unfold col in Hx. rewrite !list_lookup_fmap, Hr in Hx. cbn in Hx.
    injection Hx as <-. reflexivity. }
  intros j r' Hr'. destruct (Hrow j r' Hr') as (x & Hx & -> & Hh).
  unfold ffill in Hh. rewrite (ffill_from_lookup _ _ _ _ Hx) in Hh.
  injection Hh as Hh. rewrite <- Hh.
  destruct (table !! interval r'); [reflexivity|].
  destruct j as [|j]; [reflexivity|].
  destruct (zip_with set_hr (ffill col) rs1 !! j) as [r''|] eqn:Hr''.
  - destruct (Hrow j r'' Hr'') as (_ & _ & _ & Hh''). unfold ffill in Hh''.
    rewrite Hh''. reflexivity.
  - apply lookup_ge_None in Hr''. apply lookup_lt_Some in Hr'. lia.
Qed.

Lemma hr_points_fst (analitics : Analitics) :
  map fst (hr_points analitics) = map hr_t (hr analitics).
Proof. unfold hr_points. rewrite map_map. reflexivity. Qed.

Lemma hr_points_snd (analitics : Analitics) :
  map snd (hr_points analitics) = map hr_v (hr analitics).
Proof. unfold hr_points. rewrite map_map. reflexivity. Qed.

Lemma py_max_offset (pts : list (Z * float)) :
  pts <> [] -> py_max (map fst pts) = Ok (max_offset pts).
Proof. destruct pts as [|p pts]; [congruence|]. reflexivity. Qed.

(** The resampler on a sorted series of two points at least: the table
    of the interpolant on the grid, then the lookup and the fill. *)
Lemma interpolate_heart_rates_eq (analitics : Analitics) (df : DataFrame) :
  sorted_by_offset (hr_points analitics) ->
  (2 <= length (hr_points analitics))%nat ->
  let pts := hr_points analitics in
  let grid := Np.arange 5 (max_offset pts + 1) 5 in
  interpolate_heart_rates analitics df =
    do table <- hr_dict grid (map (interpolant pts) grid);
    do intervals <- column df "interval" interval;
    let col := map (fun i => table !! i) intervals in
    Ok (assign_hr (assign_hr df col) (ffill col)).
Proof.
  intros Hsorted Hlen pts grid. unfold interpolate_heart_rates.
  assert (Hne : hr_points analitics <> [])
    by (intros Hnil; rewrite Hnil in Hlen; simpl in Hlen; lia).
  rewrite <- hr_points_fst, <- hr_points_snd. fold pts.
  destruct (interp1d_interpolant pts Hsorted Hlen) as (f & -> & Hf).
  cbn [bind]. rewrite py_max_offset by exact Hne.
  cbn [bind]. fold grid.
  rewrite (map_ext _ _ Hf).
  destruct (hr_dict grid (map (interpolant pts) grid)) as [table|e]; [|reflexivity].
  cbn [bind].
  destruct (decide ("interval" ∈ columns df)) as [Hcol|Hcol];
    [|rewrite !(column_notin _ _ _ Hcol); reflexivity].
  rewrite !(column_in _ _ _ Hcol). cbn [bind].
  rewrite column_in by (cbn [assign_hr columns]; apply elem_of_union; left;
                        apply elem_of_singleton; reflexivity).
  cbn [bind assign_hr rows]. rewrite hr_column_zip by (rewrite !length_map; reflexivity).
  reflexivity.
Qed.

(** C3. For a heart-rate series sorted by offset with two points at
    least, the resampler interpolates linearly between the points and
    extends the first and the last segment with their slopes, tabulates
    the integer part of this function at every multiple of 5 from 5 up to
    the maximum offset, and gives each row the value of the table at its
    offset when there is one, the heart rate of the row before it
    otherwise.  It returns whenever the table has its column of offsets
    and the values on the grid convert to integers. *)
Theorem heart_rates_resampled (analitics : Analitics) (df : DataFrame) :
  sorted_by_offset (hr_points analitics) ->
  (2 <= length (hr_points analitics))%nat ->
  (forall df', interpolate_heart_rates analitics df = Ok df' ->
     resampled (hr_points analitics) df df') /\
  ("interval" ∈ columns df ->
   (forall k, on_grid (max_offset (hr_points analitics)) k ->
      is_ok (Py.int (interpolant (hr_points analitics) k)) = true) ->
   is_ok (interpolate_heart_rates analitics df) = true).
Proof.
  intros Hsorted Hlen.
  rewrite (interpolate_heart_rates_eq _ _ Hsorted Hlen). cbv zeta.
  set (pts := hr_points analitics).
  set (grid := Np.arange 5 (max_offset pts + 1) 5).
  split.
  - intros df' Hrun.
    apply bind_Ok in Hrun as (table & Htable & Hrun).
    apply bind_Ok in Hrun as (intervals & Hint & Hrun).
    apply column_Ok in Hint as [_ ->]. injection Hrun as <-.
    exists table. split; [|split].
    + intros k.
      destruct (hr_dict_lookup _ _ _ (arange_NoDup 5 _ 5 ltac:(lia)) Htable k)
        as [Hin Hout].
      split; intros Hk; [apply Hin | apply Hout]; unfold grid;
        rewrite arange_grid; exact Hk.
    + reflexivity.
    + apply assign_forward_filled.
  - intros Hcol Hconv.
    pose proof (hr_dict_total (interpolant pts) grid) as Htotal.
    apply is_ok_true in Htotal as [table ->].
    + cbn [bind]. rewrite (column_in _ _ _ Hcol). reflexivity.
    + intros k Hk. apply Hconv. apply arange_grid. exact Hk.
Qed.

Lemma heart_rates_resampled_witness :
  sorted_by_offset (hr_points fixture) /\
  (2 <= length (hr_points fixture))%nat /\
  exists df',
    interpolate_heart_rates fixture
      (returned (do df <- process_samples fixture 0; calculate_distances df))
    = Ok df' /\
    resampled (hr_points fixture)
      (returned (do df <- process_samples fixture 0; calculate_distances df)) df'.
Proof.
  assert (Hsorted : sorted_by_offset (hr_points fixture)).
  { unfold sorted_by_offset. repeat constructor. simpl. lia. }
  assert (Hlen : (2 <= length (hr_points fixture))%nat) by (simpl; lia).
  split; [exact Hsorted|]. split; [exact Hlen|].
  eexists. split; [vm_compute; reflexivity|].
  apply (heart_rates_resampled fixture _ Hsorted Hlen).
  vm_compute. reflexivity.
Defined.

(** ** Binary64 arithmetic *)

(** ** Binary digits *)

Lemma pow2_pos (k : Z) : 0 <= k -> 0 < 2 ^ k.
Proof. intros Hk. apply Z.pow_pos_nonneg; lia. Qed.

Lemma pow2_add (a b : Z) : 0 <= a -> 0 <= b -> 2 ^ (a + b) = 2 ^ a * 2 ^ b.
Proof. intros Ha Hb. apply Z.pow_add_r; assumption. Qed.

Lemma pow2_le (a b : Z) : a <= b -> 2 ^ a <= 2 ^ b.
Proof.
  intros Hab. destruct (Z.le_gt_cases 0 a) as [Ha|Ha].
  - apply Z.pow_le_mono_r; lia.
  - rewrite (Z.pow_neg_r 2 a) by lia. apply Z.pow_nonneg. lia.
Qed.

Lemma pow2_lt (a b : Z) : 0 <= b -> a < b -> 2 ^ a < 2 ^ b.
Proof.
  intros Hb Hab. destruct (Z.le_gt_cases 0 a) as [Ha|Ha].
  - apply Z.pow_lt_mono_r; lia.
  - rewrite (Z.pow_neg_r 2 a) by lia. apply pow2_pos. lia.
Qed.

Lemma digits2_pos_bounds (m : positive) :
  2 ^ (Zpos (digits2_pos m) - 1) <= Zpos m < 2 ^ Zpos (digits2_pos m).
Proof.
  induction m as [m IH|m IH|]; cbn [digits2_pos].
  - rewrite Pos2Z.inj_succ, (Pos2Z.inj_xI m).
    replace (Z.succ (Zpos (digits2_pos m)) - 1) with (Zpos (digits2_pos m)) by lia.
    rewrite Z.pow_succ_r by lia.
    assert (H2 : 2 ^ Zpos (digits2_pos m) = 2 * 2 ^ (Zpos (digits2_pos m) - 1)).
    { rewrite <- Z.pow_succ_r by lia. f_equal. lia. }
    lia.
  - rewrite Pos2Z.inj_succ, (Pos2Z.inj_xO m).
    replace (Z.succ (Zpos (digits2_pos m)) - 1) with (Zpos (digits2_pos m)) by lia.
    rewrite Z.pow_succ_r by lia.
    assert (H2 : 2 ^ Zpos (digits2_pos m) = 2 * 2 ^ (Zpos (digits2_pos m) - 1)).
    { rewrite <- Z.pow_succ_r by lia. f_equal. lia. }
    lia.
  - split; [discriminate | reflexivity].
Qed.

Lemma Zdigits2_bounds (m : Z) :
  0 < m -> 2 ^ (Zdigits2 m - 1) <= m < 2 ^ Zdigits2 m.
Proof. destruct m as [|p|p]; try lia. intros _. apply digits2_pos_bounds. Qed.

Lemma Zdigits2_pos (m : Z) : 0 < m -> 0 < Zdigits2 m.
Proof. destruct m as [|p|p]; try lia. intros _. cbn. lia. Qed.

Lemma Zdigits2_unique (m k : Z) :
  2 ^ (k - 1) <= m < 2 ^ k -> 0 < m -> Zdigits2 m = k.
Proof.
  intros [Hlo Hhi] Hm. pose proof (Zdigits2_bounds m Hm) as [Dlo Dhi].
  pose proof (Zdigits2_pos m Hm) as Dpos.
  assert (Hk : 0 < k).
  { destruct (Z.lt_ge_cases 0 k) as [|Hk]; [assumption|].
    assert (2 ^ k <= 2 ^ 0) by (apply pow2_le; lia). cbn in *. lia. }
  destruct (Z.lt_trichotomy (Zdigits2 m) k) as [Hlt|[Heq|Hgt]]; [|exact Heq|].
  - assert (2 ^ Zdigits2 m <= 2 ^ (k - 1)) by (apply pow2_le; lia). lia.
  - assert (2 ^ k <= 2 ^ (Zdigits2 m - 1)) by (apply pow2_le; lia). lia.
Qed.

Lemma Zdigits2_le (m m' : Z) : 0 < m -> m <= m' -> Zdigits2 m <= Zdigits2 m'.
Proof.
  intros Hm Hle. pose proof (Zdigits2_bounds m Hm) as [Dlo Dhi].
  pose proof (Zdigits2_bounds m' ltac:(lia)) as [Dlo' Dhi'].
  destruct (Z.le_gt_cases (Zdigits2 m) (Zdigits2 m')) as [|Hgt]; [assumption|].
  assert (2 ^ Zdigits2 m' <= 2 ^ (Zdigits2 m - 1)) by (apply pow2_le; lia). lia.
Qed.

Lemma Zdigits2_mul_pow (m k : Z) :
  0 < m -> 0 <= k -> Zdigits2 (m * 2 ^ k) = Zdigits2 m + k.
Proof.
  intros Hm Hk. pose proof (Zdigits2_bounds m Hm) as [Dlo Dhi].
  pose proof (Zdigits2_pos m Hm) as Dpos. pose proof (pow2_pos k Hk) as Hp.
  apply Zdigits2_unique; [|nia].
  replace (Zdigits2 m + k - 1) with (Zdigits2 m - 1 + k) by lia.
  rewrite !pow2_add by lia. nia.
Qed.

Lemma Zdigits2_lt_pow (m k : Z) : 0 < m -> 0 <= k -> m < 2 ^ k -> Zdigits2 m <= k.
Proof.
  intros Hm Hk Hlt. pose proof (Zdigits2_bounds m Hm) as [Dlo Dhi].
  destruct (Z.le_gt_cases (Zdigits2 m) k) as [|Hgt]; [assumption|].
  assert (2 ^ k <= 2 ^ (Zdigits2 m - 1)) by (apply pow2_le; lia). lia.
Qed.

Lemma Zdigits2_ge_pow (m k : Z) : 0 <= k -> 2 ^ k <= m -> k < Zdigits2 m.
Proof.
  intros Hk Hle. pose proof (pow2_pos k Hk).
  pose proof (Zdigits2_bounds m ltac:(lia)) as [Dlo Dhi].
  destruct (Z.lt_ge_cases k (Zdigits2 m)) as [|Hge]; [assumption|].
  assert (2 ^ Zdigits2 m <= 2 ^ k) by (apply pow2_le; lia). lia.
Qed.

(** ** Shifts *)

Lemma iter_xO (d m : positive) : Zpos (Pos.iter xO m d) = Zpos m * 2 ^ Zpos d.
Proof.
  induction d as [|d IH] using Pos.peano_ind.
  - cbn [Pos.iter]. rewrite (Pos2Z.inj_xO m). change (2 ^ 1) with 2. lia.
  - rewrite Pos.iter_succ, (Pos2Z.inj_xO (Pos.iter xO m d)), IH, Pos2Z.inj_succ.
    rewrite Z.pow_succ_r by lia. lia.
Qed.

Lemma shl_align_spec (mx : positive) (ex ex' : Z) :
  shl_align mx ex ex' =
    if ex' <? ex then (Z.to_pos (Zpos mx * 2 ^ (ex - ex')), ex') else (mx, ex).
Proof.
  unfold shl_align. destruct (ex' <? ex) eqn:Hlt.
  - apply Z.ltb_lt in Hlt. destruct (ex' - ex) as [|d|d] eqn:Hd; try lia.
    replace (ex - ex') with (Zpos d) by lia.
    rewrite <- iter_xO. reflexivity.
  - apply Z.ltb_ge in Hlt. destruct (ex' - ex) as [|d|d] eqn:Hd; try lia; reflexivity.
Qed.

Lemma shifted_1 (a : shr_record) : 0 <= shr_m a -> shifted 1 a (shr_1 a).
Proof.
  destruct a as [m r s]. cbn [shr_m]. intros Hm. unfold shifted, inexact.
  change (2 ^ 1) with 2.
  destruct m as [|[p|p|]|p]; cbn [shr_1 shr_m shr_r shr_s]; try lia.
  - split; [reflexivity|]. destruct r, s; cbn; auto.
  - rewrite (Pos2Z.inj_xI p). split.
    + apply Z.div_unique with (r := 1); lia.
    + intros _. right. rewrite Z.add_comm, Z.mul_comm, Z.mod_add by lia. discriminate.
  - rewrite (Pos2Z.inj_xO p). split.
    + apply Z.div_unique with (r := 0); lia.
    + destruct r, s; cbn; auto; discriminate.
  - split; [reflexivity|]. intros _. right. discriminate.
Qed.

Lemma mod_mul_nonzero_l (m a b : Z) :
  0 < a -> 0 < b -> m mod a <> 0 -> m mod (a * b) <> 0.
Proof.
  intros Ha Hb Hm Hab. apply Hm.
  apply Z.mod_divide in Hab; [|lia]. destruct Hab as [q Hq].
  apply Z.mod_divide; [lia|]. exists (q * b). lia.
Qed.

Lemma mod_mul_nonzero_r (m a b : Z) :
  0 < a -> 0 < b -> (m / a) mod b <> 0 -> m mod (a * b) <> 0.
Proof.
  intros Ha Hb Hm Hab. apply Hm.
  apply Z.mod_divide in Hab; [|lia]. destruct Hab as [q Hq].
  apply Z.mod_divide; [lia|]. exists q.
  rewrite Hq. replace (q * (a * b)) with (q * b * a) by lia.
  apply Z.div_mul. lia.
Qed.

Lemma shifted_comp (j k : Z) (a b c : shr_record) :
  0 <= j -> 0 <= k -> shifted j a b -> shifted k b c -> shifted (j + k) a c.
Proof.
  intros Hj Hk [Hab Iab] [Hbc Ibc]. unfold shifted.
  pose proof (pow2_pos j Hj). pose proof (pow2_pos k Hk).
  rewrite pow2_add by assumption. split.
  - rewrite Hbc, Hab. apply Z.div_div; lia.
  - intros Hc. destruct (Ibc Hc) as [Hb|Hb].
    + destruct (Iab Hb) as [Ha|Ha]; [left; exact Ha|].
      right. apply mod_mul_nonzero_l; assumption.
    + right. rewrite Hab in Hb. apply mod_mul_nonzero_r; assumption.
Qed.

Lemma shifted_nonneg (k : Z) (a b : shr_record) :
  0 <= k -> 0 <= shr_m a -> shifted k a b -> 0 <= shr_m b.
Proof.
  intros Hk Ha [Hb _]. rewrite Hb. apply Z.div_pos; [exact Ha | apply pow2_pos, Hk].
Qed.

Lemma shifted_iter (n : positive) :
  forall a, 0 <= shr_m a -> shifted (Zpos n) a (SpecFloat.iter_pos shr_1 n a).
Proof.
  induction n as [n IH|n IH|]; intros a Ha; cbn [SpecFloat.iter_pos].
  - rewrite (Pos2Z.inj_xI n).
    replace (2 * Zpos n + 1) with (1 + Zpos n + Zpos n) by lia.
    pose proof (shifted_1 a Ha) as H1.
    pose proof (shifted_nonneg 1 _ _ ltac:(lia) Ha H1) as Hb.
    pose proof (IH _ Hb) as H2.
    pose proof (shifted_nonneg (Zpos n) _ _ ltac:(lia) Hb H2) as Hc.
    apply (shifted_comp (1 + Zpos n) (Zpos n) a
             (SpecFloat.iter_pos shr_1 n (shr_1 a)) _ ltac:(lia) ltac:(lia));
      [|apply IH, Hc].
    apply (shifted_comp 1 (Zpos n) a _ _ ltac:(lia) ltac:(lia) H1 H2).
  - rewrite (Pos2Z.inj_xO n). replace (2 * Zpos n) with (Zpos n + Zpos n) by lia.
    pose proof (IH a Ha) as H1.
    pose proof (shifted_nonneg (Zpos n) _ _ ltac:(lia) Ha H1) as Hb.
    apply (shifted_comp (Zpos n) (Zpos n) a _ _ ltac:(lia) ltac:(lia) H1).
    apply IH, Hb.
  - apply shifted_1, Ha.
Qed.

(** [shr_fexp] on an exact nonnegative mantissa: the mantissa is brought
    to the exponent [max (fexp (digits + e)) e]. *)
Lemma shr_fexp_exact (m e : Z) :
  0 <= m ->
  let E := Z.max (fexp prec emax (Zdigits2 m + e)) e in
  exists r, shr_fexp prec emax m e loc_Exact = (r, E) /\
            shr_m r = m / 2 ^ (E - e) /\
            (inexact r = true -> m mod 2 ^ (E - e) <> 0).
Proof.
  intros Hm E. unfold shr_fexp, shr. cbn [shr_record_of_loc].
  set (a := {| shr_m := m; shr_r := false; shr_s := false |}).
  destruct (fexp prec emax (Zdigits2 m + e) - e) as [|n|n] eqn:Hn.
  - exists a. replace E with e by (unfold E; lia).
    rewrite Z.sub_diag. change (2 ^ 0) with 1. rewrite Z.div_1_r.
    repeat split. discriminate.
  - exists (SpecFloat.iter_pos shr_1 n a). replace E with (e + Zpos n) by (unfold E; lia).
    replace (e + Zpos n - e) with (Zpos n) by lia.
    destruct (shifted_iter n a Hm) as [Hs Hi].
    repeat split; [exact Hs|]. intros Hin. destruct (Hi Hin) as [Ha|Ha]; [discriminate|exact Ha].
  - exists a. replace E with e by (unfold E; lia).
    rewrite Z.sub_diag. change (2 ^ 0) with 1. rewrite Z.div_1_r.
    repeat split. discriminate.
Qed.

Lemma round_nearest_even_cases (r : shr_record) :
  round_nearest_even (shr_m r) (loc_of_shr_record r) = shr_m r \/
  (round_nearest_even (shr_m r) (loc_of_shr_record r) = shr_m r + 1 /\
   inexact r = true).
Proof.
  destruct r as [m [] []]; cbn; auto; destruct (Z.even m); auto.
Qed.

(** ** Rounding *)

Lemma fexp_ge_emin (x : Z) : -1074 <= fexp prec emax x.
Proof. unfold fexp, SpecFloat.emin, prec, emax. lia. Qed.

Lemma fexp_eq (x : Z) : fexp prec emax x = Z.max (x - 53) (-1074).
Proof. reflexivity. Qed.

(** The second half of [binary_round_aux]: a rounded mantissa of [prec]
    digits at most, or [2^prec], is put in canonical form. *)
Lemma renormalise (s : bool) (m1' E : Z) :
  0 <= m1' <= 2 ^ prec -> -1074 <= E ->
  (let '(mrs'', e'') := shr_fexp prec emax m1' E loc_Exact in
   match shr_m mrs'' with
   | Z0 => S754_zero s
   | Zpos m => if e'' <=? emax - prec then S754_finite s m e'' else S754_infinity s
   | Zneg _ => S754_nan
   end) =
  if m1' =? 0 then S754_zero s
  else if m1' <? 2 ^ prec then fin_or_inf s (Z.to_pos m1') E
  else fin_or_inf s (Z.to_pos (2 ^ (prec - 1))) (E + 1).
Proof.
  intros [Hlo Hhi] HE.
  destruct (shr_fexp_exact m1' E Hlo) as (r & Hr & Hm & _). cbv zeta in Hr.
  rewrite Hr. rewrite fexp_eq in *.
  destruct (m1' =? 0) eqn:H0.
  - apply Z.eqb_eq in H0. subst m1'. rewrite Hm. rewrite Z.div_0_l; [reflexivity|].
    apply Z.pow_nonzero; cbn [Zdigits2]; lia.
  - apply Z.eqb_neq in H0. assert (Hpos : 0 < m1') by lia.
    destruct (m1' <? 2 ^ prec) eqn:Hlt.
    + apply Z.ltb_lt in Hlt.
      pose proof (Zdigits2_lt_pow m1' prec Hpos ltac:(unfold prec; lia) Hlt) as Hd.
      unfold prec in Hd.
      replace (Z.max (Z.max (Zdigits2 m1' + E - 53) (-1074)) E) with E in * by lia.
      rewrite Z.sub_diag in Hm. change (2 ^ 0) with 1 in Hm. rewrite Z.div_1_r in Hm.
      rewrite Hm. destruct m1' as [|p|p]; try lia. reflexivity.
    + apply Z.ltb_ge in Hlt. assert (Heq : m1' = 2 ^ prec) by lia.
      assert (Hd : Zdigits2 m1' = prec + 1).
      { apply Zdigits2_unique; [|exact Hpos]. rewrite Heq.
        replace (prec + 1 - 1) with prec by lia. split; [lia|].
        apply pow2_lt; unfold prec; lia. }
      unfold prec in Hd. rewrite Hd in *.
      replace (Z.max (Z.max (53 + 1 + E - 53) (-1074)) E) with (E + 1) in * by lia.
      replace (E + 1 - E) with 1 in Hm by lia.
      rewrite Hm, Heq. unfold fin_or_inf. reflexivity.
Qed.

Lemma binary_round_spec (s : bool) (m : positive) (e : Z) :
  let E := fexp prec emax (Zpos (digits2_pos m) + e) in
  let m1 := if E <? e then Zpos m * 2 ^ (e - E) else Zpos m / 2 ^ (E - e) in
  exists m1',
    (m1' = m1 \/ (m1' = m1 + 1 /\ e < E /\ Zpos m mod 2 ^ (E - e) <> 0)) /\
    binary_round prec emax s m e =
      if m1' =? 0 then S754_zero s
      else if m1' <? 2 ^ prec then fin_or_inf s (Z.to_pos m1') E
      else fin_or_inf s (Z.to_pos (2 ^ (prec - 1))) (E + 1).
Proof.
  intros E m1. unfold binary_round. rewrite shl_align_spec. fold E.
  pose proof (fexp_ge_emin (Zpos (digits2_pos m) + e)) as HE. fold E in HE.
  pose proof (digits2_pos_bounds m) as [Dlo Dhi].
  assert (HEd : Zpos (digits2_pos m) + e - 53 <= E) by (unfold E; rewrite fexp_eq; lia).
  unfold binary_round_aux.
  destruct (E <? e) eqn:Hlt.
  - apply Z.ltb_lt in Hlt. exists m1. split; [left; reflexivity|].
    pose proof (pow2_pos (e - E) ltac:(lia)) as Hp.
    assert (Hm1 : 0 < m1) by (unfold m1; nia).
    rewrite Z2Pos.id by exact Hm1. fold m1.
    assert (Hd : Zdigits2 m1 = Zpos (digits2_pos m) + (e - E)).
    { unfold m1. apply (Zdigits2_mul_pow (Zpos m)); lia. }
    destruct (shr_fexp_exact m1 E ltac:(lia)) as (r & Hr & Hm & Hi). cbv zeta in *.
    rewrite Hd in Hr, Hm, Hi.
    replace (Zpos (digits2_pos m) + (e - E) + E) with (Zpos (digits2_pos m) + e) in * by lia.
    fold E in Hr, Hm, Hi. rewrite Z.max_id in *. rewrite Z.sub_diag in *.
    change (2 ^ 0) with 1 in *. rewrite Z.div_1_r in Hm. rewrite Z.mod_1_r in Hi.
    rewrite Hr.
    assert (Hrne : round_nearest_even (shr_m r) (loc_of_shr_record r) = m1).
    { destruct (round_nearest_even_cases r) as [Hc|[_ Hc]]; [congruence|].
      exfalso. apply (Hi Hc). reflexivity. }
    rewrite Hrne. apply renormalise; [|exact HE].
    split; [lia|]. apply Z.lt_le_incl.
    apply Z.lt_le_trans with (2 ^ Zdigits2 m1); [apply Zdigits2_bounds, Hm1|].
    apply pow2_le. unfold prec. lia.
  - apply Z.ltb_ge in Hlt.
    destruct (shr_fexp_exact (Zpos m) e ltac:(lia)) as (r & Hr & Hm & Hi). cbv zeta in *.
    cbn [Zdigits2] in Hr, Hm, Hi. fold E in Hr, Hm, Hi.
    replace (Z.max E e) with E in * by lia. rewrite Hr. fold m1 in Hm.
    pose proof (pow2_pos (E - e) ltac:(lia)) as Hp.
    assert (Hm1 : 0 <= m1 < 2 ^ prec).
    { unfold m1. split; [apply Z.div_pos; lia|].
      apply Z.div_lt_upper_bound; [exact Hp|].
      apply Z.lt_le_trans with (2 ^ Zpos (digits2_pos m)); [exact Dhi|].
      rewrite <- pow2_add by (unfold prec; lia). apply pow2_le. unfold prec. lia. }
    exists (round_nearest_even (shr_m r) (loc_of_shr_record r)). split.
    + destruct (round_nearest_even_cases r) as [Hc|[Hc Hin]].
      * left. congruence.
      * right. split; [congruence|]. pose proof (Hi Hin) as Hmod.
        split; [|exact Hmod].
        destruct (Z.eq_dec E e) as [Heq|Hne]; [|lia].
        rewrite Heq, Z.sub_diag in Hmod. change (2 ^ 0) with 1 in Hmod.
        rewrite Z.mod_1_r in Hmod. congruence.
    + apply renormalise; [|exact HE].
      destruct (round_nearest_even_cases r) as [Hc|[Hc _]]; rewrite Hc, Hm; lia.
Qed.

(** ** Canonical floats and their order *)

Lemma bounded_canonical (mx : positive) (ex : Z) :
  bounded prec emax mx ex = true ->
  ex = Z.max (Zpos (digits2_pos mx) + ex - 53) (-1074) /\ ex <= 971.
Proof.
  unfold bounded, canonical_mantissa. rewrite fexp_eq. intros Hb.
  apply andb_true_iff in Hb as [Hc He].
  apply Z.eqb_eq in Hc. apply Z.leb_le in He. unfold emax, prec in He. lia.
Qed.

Lemma SFleb_finite_pos (mx my : positive) (ex ey : Z) :
  ex < ey \/ (ex = ey /\ Zpos mx <= Zpos my) ->
  SFleb (S754_finite false mx ex) (S754_finite false my ey) = true.
Proof.
  intros Hle. unfold SFleb, SFcompare.
  destruct (Z.compare_spec ex ey) as [Heq|Hlt|Hgt]; [|reflexivity|lia].
  change (Pos.compare_cont Eq mx my) with (Pos.compare mx my).
  destruct (Pos.compare_spec mx my) as [H|H|H]; try reflexivity. lia.
Qed.

Lemma SFleb_finite_neg (mx my : positive) (ex ey : Z) :
  ey < ex \/ (ex = ey /\ Zpos my <= Zpos mx) ->
  SFleb (S754_finite true mx ex) (S754_finite true my ey) = true.
Proof.
  intros Hle. unfold SFleb, SFcompare.
  destruct (Z.compare_spec ex ey) as [Heq|Hlt|Hgt]; [|lia|reflexivity].
  change (Pos.compare_cont Eq mx my) with (Pos.compare mx my).
  destruct (Pos.compare_spec mx my) as [H|H|H]; try reflexivity. lia.
Qed.

Lemma SFleb_fin_or_inf_pos (mx my : positive) (ex ey : Z) :
  ex < ey \/ (ex = ey /\ Zpos mx <= Zpos my) ->
  SFleb (S754_finite false mx ex) (fin_or_inf false my ey) = true.
Proof.
  intros Hle. unfold fin_or_inf. destruct (ey <=? emax - prec); [|reflexivity].
  apply SFleb_finite_pos, Hle.
Qed.

(** Rounding does not go below a canonical float that the exact value is
    not below. *)
Lemma round_ge (mx m : positive) (ex e : Z) :
  bounded prec emax mx ex = true -> e <= ex ->
  Zpos mx * 2 ^ (ex - e) <= Zpos m ->
  SFleb (S754_finite false mx ex) (binary_round prec emax false m e) = true.
Proof.
  intros Hb He Hle. apply bounded_canonical in Hb as [Hcan Hex].
  destruct (binary_round_spec false m e) as (m1' & Hm1' & ->). cbv zeta in Hm1'.
  rewrite fexp_eq in *.
  set (d := Zpos (digits2_pos m)) in *. set (dx := Zpos (digits2_pos mx)) in *.
  set (E := Z.max (d + e - 53) (-1074)) in *.
  pose proof (pow2_pos (ex - e) ltac:(lia)) as Hp.
  pose proof (digits2_pos_bounds m) as [Dlo Dhi]. fold d in Dlo, Dhi.
  assert (Hdig : dx + (ex - e) <= d).
  { rewrite <- (Zdigits2_mul_pow (Zpos mx)) by lia.
    apply (Zdigits2_le _ (Zpos m)); nia. }
  assert (HE : ex <= E) by (unfold E; lia).
  assert (Hone : 2 ^ (ex - e) <= Zpos m) by nia.
  set (m1 := if E <? e then Zpos m * 2 ^ (e - E) else Zpos m / 2 ^ (E - e)) in *.
  assert (Hm1 : 1 <= m1 /\ (E = ex -> Zpos mx <= m1)).
  { unfold m1. destruct (E <? e) eqn:Hlt.
    - apply Z.ltb_lt in Hlt. lia.
    - apply Z.ltb_ge in Hlt. pose proof (pow2_pos (E - e) ltac:(lia)) as Hq. split.
      + apply Z.div_le_lower_bound; [exact Hq|]. rewrite Z.mul_1_r.
        destruct (Z.eq_dec E ex) as [->|Hne]; [exact Hone|].
        apply Z.le_trans with (2 ^ (d - 1)); [apply pow2_le; unfold E in *; lia | exact Dlo].
      + intros ->. apply Z.div_le_lower_bound; [exact Hq|]. lia. }
  destruct Hm1 as [Hm1 Hmx].
  assert (Hge : m1 <= m1') by lia.
  rewrite (proj2 (Z.eqb_neq m1' 0)) by lia.
  destruct (m1' <? 2 ^ prec) eqn:Hlt.
  - apply SFleb_fin_or_inf_pos. rewrite Z2Pos.id by lia.
    destruct (Z.eq_dec E ex) as [Heq|Hne]; [right | left; lia].
    split; [symmetry; exact Heq|]. specialize (Hmx Heq). lia.
  - apply SFleb_fin_or_inf_pos. left. lia.
Qed.

(** Rounding the magnitude of a negative value does not go above a
    canonical float that the exact magnitude is not above. *)
Lemma round_le (mx m : positive) (ex e : Z) :
  bounded prec emax mx ex = true -> e <= ex ->
  Zpos m <= Zpos mx * 2 ^ (ex - e) ->
  SFleb (S754_finite true mx ex) (binary_round prec emax true m e) = true.
Proof.
  intros Hb He Hle. apply bounded_canonical in Hb as [Hcan Hex].
  destruct (binary_round_spec true m e) as (m1' & Hm1' & ->). cbv zeta in Hm1'.
  rewrite fexp_eq in *.
  set (d := Zpos (digits2_pos m)) in *. set (dx := Zpos (digits2_pos mx)) in *.
  set (E := Z.max (d + e - 53) (-1074)) in *.
  pose proof (pow2_pos (ex - e) ltac:(lia)) as Hp.
  pose proof (digits2_pos_bounds mx) as [Dlo Dhi]. fold dx in Dlo, Dhi.
  assert (Hdig : d <= dx + (ex - e)).
  { rewrite <- (Zdigits2_mul_pow (Zpos mx)) by lia.
    apply (Zdigits2_le (Zpos m)); lia. }
  assert (HE : E <= ex) by (unfold E; lia).
  assert (Hdx : dx <= 53) by lia.
  assert (Hmx53 : Zpos mx < 2 ^ 53).
  { apply Z.lt_le_trans with (2 ^ dx); [exact Dhi | apply pow2_le; lia]. }
  set (m1 := if E <? e then Zpos m * 2 ^ (e - E) else Zpos m / 2 ^ (E - e)) in *.
  assert (Hm1 : E = ex -> m1' <= Zpos mx).
  { intros Heq. unfold m1 in Hm1'. rewrite (proj2 (Z.ltb_ge E e)) in Hm1' by lia.
    rewrite Heq in Hm1'.
    assert (Hq : Zpos m / 2 ^ (ex - e) <= Zpos mx).
    { apply Z.div_le_upper_bound; [exact Hp | lia]. }
    destruct Hm1' as [->|(-> & _ & Hmod)]; [exact Hq|].
    assert (Hne : Zpos m <> Zpos mx * 2 ^ (ex - e)).
    { intros Habs. apply Hmod. rewrite Habs. apply Z.mod_mul. lia. }
    assert (Zpos m / 2 ^ (ex - e) < Zpos mx); [|lia].
    apply Z.div_lt_upper_bound; [exact Hp | lia]. }
  destruct (m1' =? 0) eqn:H0; [reflexivity|].
  apply Z.eqb_neq in H0.
  assert (Hpos : 0 <= m1').
  { assert (H1 : 0 <= m1); [|lia].
    unfold m1. destruct (E <? e) eqn:HEe.
    - pose proof (Z.pow_nonneg 2 (e - E) ltac:(lia)). nia.
    - apply Z.ltb_ge in HEe. apply Z.div_pos; [lia | apply pow2_pos; lia]. }
  unfold fin_or_inf. destruct (m1' <? 2 ^ prec) eqn:Hlt.
  - rewrite (proj2 (Z.leb_le E (emax - prec))) by (unfold emax, prec; lia).
    apply SFleb_finite_neg. rewrite Z2Pos.id by lia.
    destruct (Z.eq_dec E ex) as [Heq|Hne]; [right | left; lia].
    split; [symmetry; exact Heq | apply Hm1, Heq].
  - apply Z.ltb_ge in Hlt. unfold prec in Hlt.
    assert (Hlt' : E < ex).
    { destruct (Z.eq_dec E ex) as [Heq|Hne]; [|lia]. specialize (Hm1 Heq). lia. }
    rewrite (proj2 (Z.leb_le (E + 1) (emax - prec))) by (unfold emax, prec; lia).
    apply SFleb_finite_neg. unfold prec. rewrite Z2Pos.id by (cbn; lia).
    destruct (Z.eq_dec (E + 1) ex) as [Heq|Hne]; [right | left; lia].
    split; [symmetry; exact Heq|].
    assert (Hd53 : dx = 53) by lia. rewrite Hd53 in Dlo. exact Dlo.
Qed.

(** ** The result of a rounding *)

Lemma binary_round_signed (s : bool) (m : positive) (e : Z) :
  signed s (binary_round prec emax s m e).
Proof.
  destruct (binary_round_spec s m e) as (m1' & _ & ->). unfold fin_or_inf.
  repeat match goal with |- context [if ?b then _ else _] => destruct b end;
    reflexivity.
Qed.

Lemma binary_round_valid (s : bool) (m : positive) (e : Z) :
  valid_binary (binary_round prec emax s m e) = true.
Proof.
  destruct (binary_round_spec s m e) as (m1' & Hm1' & ->). cbv zeta in Hm1'.
  rewrite fexp_eq in *.
  set (d := Zpos (digits2_pos m)) in *.
  set (E := Z.max (d + e - 53) (-1074)) in *.
  pose proof (digits2_pos_bounds m) as [Dlo Dhi]. fold d in Dlo, Dhi.
  set (m1 := if E <? e then Zpos m * 2 ^ (e - E) else Zpos m / 2 ^ (E - e)) in *.
  assert (Hd1 : -1074 < E -> 2 ^ 52 <= m1).
  { intros HE. assert (HEd : E = d + e - 53) by (unfold E in *; lia).
    unfold m1. destruct (E <? e) eqn:Hlt.
    - apply Z.ltb_lt in Hlt. replace 52 with (d - 1 + (e - E)) by lia.
      rewrite pow2_add by lia. pose proof (pow2_pos (e - E) ltac:(lia)). nia.
    - apply Z.ltb_ge in Hlt. apply Z.div_le_lower_bound; [apply pow2_pos; lia|].
      rewrite <- pow2_add by lia. replace (E - e + 52) with (d - 1) by lia. exact Dlo. }
  destruct (m1' =? 0) eqn:H0; [reflexivity|]. apply Z.eqb_neq in H0.
  unfold fin_or_inf, prec, emax.
  destruct (m1' <? 2 ^ 53) eqn:Hlt.
  - apply Z.ltb_lt in Hlt.
    destruct (E <=? 1024 - 53) eqn:HeE; [|reflexivity].
    cbn [valid_binary]. unfold bounded, canonical_mantissa.
    change (emax - prec) with (1024 - 53). rewrite HeE, andb_true_r.
    apply Z.eqb_eq. rewrite fexp_eq.
    assert (Hpos : 0 < m1').
    { assert (0 <= m1); [|lia]. unfold m1. destruct (E <? e) eqn:HEe.
      - pose proof (Z.pow_nonneg 2 (e - E) ltac:(lia)). nia.
      - apply Z.ltb_ge in HEe. apply Z.div_pos; [lia | apply pow2_pos; lia]. }
    change (Zpos (digits2_pos (Z.to_pos m1'))) with (Zdigits2 (Zpos (Z.to_pos m1'))).
    rewrite Z2Pos.id by exact Hpos.
    pose proof (Zdigits2_lt_pow m1' 53 Hpos ltac:(lia) Hlt) as Hd.
    destruct (Z.eq_dec E (-1074)) as [Heq|Hne]; [lia|].
    assert (HE : -1074 < E) by (unfold E in *; lia).
    specialize (Hd1 HE).
    assert (Zdigits2 m1' = 53); [|lia].
    apply Zdigits2_unique; [|exact Hpos]. replace (53 - 1) with 52 by lia. lia.
  - destruct (E + 1 <=? 1024 - 53) eqn:HeE; [|reflexivity].
    cbn [valid_binary]. unfold bounded, canonical_mantissa.
    change (emax - prec) with (1024 - 53). rewrite HeE, andb_true_r.
    apply Z.eqb_eq. rewrite fexp_eq.
    change (Zpos (digits2_pos (Z.to_pos (2 ^ (53 - 1))))) with 53.
    unfold E. lia.
Qed.

Lemma binary_normalize_valid (z : Z) :
  valid_binary (binary_normalize prec emax z 0 false) = true.
Proof. destruct z; [reflexivity | apply binary_round_valid..]. Qed.

Lemma shr_record_of_loc_m (m : Z) (l : location) : shr_m (shr_record_of_loc m l) = m.
Proof. destruct l as [|[]]; reflexivity. Qed.

Lemma shr_fexp_nonneg (m e : Z) (l : location) :
  0 <= m -> 0 <= shr_m (fst (shr_fexp prec emax m e l)).
Proof.
  intros Hm. unfold shr_fexp, shr.
  destruct (fexp prec emax (Zdigits2 m + e) - e) as [|n|n]; cbn [fst];
    rewrite ?shr_record_of_loc_m; try exact Hm.
  apply (shifted_nonneg (Zpos n) (shr_record_of_loc m l)); [lia| |].
  - rewrite shr_record_of_loc_m. exact Hm.
  - apply shifted_iter. rewrite shr_record_of_loc_m. exact Hm.
Qed.

Lemma round_nearest_even_nonneg (m : Z) (l : location) :
  0 <= m -> 0 <= round_nearest_even m l.
Proof. intros Hm. destruct l as [|[]]; cbn; try destruct (Z.even m); lia. Qed.

Lemma binary_round_aux_signed (s : bool) (m e : Z) (l : location) :
  0 <= m -> signed s (binary_round_aux prec emax s m e l).
Proof.
  intros Hm. unfold binary_round_aux.
  pose proof (shr_fexp_nonneg m e l Hm) as H1.
  destruct (shr_fexp prec emax m e l) as [mrs' e']. cbn [fst] in H1.
  pose proof (round_nearest_even_nonneg _ (loc_of_shr_record mrs') H1) as H2.
  pose proof (shr_fexp_nonneg _ e' loc_Exact H2) as H3.
  destruct (shr_fexp prec emax _ e' loc_Exact) as [mrs'' e'']. cbn [fst] in H3.
  destruct (shr_m mrs'') as [|p|p]; [reflexivity| |lia].
  destruct (e'' <=? emax - prec); reflexivity.
Qed.

(** ** Signs and order of the operations *)

Lemma signed_nonneg (x : spec_float) : signed false x -> SFnonneg x = true.
Proof. destruct x as [s|s| |s m e]; cbn; intros Hs; subst; auto. Qed.

Lemma SFleb_zero_nonneg (s : bool) (y : spec_float) :
  SFleb (S754_zero s) y = true -> SFnonneg y = true.
Proof. destruct y as [sy|[]| |[] m e]; cbn; auto. Qed.

Lemma SFmul_nonneg (x y : spec_float) :
  SFnonneg x = true -> SFnonneg y = true ->
  SFmul prec emax x y = S754_nan \/ SFnonneg (SFmul prec emax x y) = true.
Proof.
  destruct x as [sx|[]| |[] mx ex], y as [sy|[]| |[] my ey]; cbn;
    try discriminate; auto.
  intros _ _. right. apply signed_nonneg, binary_round_aux_signed. lia.
Qed.

Lemma SFmul_positive (x : spec_float) (my : positive) (ey : Z) :
  SFnonneg x = true ->
  SFnonneg (SFmul prec emax x (S754_finite false my ey)) = true.
Proof.
  destruct x as [sx|[]| |[] mx ex]; cbn; try discriminate; auto.
  intros _. apply signed_nonneg, binary_round_aux_signed. lia.
Qed.

Lemma SFdiv_positive (x : spec_float) (my : positive) (ey : Z) :
  SFnonneg x = true ->
  SFnonneg (SFdiv prec emax x (S754_finite false my ey)) = true.
Proof.
  destruct x as [sx|[]| |[] mx ex]; cbn [SFnonneg SFdiv negb xorb];
    try discriminate; auto.
  intros _. unfold SFdiv_core_binary.
  set (e' := Z.min _ _). set (m' := match ex - ey - e' with Z0 => _ | Zpos _ => _ | Zneg _ => _ end).
  assert (Hm' : 0 <= m').
  { unfold m'. destruct (ex - ey - e'); try lia. apply Z.shiftl_nonneg. lia. }
  destruct (Z.div_eucl m' (Zpos my)) as [q r] eqn:Hqr.
  assert (Hq : q = m' / Zpos my) by (unfold Z.div; rewrite Hqr; reflexivity).
  apply signed_nonneg, binary_round_aux_signed. rewrite Hq.
  apply Z.div_pos; lia.
Qed.

Lemma SFleb_refl (x : spec_float) : x <> S754_nan -> SFleb x x = true.
Proof.
  destruct x as [s|[]| |[] m e]; cbn; try congruence; intros _;
    unfold SFleb, SFcompare; rewrite Z.compare_refl;
    change (Pos.compare_cont Eq m m) with (Pos.compare m m);
    rewrite Pos.compare_refl; reflexivity.
Qed.

Lemma shl_align_value (m : positive) (e e' : Z) :
  e' <= e -> Zpos (fst (shl_align m e e')) = Zpos m * 2 ^ (e - e').
Proof.
  intros He. rewrite shl_align_spec. destruct (e' <? e) eqn:Hlt; cbn [fst].
  - apply Z.ltb_lt in Hlt. rewrite Z2Pos.id; [reflexivity|].
    pose proof (pow2_pos (e - e') ltac:(lia)). nia.
  - apply Z.ltb_ge in Hlt. replace (e - e') with 0 by lia. cbn. lia.
Qed.

Lemma SFadd_finite_mono (sx : bool) (mx my : positive) (ex ey : Z) :
  bounded prec emax mx ex = true ->
  SFleb (S754_finite sx mx ex)
        (SFadd prec emax (S754_finite sx mx ex) (S754_finite false my ey)) = true.
Proof.
  intros Hb. cbn [SFadd cond_Zopp].
  set (ez := Z.min ex ey).
  rewrite !shl_align_value by (unfold ez; lia).
  pose proof (pow2_pos (ex - ez) ltac:(unfold ez; lia)) as Hpx.
  pose proof (pow2_pos (ey - ez) ltac:(unfold ez; lia)) as Hpy.
  set (X := Zpos mx * 2 ^ (ex - ez)). set (Y := Zpos my * 2 ^ (ey - ez)).
  assert (HX : 0 < X) by (unfold X; nia). assert (HY : 0 < Y) by (unfold Y; nia).
  destruct sx; cbn [cond_Zopp].
  - destruct (- X + Y) as [|m|m] eqn:HM; cbn [binary_normalize].
    + reflexivity.
    + pose proof (binary_round_signed false m ez) as Hs.
      destruct (binary_round prec emax false m ez) as [s|s| |s m' e'];
        cbn in Hs; subst; try contradiction; reflexivity.
    + apply round_le; [exact Hb | unfold ez; lia | fold X; lia].
  - destruct (X + Y) as [|m|m] eqn:HM; cbn [binary_normalize]; try lia.
    apply round_ge; [exact Hb | unfold ez; lia | fold X; lia].
Qed.

(** Adding a float that is not negative does not decrease a float. *)
Lemma SFadd_mono (x y : spec_float) :
  valid_binary x = true -> SFnonneg y = true ->
  x <> S754_nan -> x <> S754_infinity true ->
  SFleb x (SFadd prec emax x y) = true.
Proof.
  intros Hv Hy Hnan Hinf.
  destruct y as [sy|[]| |[] my ey]; try discriminate Hy.
  - destruct x as [sx|[]| |sx mx ex]; try congruence.
    + destruct sx, sy; reflexivity.
    + reflexivity.
    + apply SFleb_refl. discriminate.
  - destruct x as [sx|[]| |[] mx ex]; try congruence; reflexivity.
  - destruct x as [sx|[]| |sx mx ex]; try congruence; try reflexivity.
    apply SFadd_finite_mono. exact Hv.
Qed.

(** *** Floats of the smoother *)

Lemma leb_zero_nonneg (x : float) : (0 <=? x)%float = true -> nonneg x.
Proof. rewrite leb_spec. apply SFleb_zero_nonneg. Qed.

Lemma float_of_Z_spec (z : Z) :
  Prim2SF (Py.float_of_Z z) = binary_normalize prec emax z 0 false.
Proof. apply Prim2SF_SF2Prim, binary_normalize_valid. Qed.

Lemma float_of_Z_nonneg (z : Z) : 0 <= z -> nonneg (Py.float_of_Z z).
Proof.
  intros Hz. unfold nonneg. rewrite float_of_Z_spec.
  destruct z as [|p|p]; [reflexivity| |lia].
  apply signed_nonneg, binary_round_signed.
Qed.

Lemma in_band_positive (fact : float) :
  in_band fact = true -> exists m e, Prim2SF fact = S754_finite false m e.
Proof.
  unfold in_band. intros Hin. apply andb_true_iff in Hin as [Hlo Hhi].
  rewrite ltb_spec in Hlo, Hhi.
  assert (H94 : exists m e, Prim2SF 0.94 = S754_finite false m e)
    by (eexists _, _; vm_compute; reflexivity).
  assert (H106 : exists m e, Prim2SF 1.06 = S754_finite false m e)
    by (eexists _, _; vm_compute; reflexivity).
  destruct H94 as (m1 & e1 & H94). destruct H106 as (m2 & e2 & H106).
  rewrite H94 in Hlo. rewrite H106 in Hhi.
  destruct (Prim2SF fact) as [s|[]| |[] m e]; try discriminate; eauto.
Qed.

(** A distance that is a NaN or the negative infinity stays so. *)
Lemma add_bad (dist a : float) :
  SFbad (Prim2SF dist) = true ->
  nonneg a \/ SFis_nan (Prim2SF a) = true ->
  SFbad (Prim2SF (dist + a)) = true.
Proof.
  unfold nonneg. rewrite add_spec. intros Hd Ha.
  destruct (Prim2SF dist) as [s|[]| |s m e]; try discriminate;
    destruct (Prim2SF a) as [sa|[]| |[] ma ea]; destruct Ha; try discriminate;
    reflexivity.
Qed.

Lemma add_nan (dist a : float) :
  SFis_nan (Prim2SF a) = true -> SFbad (Prim2SF (dist + a)) = true.
Proof.
  rewrite add_spec. intros Ha.
  destruct (Prim2SF a); try discriminate.
  destruct (Prim2SF dist) as [s|[]| |s m e]; reflexivity.
Qed.

(** Adding an increment that is not negative does not decrease a
    distance. *)
Lemma add_nonneg (dist a : float) :
  SFbad (Prim2SF dist) = false -> nonneg a ->
  (dist <=? dist + a)%float = true /\ SFbad (Prim2SF (dist + a)) = false.
Proof.
  intros Hd Ha.
  assert (Hle : (dist <=? dist + a)%float = true).
  { rewrite leb_spec, add_spec. apply SFadd_mono.
    - apply Prim2SF_valid.
    - exact Ha.
    - intros Hn. rewrite Hn in Hd. discriminate.
    - intros Hn. rewrite Hn in Hd. discriminate. }
  split; [exact Hle|]. rewrite leb_spec in Hle.
  destruct (Prim2SF dist) as [s|[]| |s m e]; try discriminate;
    destruct (Prim2SF (dist + a)) as [s'|[]| |s' m' e']; try reflexivity;
    try discriminate; destruct s; discriminate.
Qed.

Lemma div_bad (h dist : float) :
  SFbad (Prim2SF dist) = true -> in_band (h / dist) = false.
Proof.
  intros Hd. destruct (in_band (h / dist)) eqn:Hin; [|reflexivity].
  destruct (in_band_positive _ Hin) as (m & e & Hf).
  rewrite div_spec in Hf.
  destruct (Prim2SF dist) as [s|[]| |s md ed]; try discriminate;
    destruct (Prim2SF h) as [sh|sh| |sh mh eh]; discriminate.
Qed.

(** *** Running sums *)

Lemma smooth_from_running (inc : Z -> float -> float) (rest : list Row) :
  forall dist prev_dt,
    smooth_from inc dist prev_dt rest = running dist (increments inc prev_dt rest).
Proof.
  induction rest as [|r rest IH]; intros dist prev_dt; [reflexivity|].
  cbn [smooth_from increments running]. rewrite IH. reflexivity.
Qed.

(** When the last running sum is neither a NaN nor the negative infinity,
    so is the first distance, and no increment is a NaN. *)
Lemma running_good (incs : list float) :
  forall dist,
    Forall (fun a => nonneg a \/ SFis_nan (Prim2SF a) = true) incs ->
    SFbad (Prim2SF (default dist (last (running dist incs)))) = false ->
    SFbad (Prim2SF dist) = false /\ Forall nonneg incs.
Proof.
  induction incs as [|a incs IH]; intros dist Hincs Hlast.
  - split; [exact Hlast | constructor].
  - apply Forall_cons in Hincs as [Ha Hincs].
    cbn [running] in Hlast. rewrite default_last_cons in Hlast.
    destruct (IH _ Hincs Hlast) as [Hsum Hnn].
    assert (Hann : nonneg a).
    { destruct Ha as [Ha|Ha]; [exact Ha|].
      rewrite (add_nan dist a Ha) in Hsum. discriminate. }
    split; [|constructor; assumption].
    destruct (SFbad (Prim2SF dist)) eqn:Hd; [|reflexivity].
    rewrite (add_bad dist a Hd (or_introl Hann)) in Hsum. discriminate.
Qed.

(** Running sums of increments that are not negative do not decrease. *)
Lemma running_monotone (incs : list float) :
  forall dist, SFbad (Prim2SF dist) = false -> Forall nonneg incs ->
    forall i d d',
      (dist :: running dist incs) !! i = Some d ->
      (dist :: running dist incs) !! S i = Some d' ->
      (d <=? d')%float = true.
Proof.
  induction incs as [|a incs IH]; intros dist Hd Hincs i d d' Hi HSi.
  - destruct i; discriminate.
  - apply Forall_cons in Hincs as [Ha Hincs].
    destruct (add_nonneg dist a Hd Ha) as [Hle Hsum].
    destruct i as [|i].
    + cbn in Hi, HSi. injection Hi as <-. injection HSi as <-. exact Hle.
    + cbn [running] in Hi, HSi. rewrite lookup_cons_ne_0 in Hi, HSi by discriminate.
      cbn [pred] in Hi, HSi. apply (IH _ Hsum Hincs i); assumption.
Qed.

(** *** The smoother by the dtype of the Speed column *)

Lemma calculate_distances_of_float64 (df : DataFrame) :
  calculate_distances_of float64 df = calculate_distances df.
Proof. reflexivity. Qed.

Lemma calculate_distances_of_Ok (d : dtype) (df df' : DataFrame) :
  calculate_distances_of d df = Ok df' ->
  rows df <> [] /\ has_distance_columns df.
Proof.
  unfold calculate_distances_of, channel. intros Hrun.
  apply bind_Ok in Hrun as (hdistance & Hh & Hrun).
  apply column_Ok in Hh as [Hcol ->].
  apply bind_Ok in Hrun as (dist & Hdist & Hrun).
  apply bind_Ok in Hrun as (st & Hst & _).
  split.
  - intros Hnil. rewrite Hnil in Hdist. discriminate.
  - split; [exact Hcol|]. intros Hlen.
    destruct (decide ("datetime" ∈ columns df /\ "Speed" ∈ columns df))
      as [Hcols|Hmissing]; [exact Hcols|].
    destruct (integrate_missing (increment1_of d) dist
                (assign_smooth df (map (fun r => default nan (values r !! "HDistance"))
                                       (rows df)))) as [c Hc].
    + rewrite length_assign_smooth; [exact Hlen | apply length_map].
    + cbn [assign_smooth columns]. intros [Hdt Hspeed]. apply Hmissing.
      apply elem_of_union in Hdt as [Hdt|Hdt];
        [apply elem_of_singleton in Hdt; discriminate|].
      apply elem_of_union in Hspeed as [Hspeed|Hspeed];
        [apply elem_of_singleton in Hspeed; discriminate|].
      split; assumption.
    + rewrite Hc in Hst. discriminate.
Qed.

Lemma calculate_distances_of_eq (d : dtype) (df : DataFrame) :
  rows df <> [] -> has_distance_columns df ->
  calculate_distances_of d df =
    if in_band (factor_of d (rows df)) then Ok (smoothed_of d df)
    else Raise AssertionError.
Proof.
  intros Hne [Hh Hcols]. unfold calculate_distances_of, channel.
  rewrite (column_in _ _ _ Hh). cbn [bind].
  destruct df as [cols rs]. cbn [rows columns] in *.
  destruct rs as [|r0 rest]; [congruence|]. clear Hne.
  set (cellH := fun r : Row => default nan (values r !! "HDistance")).
  assert (Hcols' : forall (todo : list Row), length todo = length rest ->
            todo <> [] ->
            "datetime" ∈ {["SmoothDistance"]} ∪ cols /\
            "Speed" ∈ {["SmoothDistance"]} ∪ cols).
  { intros todo Hlen Hne. destruct Hcols as [Hdt Hspeed].
    - simpl. destruct todo; [congruence|]. simpl in Hlen. lia.
    - split; apply elem_of_union; right; assumption. }
  cbn [map iloc lookup list_lookup bind].
  unfold integrate at 1. unfold assign_smooth at 1 2.
  cbn [rows columns zip_with length].
  rewrite Nat.sub_succ, Nat.sub_0_r.
  set (rest1 := zip_with set_smooth (map cellH rest) rest).
  assert (Hrest1 : Forall2 same_sample rest1 rest)
    by (apply zip_with_set_smooth_same, length_map).
  assert (Hlen1 : length rest1 = length rest) by (eapply Forall2_length, Hrest1).
  rewrite (foldM_integrate' (increment1_of d) _ rest1 []
             (set_smooth (cellH r0) r0) (cellH r0))
    by (apply Hcols'; exact Hlen1).
  cbn [bind fst snd app datetime set_smooth].
  rewrite (smooth_from_same _ _ _ Hrest1).
  assert (Hlast : iloc_last (cellH r0 :: map cellH rest)
                  = Ok (default nan (last (cellH r0 :: map cellH rest)))).
  { unfold iloc_last.
    destruct (last (cellH r0 :: map cellH rest)) eqn:Hl; [reflexivity|].
    apply last_None in Hl. discriminate. }
  rewrite Hlast. cbn [bind].
  assert (Hfact : (default nan (last (cellH r0 :: map cellH rest))
                   / default (cellH r0)
                       (last (smooth_from (increment1_of d) (cellH r0)
                                (datetime r0) rest)))%float
                  = factor_of d (r0 :: rest)).
  { unfold factor_of, pass. cbn [map]. rewrite !default_last_cons. reflexivity. }
  rewrite Hfact.
  destruct (in_band (factor_of d (r0 :: rest))); [|reflexivity].
  cbn [bind]. unfold integrate, assign_smooth.
  cbn [rows columns length replicate zip_with].
  rewrite length_zip_with, Nat.sub_succ, Nat.sub_0_r.
  set (fact := factor_of d (r0 :: rest)).
  set (rest2 := zip_with set_smooth _ (zip_with set_smooth _ rest1)).
  assert (Hrest2 : Forall2 same_sample rest2 rest).
  { unfold rest2.
    eapply Forall2_same_trans; [apply zip_with_set_smooth_same|].
    - rewrite length_replicate, length_zip_with. reflexivity.
    - eapply Forall2_same_trans; [apply zip_with_set_smooth_same | exact Hrest1].
      rewrite length_smooth_from, Hlen1. reflexivity. }
  assert (Hlen2 : length rest2 = length rest) by (eapply Forall2_length, Hrest2).
  replace (length (smooth_from (increment1_of d) (cellH r0) (datetime r0) rest)
             `min` length rest1)%nat with (length rest2)
    by (rewrite length_smooth_from, Hlen1, Hlen2; lia).
  rewrite (foldM_integrate' (increment2_of d fact) _ rest2 []
             (set_smooth (cellH r0) (set_smooth (cellH r0) r0)) (cellH r0))
    by (intros Hne; destruct (Hcols' rest2 Hlen2 Hne);
        split; apply elem_of_union; right; assumption).
  cbn [bind fst snd app datetime set_smooth].
  rewrite (smooth_from_same _ _ _ Hrest2), (zip_with_same _ _ _ Hrest2).
  reflexivity.
Qed.

(** The column returned on the dtype [d] is the second pass. *)
Lemma calculate_distances_of_column (d : dtype) (df df' : DataFrame) :
  calculate_distances_of d df = Ok df' ->
  in_band (factor_of d (rows df)) = true /\
  map SmoothDistance (rows df')
  = pass (increment2_of d (factor_of d (rows df))) (rows df).
Proof.
  intros Hrun. destruct (calculate_distances_of_Ok _ _ _ Hrun) as [Hne Hcols].
  rewrite (calculate_distances_of_eq _ _ Hne Hcols) in Hrun.
  destruct (in_band (factor_of d (rows df))); [|discriminate].
  injection Hrun as <-. split; [reflexivity|]. unfold smoothed_of. cbn [rows].
  apply smooth_column_zip, length_pass.
Qed.

Lemma main_of_float64 (analitics : Analitics) (start_dt : Z) :
  main_of float64 analitics start_dt = main analitics start_dt.
Proof. reflexivity. Qed.

Lemma calculate_distances_of_smoothed (d : dtype) (df df' : DataFrame) :
  calculate_distances_of d df = Ok df' ->
  df' = smoothed_of d df /\ rows df <> [] /\ has_distance_columns df /\
  in_band (factor_of d (rows df)) = true.
Proof.
  intros Hrun. destruct (calculate_distances_of_Ok _ _ _ Hrun) as [Hne Hcols].
  rewrite (calculate_distances_of_eq _ _ Hne Hcols) in Hrun.
  destruct (in_band (factor_of d (rows df))); [|discriminate].
  injection Hrun as <-. auto.
Qed.

Lemma smoothed_of_same (d : dtype) (df : DataFrame) :
  Forall2 same_sample (rows (smoothed_of d df)) (rows df).
Proof.
  unfold smoothed_of. cbn [rows]. apply zip_with_set_smooth_same, length_pass.
Qed.

Lemma wrap_small (z : Z) : - 2 ^ 63 <= z < 2 ^ 63 -> I64.wrap z = z.
Proof. intros Hz. unfold I64.wrap. rewrite Z.mod_small; lia. Qed.

Lemma timedelta_seconds_bound (us : Z) : 0 <= Py.timedelta_seconds us <= 86399.
Proof.
  unfold Py.timedelta_seconds.
  pose proof (Z.mod_pos_bound (us / 1000000) 86400). lia.
Qed.

(** The integer of a cell that is not negative is not negative. *)
Lemma of_cell_nonneg (x : float) : nonneg x -> 0 <= I64.of_cell x.
Proof.
  unfold nonneg, I64.of_cell, Py.int.
  destruct (Prim2SF x) as [s|s| |s m e]; cbn [SFnonneg]; try lia.
  intros Hs. destruct s; [discriminate|]. cbn [cond_Zopp].
  destruct e as [|p|p].
  - rewrite Z.shiftl_0_r. lia.
  - apply Z.shiftl_nonneg. lia.
  - apply Z.shiftr_nonneg. lia.
Qed.

(** Without overflow the product of an integer column is not negative,
    as the float of an integer that is not. *)
Lemma product_class (d : dtype) (delta_time : Z) (speed : float) :
  0 <= delta_time <= 86399 -> nonneg speed ->
  (d = int64 -> 86399 * I64.of_cell speed < 2 ^ 63) ->
  nonneg (product d delta_time speed) \/
  SFis_nan (Prim2SF (product d delta_time speed)) = true.
Proof.
  intros Hd Hs Hover. destruct d; cbn [product].
  - left. pose proof (of_cell_nonneg _ Hs) as Hz.
    specialize (Hover eq_refl).
    rewrite wrap_small by nia. apply float_of_Z_nonneg. nia.
  - unfold nonneg. rewrite mul_spec.
    destruct (SFmul_nonneg _ _ (float_of_Z_nonneg _ (proj1 Hd)) Hs) as [Hnan|Hnn].
    + right. unfold SF64mul. rewrite Hnan. reflexivity.
    + left. exact Hnn.
Qed.

Lemma increment1_of_class (d : dtype) (delta_time : Z) (speed : float) :
  0 <= delta_time <= 86399 -> nonneg speed ->
  (d = int64 -> 86399 * I64.of_cell speed < 2 ^ 63) ->
  nonneg (increment1_of d delta_time speed) \/
  SFis_nan (Prim2SF (increment1_of d delta_time speed)) = true.
Proof.
  intros Hd Hs Hover. unfold increment1_of, nonneg.
  assert (H36 : exists m e, Prim2SF 3.6 = S754_finite false m e)
    by (eexists _, _; vm_compute; reflexivity).
  destruct H36 as (m & e & H36). rewrite div_spec, H36.
  destruct (product_class d delta_time speed Hd Hs Hover) as [Hnn|Hnan].
  - left. apply SFdiv_positive. exact Hnn.
  - right. unfold SF64div. destruct (Prim2SF (product _ _ _)); try discriminate.
    reflexivity.
Qed.

Lemma increment2_of_nonneg (d : dtype) (fact : float) (delta_time : Z) (speed : float) :
  in_band fact = true -> nonneg (increment1_of d delta_time speed) ->
  nonneg (increment2_of d fact delta_time speed).
Proof.
  intros Hin Hnn. destruct (in_band_positive _ Hin) as (m & e & Hf).
  unfold nonneg, increment2_of. rewrite mul_spec, Hf.
  apply SFmul_positive. exact Hnn.
Qed.

Lemma increments1_of_class (d : dtype) (rest : list Row) :
  forall prev_dt,
    Forall (fun r => nonneg (cell r "Speed") /\
                     (d = int64 -> 86399 * I64.of_cell (cell r "Speed") < 2 ^ 63)) rest ->
    Forall (fun a => nonneg a \/ SFis_nan (Prim2SF a) = true)
           (increments (increment1_of d) prev_dt rest).
Proof.
  induction rest as [|r rest IH]; intros prev_dt Hs; [constructor|].
  apply Forall_cons in Hs as [[Hr Hover] Hs]. cbn [increments]. constructor.
  - apply increment1_of_class; [apply timedelta_seconds_bound | exact Hr | exact Hover].
  - apply IH, Hs.
Qed.

Lemma increments2_of_nonneg (d : dtype) (fact : float) (rest : list Row) :
  in_band fact = true ->
  forall prev_dt,
    Forall nonneg (increments (increment1_of d) prev_dt rest) ->
    Forall nonneg (increments (increment2_of d fact) prev_dt rest).
Proof.
  intros Hin. induction rest as [|r rest IH]; intros prev_dt Hs; [constructor|].
  cbn [increments] in *. apply Forall_cons in Hs as [Hr Hs]. constructor.
  - apply increment2_of_nonneg; assumption.
  - apply IH, Hs.
Qed.

(** C10, the counterexample: on an integer column the product of the
    seconds and the Speed wraps around.  With the Speeds 36, 2e14 and
    1e14 at 86399 seconds from one another, the second product passes
    2^63 and comes out negative: the smoother accepts the table (its
    factor is 1) and returns the distances 0, -3.24e17 and 2.08e18,
    which decrease from the first row to the second. *)
Lemma int64_product_wraps : ~ monotone_claim.
Proof.
  intros Hclaim.
  pose proof (Hclaim int64 (stage1 wrap_input 0)
                (returned (calculate_distances_of int64 (stage1 wrap_input 0))))
    as Hmono.
  assert (Hcol : map SmoothDistance
                   (rows (returned (calculate_distances_of int64 (stage1 wrap_input 0))))
                 = [0; -3.2415113158598656e17; 2.0758210906362358e18]%float)
    by (vm_compute; reflexivity).
  rewrite Hcol in Hmono.
  assert (Hle : (0 <=? -3.2415113158598656e17)%float = true).
  { apply (Hmono ltac:(vm_compute; reflexivity)) with (i := 0%nat).
    - vm_compute. repeat constructor; discriminate.
    - intros r Hr. vm_compute in Hr.
      repeat (apply elem_of_cons in Hr as [->|Hr]; [vm_compute; reflexivity|]).
      inversion Hr.
    - reflexivity.
    - reflexivity. }
  vm_compute in Hle. discriminate.
Qed.

(** C10, as the code has it.  The smoothed distances that the smoother
    returns for a table whose Speeds are not negative do not decrease
    from a row to the next, on a float Speed column, and on an integer
    one when no product of the seconds and a Speed leaves [int64]: 86399
    times every Speed is below 2^63.  The order of the timestamps is not
    needed: [timedelta.seconds] is never negative.  The accepted factor
    is positive and finite. *)
Theorem smoothed_distance_monotone (d : dtype) (df df' : DataFrame) :
  calculate_distances_of d df = Ok df' ->
  (forall r, r ∈ rows df -> (0 <=? cell r "Speed")%float = true) ->
  no_overflow d (rows df) ->
  (exists m e, Prim2SF (factor_of d (rows df)) = S754_finite false m e) /\
  non_decreasing (map SmoothDistance (rows df')).
Proof.
  intros Hrun Hspeed Hover.
  destruct (calculate_distances_of_column _ _ _ Hrun) as [Hin ->].
  destruct (calculate_distances_of_Ok _ _ _ Hrun) as [Hne _].
  split; [apply in_band_positive, Hin|].
  destruct (rows df) as [|r0 rest] eqn:Hrows; [congruence|].
  assert (Hrest : Forall (fun r => nonneg (cell r "Speed") /\
                    (d = int64 -> 86399 * I64.of_cell (cell r "Speed") < 2 ^ 63)) rest).
  { apply Forall_forall. intros r Hr. split.
    - apply leb_zero_nonneg, Hspeed. right. exact Hr.
    - intros ->. apply Hover. right. exact Hr. }
  set (h0 := cell r0 "HDistance").
  assert (Hgood : SFbad (Prim2SF h0) = false /\
                  Forall nonneg (increments (increment1_of d) (datetime r0) rest)).
  { apply running_good; [apply increments1_of_class, Hrest|].
    destruct (SFbad (Prim2SF (default h0
                (last (running h0 (increments (increment1_of d) (datetime r0) rest))))))
      eqn:Hbad; [|reflexivity].
    unfold factor_of, pass in Hin. rewrite default_last_cons in Hin.
    fold h0 in Hin. rewrite smooth_from_running in Hin.
    rewrite (div_bad _ _ Hbad) in Hin. discriminate. }
  destruct Hgood as [Hh0 Hincs].
  unfold pass. fold h0. rewrite smooth_from_running.
  unfold non_decreasing. apply running_monotone; [exact Hh0|].
  apply increments2_of_nonneg; assumption.
Qed.

Lemma smoothed_distance_monotone_witness :
  exists df',
    calculate_distances_of int64 (stage1 fixture 0) = Ok df' /\
    (forall r, r ∈ rows (stage1 fixture 0) -> (0 <=? cell r "Speed")%float = true) /\
    no_overflow int64 (rows (stage1 fixture 0)) /\
    non_decreasing (map SmoothDistance (rows df')).
Proof.
  eexists. split; [vm_compute; reflexivity|].
  assert (Hspeed : forall r, r ∈ rows (stage1 fixture 0) ->
                     (0 <=? cell r "Speed")%float = true).
  { intros r Hr. vm_compute in Hr.
    repeat (apply elem_of_cons in Hr as [->|Hr]; [vm_compute; reflexivity|]).
    inversion Hr. }
  assert (Hover : no_overflow int64 (rows (stage1 fixture 0))).
  { intros r Hr. vm_compute in Hr.
    repeat (apply elem_of_cons in Hr as [->|Hr]; [vm_compute; reflexivity|]).
    inversion Hr. }
  split; [exact Hspeed|]. split; [exact Hover|].
  apply (smoothed_distance_monotone int64 (stage1 fixture 0));
    [vm_compute; reflexivity | exact Hspeed | exact Hover].
Defined.

(** * The conversion, stage by stage *)

(** ** The output path *)

Lemma length_lower (s : string) : String.length (Str.lower s) = String.length s.
Proof. induction s as [|c s IH]; simpl; congruence. Qed.

Lemma app_nil_string (b : string) : "" +:+ b = b.
Proof. reflexivity. Qed.

Lemma app_cons_string (c : ascii) (a b : string) :
  String c a +:+ b = String c (a +:+ b).
Proof. reflexivity. Qed.

Lemma lower_app (a b : string) : Str.lower (a +:+ b) = Str.lower a +:+ Str.lower b.
Proof.
  induction a as [|c a IH]; [reflexivity|].
  rewrite app_cons_string. simpl. rewrite IH. reflexivity.
Qed.

Lemma length_app_string (a b : string) :
  String.length (a +:+ b) = (String.length a + String.length b)%nat.
Proof.
  induction a as [|c a IH]; [reflexivity|].
  rewrite app_cons_string. simpl. rewrite IH. reflexivity.
Qed.

Lemma substring_0_length (b : string) : substring 0 (String.length b) b = b.
Proof. induction b as [|c b IH]; simpl; [reflexivity|]. rewrite IH. reflexivity. Qed.

Lemma substring_app_l (a b : string) : substring 0 (String.length a) (a +:+ b) = a.
Proof.
  induction a as [|c a IH].
  - rewrite app_nil_string. destruct b; reflexivity.
  - rewrite app_cons_string. simpl. rewrite IH. reflexivity.
Qed.

Lemma substring_app_r (a b : string) :
  substring (String.length a) (String.length b) (a +:+ b) = b.
Proof.
  induction a as [|c a IH].
  - rewrite app_nil_string. apply substring_0_length.
  - rewrite app_cons_string. simpl. exact IH.
Qed.

Lemma length_substring_0 (n : nat) (s : string) :
  (n <= String.length s)%nat -> String.length (substring 0 n s) = n.
Proof.
  revert n. induction s as [|c s IH]; intros [|n] Hn; simpl in *; try lia.
  rewrite IH; lia.
Qed.

Lemma endswith_app (a b : string) : Str.endswith (a +:+ b) b = true.
Proof.
  unfold Str.endswith. rewrite length_app_string.
  apply andb_true_intro. split; [apply Nat.leb_le; lia|].
  replace (String.length a + String.length b - String.length b)%nat
    with (String.length a) by lia.
  rewrite substring_app_r. apply String.eqb_refl.
Qed.

(** X1. An input path that ends in ".json", in any case of the letters,
    gives the path with ".tcx" in the place of these five characters. *)
Theorem out_file_replaces_json (base ext : string) :
  Str.lower ext = ".json" -> out_file (base +:+ ext) = base +:+ ".tcx".
Proof.
  intros Hext. unfold out_file.
  assert (Hlen : String.length ext = 5%nat)
    by (rewrite <- length_lower, Hext; reflexivity).
  assert (Hends : Str.endswith (Str.lower (base +:+ ext)) ".json" = true)
    by (rewrite lower_app, Hext; apply endswith_app).
  rewrite Hends. unfold Str.drop_end.
  rewrite length_app_string, Hlen, Nat.add_sub, substring_app_l. reflexivity.
Qed.

Lemma out_file_replaces_json_witness :
  out_file "rides/Ride.JSON" = "rides/Ride.tcx".
Proof. apply (out_file_replaces_json "rides/Ride" ".JSON"). reflexivity. Defined.

(** X2. The output path always ends in ".tcx" and is never the input
    path, whose length it never has: the conversion cannot overwrite its
    input. *)
Theorem out_file_never_the_input (in_file : string) :
  Str.endswith (out_file in_file) ".tcx" = true /\
  String.length (out_file in_file) <> String.length in_file /\
  out_file in_file <> in_file.
Proof.
  assert (Hlen : String.length (out_file in_file) <> String.length in_file).
  { unfold out_file. rewrite length_app_string.
    destruct (Str.endswith _ _) eqn:Hends; [|simpl; lia].
    unfold Str.endswith in Hends. apply andb_true_iff in Hends as [Hn _].
    apply Nat.leb_le in Hn. rewrite length_lower in Hn. simpl in Hn.
    unfold Str.drop_end. rewrite length_substring_0 by lia. simpl. lia. }
  split; [apply endswith_app|]. split; [exact Hlen|].
  intros Heq. apply Hlen. rewrite Heq. reflexivity.
Qed.

(** ** The extractor: pairing and trimming *)

Lemma foldl_insert_lookup_last `{Countable K} {V : Type} (kvs : list (K * V)) :
  forall (m : gmap K V) (i : nat) (c : K) (v : V),
    kvs !! i = Some (c, v) ->
    (forall j kv, (i < j)%nat -> kvs !! j = Some kv -> kv.1 <> c) ->
    foldl (fun m kv => <[kv.1 := kv.2]> m) m kvs !! c = Some v.
Proof.
  induction kvs as [|kv kvs IH]; intros m i c v Hi Hlast; [discriminate|].
  cbn [foldl]. destruct i as [|i].
  - injection Hi as ->. cbn [fst snd].
    rewrite foldl_insert_lookup_notin; [apply lookup_insert_eq|].
    intros Hin. apply list_elem_of_fmap in Hin as (kv & Hc & Hkv).
    apply list_elem_of_lookup in Hkv as [j Hj].
    apply (Hlast (S j) kv); [lia | exact Hj | congruence].
  - apply (IH _ i); [exact Hi|].
    intros j kv' Hj Hkv'. apply (Hlast (S j) kv'); [lia | exact Hkv'].
Qed.

(** X3. The extractor pairs the names of the descriptor and the values of
    a sample by position: the value at a position is read under the name
    at this position, when no later position that has a value holds the
    same name (a repeated name takes its last value).  In particular,
    under a descriptor without repeated name every value within the
    length of the descriptor is read under its own name.  The names
    "datetime" and "interval" are apart: the extractor sets these two
    entries itself, after the pairing, whatever the descriptor gives
    them. *)
Theorem process_samples_pairs_by_position
    (fields : list string) (start_dt : Z) (s : RawSample)
    (i : nat) (c : string) (v : float) :
  fields !! i = Some c -> vs s !! i = Some v ->
  c <> "datetime" -> c <> "interval" ->
  (NoDup fields \/
   forall j, (i < j)%nat -> (j < length (vs s))%nat -> fields !! j <> Some c) ->
  values (make_row fields start_dt s) !! c = Some v /\
  cell (make_row fields start_dt s) c = v.
Proof.
  intros Hc Hv _ _ Hlast.
  assert (Hlast' : forall j, (i < j)%nat -> (j < length (vs s))%nat ->
                     fields !! j <> Some c).
  { destruct Hlast as [Hnd|Hlast]; [|exact Hlast].
    intros j Hj _ Hcj.
    pose proof (NoDup_lookup _ _ _ _ Hnd Hc Hcj). lia. }
  assert (Hval : values (make_row fields start_dt s) !! c = Some v).
  { cbn [make_row values]. unfold dict_zip.
    apply (foldl_insert_lookup_last _ _ i).
    - apply lookup_zip_with_Some. eauto.
    - intros j [c' v'] Hj Hkv. unfold zip in Hkv.
      apply lookup_zip_with_Some in Hkv as (x & y & Heq & Hx & Hy).
      injection Heq as -> ->. cbn [fst]. intros ->.
      apply (Hlast' j Hj); [apply lookup_lt_Some in Hy; exact Hy | exact Hx]. }
  split; [exact Hval|]. unfold cell. rewrite Hval. reflexivity.
Qed.

Lemma process_samples_pairs_witness :
  cell (make_row (descriptor fixture) 0 {| t := 5; vs := [36; 100; 50; 80]%float |})
    "HDistance" = 50%float.
Proof.
  refine (proj2 (process_samples_pairs_by_position (descriptor fixture) 0
                   {| t := 5; vs := [36; 100; 50; 80]%float |} 2 "HDistance" 50
                   _ _ _ _ _)).
  - reflexivity.
  - reflexivity.
  - discriminate.
  - discriminate.
  - right. intros j Hj Hlen. simpl in Hlen.
    assert (j = 3%nat) as -> by lia. discriminate.
Defined.

Lemma trim_loop_fixpoint (fuel : nat) : forall (df df' : DataFrame),
  (length (rows df) <= fuel)%nat ->
  trim_loop fuel df = Ok df' ->
  forall fuel', trim_loop fuel' df' = Ok df'.
Proof.
  induction fuel as [|fuel IH]; intros df df' Hlen Hrun fuel'; simpl in Hrun.
  - injection Hrun as <-.
    assert (Hnil : rows df = []) by (destruct (rows df); [reflexivity | simpl in Hlen; lia]).
    destruct fuel'; [reflexivity|]. simpl. unfold empty. rewrite Hnil. reflexivity.
  - destruct (empty df) eqn:Hempty.
    { injection Hrun as <-. destruct fuel'; [reflexivity|]. simpl.
      rewrite Hempty. reflexivity. }
    destruct (last (rows df)) as [x|] eqn:Hlast.
    + destruct (getitem df x "Speed") as [speed|e] eqn:Hspeed; [|discriminate].
      cbn [bind] in Hrun.
      destruct (Py.ne speed 0) eqn:Hs.
      { injection Hrun as <-. destruct fuel'; [reflexivity|]. simpl.
        rewrite Hempty, Hlast, Hspeed. cbn [bind]. rewrite Hs. reflexivity. }
      destruct (getitem df x "Power") as [power|e] eqn:Hpower; [|discriminate].
      cbn [bind] in Hrun.
      destruct (Py.ne power 0) eqn:Hp.
      { injection Hrun as <-. destruct fuel'; [reflexivity|]. simpl.
        rewrite Hempty, Hlast, Hspeed. cbn [bind]. rewrite Hs, Hpower.
        cbn [bind]. rewrite Hp. reflexivity. }
      apply (IH (drop_last df)); [|exact Hrun].
      apply last_Some in Hlast as [init Hinit].
      simpl. rewrite Hinit, removelast_last.
      rewrite Hinit, length_app in Hlen. simpl in Hlen. lia.
    + injection Hrun as <-. destruct fuel'; [reflexivity|]. simpl.
      rewrite Hempty, Hlast. reflexivity.
Qed.

(** X4. The trim is idempotent: on the table that the extractor returns,
    the trailing-idle loop removes nothing more and raises nothing. *)
Theorem process_samples_trim_idempotent
    (analitics : Analitics) (start_dt : Z) (df : DataFrame) :
  process_samples analitics start_dt = Ok df -> trim df = Ok df.
Proof.
  intros Hrun. unfold process_samples, trim in Hrun.
  apply (trim_loop_fixpoint _ _ _ (Nat.le_refl _) Hrun).
Qed.

Lemma process_samples_trim_idempotent_witness :
  trim (stage1 fixture 0) = Ok (stage1 fixture 0).
Proof.
  apply (process_samples_trim_idempotent fixture 0). vm_compute. reflexivity.
Defined.

Lemma trim_loop_speed (fuel : nat) : forall (df df' : DataFrame),
  (length (rows df) <= fuel)%nat ->
  (rows df <> [] -> columns df <> ∅) ->
  trim_loop fuel df = Ok df' -> rows df' <> [] -> "Speed" ∈ columns df'.
Proof.
  induction fuel as [|fuel IH]; intros df df' Hlen Hwf Hrun Hne; simpl in Hrun.
  - injection Hrun as <-. destruct (rows df); [congruence | simpl in Hlen; lia].
  - destruct (empty df) eqn:Hempty.
    { injection Hrun as <-. unfold empty in Hempty.
      apply orb_true_iff in Hempty as [Hnil|Hcols].
      - apply bool_decide_eq_true in Hnil. congruence.
      - apply bool_decide_eq_true in Hcols. destruct (Hwf Hne Hcols). }
    destruct (last (rows df)) as [x|] eqn:Hlast.
    + apply bind_Ok in Hrun as (speed & Hspeed & Hrun).
      apply getitem_Ok in Hspeed as [Hcol ->].
      destruct (Py.ne (cell x "Speed") 0); [injection Hrun as <-; exact Hcol|].
      apply bind_Ok in Hrun as (power & Hpower & Hrun).
      destruct (Py.ne power 0); [injection Hrun as <-; exact Hcol|].
      apply last_Some in Hlast as [init Hinit].
      apply (IH (drop_last df)); [| |exact Hrun|exact Hne].
      * simpl. rewrite Hinit, removelast_last.
        rewrite Hinit, length_app in Hlen. simpl in Hlen. lia.
      * simpl. intros _. apply Hwf. rewrite Hinit. destruct init; discriminate.
    + injection Hrun as <-. apply last_None in Hlast. congruence.
Qed.

(** The extractor returns the rows of the samples before an idle tail,
    under the columns of the whole table. *)
Lemma process_samples_Ok (analitics : Analitics) (start_dt : Z) (df : DataFrame) :
  process_samples analitics start_dt = Ok df ->
  columns df = columns (extract analitics start_dt) /\
  (exists kept dropped,
     samples analitics = kept ++ dropped /\
     rows df = rows_of analitics start_dt kept /\
     Forall idle (rows_of analitics start_dt dropped)) /\
  (rows df <> [] ->
   "Speed" ∈ columns df /\ "datetime" ∈ columns df /\ "interval" ∈ columns df).
Proof.
  intros Hrun. unfold process_samples, trim in Hrun.
  pose proof (trim_loop_Ok _ _ _ (Nat.le_refl _) (frame_of_wf _) Hrun)
    as (Hcols & tail & Hrows & Htail & _).
  split; [exact Hcols|]. split.
  - cbn [extract frame_of rows] in Hrows.
    apply map_eq_app in Hrows as (kept & dropped & Hs & Hk & Hd).
    exists kept, dropped. unfold rows_of. rewrite Hk, Hd. auto.
  - intros Hne. split.
    + eapply trim_loop_speed; [| |exact Hrun|exact Hne];
        [reflexivity | apply frame_of_wf].
    + rewrite Hcols. cbn [extract frame_of rows columns] in Hrows |- *.
      destruct (map _ (samples analitics)) as [|r rs].
      * destruct (rows df); [congruence | discriminate].
      * cbn [foldr]. split.
        -- apply elem_of_union_l, elem_of_union_r, elem_of_union_l,
             elem_of_singleton. reflexivity.
        -- apply elem_of_union_l, elem_of_union_r, elem_of_union_r,
             elem_of_singleton. reflexivity.
Qed.

Lemma columns_frame_of_in (rs : list Row) (r : Row) (c : string) :
  r ∈ rs -> is_Some (values r !! c) -> c ∈ columns (frame_of rs).
Proof.
  intros Hr Hc. induction Hr as [r rs|r r' rs _ IH]; cbn [frame_of columns foldr].
  - apply elem_of_union_l, elem_of_union_l, elem_of_dom. exact Hc.
  - apply elem_of_union_r. exact (IH Hc).
Qed.

Lemma ne_zero_cell (r : Row) (c : string) :
  Py.ne (cell r c) 0 = false -> is_Some (values r !! c).
Proof.
  unfold cell. destruct (values r !! c); [eauto|]. discriminate.
Qed.

Lemma trim_loop_all_idle (fuel : nat) : forall (df : DataFrame),
  (length (rows df) <= fuel)%nat ->
  Forall idle (rows df) ->
  "Speed" ∈ columns df -> "Power" ∈ columns df ->
  trim_loop fuel df = Ok {| columns := columns df; rows := [] |}.
Proof.
  induction fuel as [|fuel IH]; intros [cols rs] Hlen Hidle Hs Hp;
    cbn [rows columns] in *.
  - destruct rs; [reflexivity | simpl in Hlen; lia].
  - cbn [trim_loop].
    destruct (empty _) eqn:Hempty.
    { unfold empty in Hempty. cbn [rows columns] in Hempty.
      apply orb_true_iff in Hempty as [Hnil|Hcols].
      - apply bool_decide_eq_true in Hnil. rewrite Hnil. reflexivity.
      - apply bool_decide_eq_true in Hcols. rewrite Hcols in Hs.
        apply elem_of_empty in Hs. destruct Hs. }
    cbn [rows]. destruct (last rs) as [x|] eqn:Hlast.
    + apply last_Some in Hlast as [init ->].
      apply Forall_app in Hidle as [Hinit Hx].
      apply Forall_cons in Hx as [[Hspeed Hpower] _].
      rewrite !getitem_in by assumption. cbn [bind].
      rewrite Hspeed. cbn [bind]. rewrite Hpower.
      rewrite (IH (drop_last {| columns := cols; rows := init ++ [x] |}));
        cbn [drop_last rows columns]; rewrite ?removelast_last; auto.
      rewrite length_app in Hlen. simpl in Hlen. lia.
    + apply last_None in Hlast. rewrite Hlast. reflexivity.
Qed.

(** *** What the extractor returns for a short value vector *)

Lemma foldl_insert_is_Some `{Countable K} {V : Type} (kvs : list (K * V)) :
  forall (m : gmap K V) (c : K),
    c ∈ kvs.*1 \/ is_Some (m !! c) ->
    is_Some (foldl (fun m kv => <[kv.1 := kv.2]> m) m kvs !! c).
Proof.
  induction kvs as [|kv kvs IH]; intros m c Hc; cbn [foldl].
  - destruct Hc as [Hc|Hc]; [inversion Hc | exact Hc].
  - apply IH. destruct (decide (kv.1 = c)) as [Heq|Hne].
    + right. rewrite Heq, lookup_insert_eq. eauto.
    + destruct Hc as [Hc|Hc].
      * left. cbn in Hc. apply elem_of_cons in Hc as [Hc|Hc]; [congruence | exact Hc].
      * right. rewrite lookup_insert_ne by exact Hne. exact Hc.
Qed.

Lemma dict_zip_is_Some (fields : list string) (values : list float) (c : string) :
  c ∈ take (length values) fields -> is_Some (dict_zip fields values !! c).
Proof.
  intros Hc. unfold dict_zip. apply foldl_insert_is_Some. left.
  rewrite fst_zip_take. exact Hc.
Qed.

(** The columns of the extracted table: the two fixed labels, when there
    is a sample, and the channels for which some sample has a value. *)
Lemma columns_extract_has_value (analitics : Analitics) (start_dt : Z) (c : string) :
  c <> "datetime" -> c <> "interval" ->
  (c ∈ columns (extract analitics start_dt) <->
   exists s, s ∈ samples analitics /\ has_value (descriptor analitics) s c).
Proof.
  intros Hd Hi. unfold extract, has_value. split.
  - intros Hin. apply columns_frame_of in Hin as [(r & Hr & Hsome)|[?|?]];
      [|congruence..].
    change (map ?f ?l) with (f <$> l) in Hr.
    apply list_elem_of_fmap in Hr as (s & -> & Hs).
    exists s. split; [exact Hs|].
    destruct (decide (c ∈ take (length (vs s)) (descriptor analitics)))
      as [Hc|Hc]; [exact Hc|].
    cbn [make_row values] in Hsome.
    rewrite (dict_zip_lookup_None _ _ _ Hc) in Hsome. destruct Hsome; discriminate.
  - intros (s & Hs & Hc).
    apply (columns_frame_of_in _ (make_row (descriptor analitics) start_dt s)).
    + change (map ?f ?l) with (f <$> l). apply list_elem_of_fmap_2, Hs.
    + cbn [make_row values]. apply dict_zip_is_Some, Hc.
Qed.

(** C5, as the code has it.  With every timestamp in the range of the
    datetimes, the extractor raises a [KeyError] when there is a sample
    and the descriptor has no "Speed", and when the last sample has a
    zero Speed and the descriptor has no "Power"; with both columns in
    the table it returns, whatever the other channels and the lengths of
    the value vectors.  A value past the end of the descriptor is
    dropped.  A channel past the end of the value vector of a sample has
    no entry in its row: a read of the row gives NaN when another sample
    has a value for the channel, and raises a [KeyError] when none has,
    the table being without this column. *)
Theorem process_samples_checks (analitics : Analitics) (start_dt : Z) :
  let fields := descriptor analitics in
  let table := extract analitics start_dt in
  (samples_in_range analitics start_dt ->
   samples analitics <> [] -> "Speed" ∉ fields ->
   process_samples analitics start_dt = Raise (KeyError "Speed")) /\
  (samples_in_range analitics start_dt ->
   forall s, last (samples analitics) = Some s ->
     "Speed" ∈ columns table ->
     Py.ne (cell (make_row fields start_dt s) "Speed") 0 = false ->
     "Power" ∉ fields ->
     process_samples analitics start_dt = Raise (KeyError "Power")) /\
  (samples_in_range analitics start_dt ->
   "Speed" ∈ columns table -> "Power" ∈ columns table ->
   is_ok (process_samples analitics start_dt) = true) /\
  (forall s, make_row fields start_dt s =
             make_row fields start_dt {| t := t s; vs := take (length fields) (vs s) |}) /\
  (forall s c, s ∈ samples analitics -> ~ has_value fields s c ->
     c <> "datetime" -> c <> "interval" ->
     values (make_row fields start_dt s) !! c = None /\
     ((exists s', s' ∈ samples analitics /\ has_value fields s' c) ->
      getitem table (make_row fields start_dt s) c = Ok nan) /\
     ((forall s', s' ∈ samples analitics -> ~ has_value fields s' c) ->
      getitem table (make_row fields start_dt s) c = Raise (KeyError c))).
Proof.
  intros fields table.
  assert (Hnocol : forall c, c ∉ fields -> c <> "datetime" -> c <> "interval" ->
                     c ∉ columns table).
  { intros c Hc Hd Hi Hin. apply columns_extract in Hin. tauto. }
  split; [|split; [|split; [|split]]].
  - intros _ Hne Hspeed.
    destruct (exists_last Hne) as (ss & s0 & Hs).
    unfold process_samples, trim.
    assert (Hrows : rows (extract analitics start_dt)
                    = map (make_row fields start_dt) ss ++ [make_row fields start_dt s0]).
    { unfold extract. simpl. rewrite Hs, map_app. reflexivity. }
    rewrite Hrows at 1. rewrite length_app. simpl length.
    rewrite Nat.add_1_r, (trim_loop_unfold _ _ _ _ Hrows).
    + rewrite getitem_notin; [reflexivity|].
      apply Hnocol; [exact Hspeed|discriminate|discriminate].
    + apply frame_of_wf. fold (extract analitics start_dt).
      rewrite Hrows. destruct ss; discriminate.
  - intros _ s Hlast Hcol Hzero Hpower.
    apply last_Some in Hlast as [ss Hs].
    unfold process_samples, trim.
    assert (Hrows : rows (extract analitics start_dt)
                    = map (make_row fields start_dt) ss ++ [make_row fields start_dt s]).
    { unfold extract. simpl. rewrite Hs, map_app. reflexivity. }
    rewrite Hrows at 1. rewrite length_app. simpl length.
    rewrite Nat.add_1_r, (trim_loop_unfold _ _ _ _ Hrows).
    + rewrite (getitem_in _ _ _ Hcol). simpl. rewrite Hzero.
      rewrite getitem_notin; [reflexivity|].
      apply Hnocol; [exact Hpower|discriminate|discriminate].
    + apply frame_of_wf. fold (extract analitics start_dt).
      rewrite Hrows. destruct ss; discriminate.
  - intros _ Hs Hp. apply trim_loop_total; assumption.
  - intros s. unfold make_row. simpl. rewrite dict_zip_take. reflexivity.
  - intros s c Hs Hc Hd Hi.
    assert (Hnone : values (make_row fields start_dt s) !! c = None)
      by (apply dict_zip_lookup_None, Hc).
    split; [exact Hnone|]. split.
    + intros Hsome. rewrite getitem_in.
      * unfold cell. rewrite Hnone. reflexivity.
      * apply columns_extract_has_value; assumption.
    + intros Hnobody. apply getitem_notin.
      intros Hin. apply columns_extract_has_value in Hin as (s' & Hs' & Hc');
        [|assumption..].
      exact (Hnobody s' Hs' Hc').
Qed.

Lemma process_samples_checks_witness :
  samples_in_range no_speed_input 0 /\
  samples no_speed_input <> [] /\
  ("Speed" ∉ descriptor no_speed_input) /\
  process_samples no_speed_input 0 = Raise (KeyError "Speed").
Proof.
  destruct (process_samples_checks no_speed_input 0) as [Hspeed _].
  assert (Hrange : samples_in_range no_speed_input 0).
  { split; [unfold in_range, datetime_max; lia|].
    repeat constructor; cbn; unfold datetime_max; lia. }
  assert (Hne : samples no_speed_input <> []) by discriminate.
  assert (Hout : "Speed" ∉ descriptor no_speed_input).
  { intros Hin. simpl in Hin.
    repeat (apply elem_of_cons in Hin as [Hin|Hin]; [discriminate|]).
    inversion Hin. }
  split; [exact Hrange|]. split; [exact Hne|]. split; [exact Hout|].
  apply Hspeed; assumption.
Defined.

(** ** The smoother: what it keeps, and its errors *)

(** The smoother returns the table of the second pass. *)
Lemma calculate_distances_smoothed (df df' : DataFrame) :
  calculate_distances df = Ok df' ->
  df' = smoothed df /\ rows df <> [] /\ has_distance_columns df /\
  in_band (factor (rows df)) = true.
Proof.
  intros Hrun. destruct (calculate_distances_Ok _ _ Hrun) as [Hne Hcols].
  rewrite (calculate_distances_eq _ Hne Hcols) in Hrun.
  destruct (in_band (factor (rows df))); [|discriminate].
  injection Hrun as <-. auto.
Qed.

Lemma smoothed_same (df : DataFrame) :
  Forall2 same_sample (rows (smoothed df)) (rows df).
Proof. apply zip_with_set_smooth_same, length_pass. Qed.

(** X5. The smoother changes nothing but the column of smoothed
    distances: the table it returns has the rows of its argument, in
    the same number and order, with the same channel values, timestamps,
    offsets and heart rates, under the same columns and
    "SmoothDistance". *)
Theorem calculate_distances_keeps_samples (df df' : DataFrame) :
  calculate_distances df = Ok df' ->
  columns df' = {["SmoothDistance"]} ∪ columns df /\
  length (rows df') = length (rows df) /\
  Forall2 same_sample (rows df') (rows df).
Proof.
  intros Hrun. apply calculate_distances_smoothed in Hrun as (-> & _).
  pose proof (smoothed_same df) as Hsame.
  split; [|split; [eapply Forall2_length, Hsame | exact Hsame]].
  cbn [smoothed columns]. rewrite (assoc_L (∪)), (idemp_L (∪)). reflexivity.
Qed.

Lemma calculate_distances_keeps_samples_witness :
  Forall2 same_sample (rows (stage2 fixture 0)) (rows (stage1 fixture 0)).
Proof.
  refine (proj2 (proj2 (calculate_distances_keeps_samples (stage1 fixture 0)
                          (stage2 fixture 0) _))).
  vm_compute. reflexivity.
Defined.

(** X6. The errors of the smoother on a table that lacks what it reads: a
    [KeyError] for "HDistance" without this column; an [IndexError]
    with the column and no row; with two rows or more, a [KeyError] for
    "datetime", then for "Speed", when the column is missing.  (A table
    of one row is smoothed without its "datetime" and "Speed".) *)
Theorem calculate_distances_errors (df : DataFrame) :
  ("HDistance" ∉ columns df ->
   calculate_distances df = Raise (KeyError "HDistance")) /\
  ("HDistance" ∈ columns df -> rows df = [] ->
   calculate_distances df = Raise IndexError) /\
  ("HDistance" ∈ columns df -> (2 <= length (rows df))%nat ->
   "datetime" ∉ columns df ->
   calculate_distances df = Raise (KeyError "datetime")) /\
  ("HDistance" ∈ columns df -> (2 <= length (rows df))%nat ->
   "datetime" ∈ columns df -> "Speed" ∉ columns df ->
   calculate_distances df = Raise (KeyError "Speed")).
Proof.
  unfold calculate_distances, channel.
  split; [|split; [|split]].
  - intros Hh. rewrite (column_notin _ _ _ Hh). reflexivity.
  - intros Hh Hnil. rewrite (column_in _ _ _ Hh), Hnil. reflexivity.
  - intros Hh Hlen Hdt. rewrite (column_in _ _ _ Hh).
    destruct df as [cols [|r0 [|r1 rest]]]; cbn [rows columns] in *;
      [simpl in Hlen; lia | simpl in Hlen; lia|].
    cbn [map bind iloc lookup list_lookup]. unfold integrate.
    cbn [assign_smooth rows map zip_with length Nat.sub seq foldM].
    unfold integrate_step at 1. cbn [fst snd].
    rewrite column_notin; [reflexivity|].
    cbn [columns]. intros Hin. apply elem_of_union in Hin as [Hin|Hin];
      [apply elem_of_singleton in Hin; discriminate | auto].
  - intros Hh Hlen Hdt Hspeed. rewrite (column_in _ _ _ Hh).
    destruct df as [cols [|r0 [|r1 rest]]]; cbn [rows columns] in *;
      [simpl in Hlen; lia | simpl in Hlen; lia|].
    cbn [map bind iloc lookup list_lookup]. unfold integrate.
    cbn [assign_smooth rows map zip_with length Nat.sub seq foldM].
    unfold integrate_step at 1. cbn [fst snd].
    rewrite column_in by (cbn [columns]; apply elem_of_union_r, Hdt).
    cbn [bind rows map iloc lookup list_lookup Nat.sub]. unfold channel.
    rewrite column_notin; [reflexivity|].
    cbn [columns]. intros Hin. apply elem_of_union in Hin as [Hin|Hin];
      [apply elem_of_singleton in Hin; discriminate | auto].
Qed.

Lemma SFdiv_finite_signed (sx sy : bool) (mx my : positive) (ex ey : Z) :
  signed (xorb sx sy)
    (SFdiv prec emax (S754_finite sx mx ex) (S754_finite sy my ey)).
Proof.
  cbn [SFdiv]. unfold SFdiv_core_binary.
  set (e' := Z.min _ _).
  set (m' := match ex - ey - e' with Z0 => _ | Zpos _ => _ | Zneg _ => _ end).
  assert (Hm' : 0 <= m').
  { unfold m'. destruct (ex - ey - e'); try lia. apply Z.shiftl_nonneg. lia. }
  destruct (Z.div_eucl m' (Zpos my)) as [q r] eqn:Hqr.
  assert (Hq : q = m' / Zpos my) by (unfold Z.div; rewrite Hqr; reflexivity).
  apply binary_round_aux_signed. rewrite Hq. apply Z.div_pos; lia.
Qed.

(** A quotient in the band is the quotient of two finite floats of the
    same sign, neither being zero. *)
Lemma in_band_div (h d : float) :
  in_band (h / d) = true ->
  exists s mh eh md ed,
    Prim2SF h = S754_finite s mh eh /\ Prim2SF d = S754_finite s md ed.
Proof.
  intros Hin. destruct (in_band_positive _ Hin) as (m & e & Hf).
  rewrite div_spec in Hf.
  destruct (Prim2SF h) as [sh|sh| |sh mh eh]; destruct (Prim2SF d) as [sd|sd| |sd md ed];
    try discriminate.
  pose proof (SFdiv_finite_signed sh sd mh md eh ed) as Hs.
  unfold SF64div in Hf. rewrite Hf in Hs.
  destruct sh, sd; cbn in Hs; try discriminate; eauto 10.
Qed.



(** A finite float that is not zero, divided by itself, is one. *)
Lemma SFdiv_self (s : bool) (m : positive) (e : Z) :
  SFdiv prec emax (S754_finite s m e) (S754_finite s m e) = Prim2SF 1.
Proof.
  cbn [SFdiv]. unfold SFdiv_core_binary.
  replace (Zdigits2 (Zpos m) + e - (Zdigits2 (Zpos m) + e)) with 0 by lia.
  replace (e - e) with 0 by lia.
  change (0 - Z.min (fexp prec emax 0) 0) with 53.
  change (Z.min (fexp prec emax 0) 0) with (-53).
  destruct (Z.div_eucl (Z.shiftl (Zpos m) 53) (Zpos m)) as [q r] eqn:Hqr.
  assert (Hq : q = Z.shiftl (Zpos m) 53 / Zpos m)
    by (unfold Z.div; rewrite Hqr; reflexivity).
  assert (Hr : r = Z.shiftl (Zpos m) 53 mod Zpos m)
    by (unfold Z.modulo; rewrite Hqr; reflexivity).
  rewrite Z.shiftl_mul_pow2 in Hq, Hr by lia.
  rewrite Z.mul_comm, Z.div_mul in Hq by lia.
  rewrite Z.mul_comm, Z.mod_mul in Hr by lia.
  subst q r.
  assert (Hloc : new_location (Zpos m) 0 = loc_Exact).
  { unfold new_location, new_location_even, new_location_odd.
    destruct (Z.even (Zpos m)); reflexivity. }
  rewrite Hloc. destruct s; vm_compute; reflexivity.
Qed.

Lemma div_self_in_band (x : float) :
  finite_nonzero x -> in_band (x / x) = true.
Proof.
  unfold finite_nonzero, in_band. rewrite !ltb_spec, div_spec.
  destruct (Prim2SF x) as [s|s| |s m e]; try contradiction. intros _.
  unfold SF64div. rewrite SFdiv_self. vm_compute. reflexivity.
Qed.

(** X8. A table of one row is accepted exactly when its raw distance is
    finite and not zero; its smoothed distance is then its raw distance.
    Otherwise (a raw distance of zero, missing or infinite) the factor is
    not a number and the assertion fails. *)
Theorem calculate_distances_single_row (df : DataFrame) (r : Row) :
  rows df = [r] -> "HDistance" ∈ columns df ->
  (finite_nonzero (cell r "HDistance") ->
   exists df', calculate_distances df = Ok df' /\
     map SmoothDistance (rows df') = [cell r "HDistance"]) /\
  (~ finite_nonzero (cell r "HDistance") ->
   calculate_distances df = Raise AssertionError).
Proof.
  intros Hrows Hh.
  assert (Heq : calculate_distances df =
                if in_band (cell r "HDistance" / cell r "HDistance")
                then Ok (smoothed df) else Raise AssertionError).
  { rewrite calculate_distances_eq.
    - rewrite Hrows. reflexivity.
    - rewrite Hrows. discriminate.
    - split; [exact Hh|]. rewrite Hrows. simpl. lia. }
  rewrite Heq. split.
  - intros Hfin. rewrite (div_self_in_band _ Hfin).
    eexists. split; [reflexivity|].
    cbn [smoothed rows]. rewrite Hrows. reflexivity.
  - intros Hnot.
    destruct (in_band (cell r "HDistance" / cell r "HDistance")) eqn:Hin;
      [|reflexivity].
    destruct (in_band_div _ _ Hin) as (s & mh & eh & _ & _ & Hfin & _).
    destruct Hnot. unfold finite_nonzero. rewrite Hfin. exact I.
Qed.

Lemma calculate_distances_single_row_witness :
  exists df',
    calculate_distances (stage1 one_sample_input 0) = Ok df' /\
    map SmoothDistance (rows df') = [50%float].
Proof.
  refine (proj1 (calculate_distances_single_row (stage1 one_sample_input 0)
                   (make_row (descriptor one_sample_input) 0
                      {| t := 5; vs := [36; 100; 50; 80]%float |}) _ _) _).
  - reflexivity.
  - vm_compute. reflexivity.
  - vm_compute. exact I.
Defined.

(** ** The resampler: what it keeps, and its errors *)

(** The resampler returns the table filled from a lookup table whose
    keys are the offsets of the grid, whatever the series. *)
Lemma interpolate_heart_rates_Ok (analitics : Analitics) (df df' : DataFrame) :
  interpolate_heart_rates analitics df = Ok df' ->
  exists table : gmap Z Z,
    (forall k, on_grid (max_offset (hr_points analitics)) k <-> is_Some (table !! k)) /\
    "interval" ∈ columns df /\
    columns df' = {["HeartRate"]} ∪ ({["HeartRate"]} ∪ columns df) /\
    forward_filled table (rows df) (rows df').
Proof.
  unfold interpolate_heart_rates. intros Hrun.
  apply bind_Ok in Hrun as (f & _ & Hrun).
  apply bind_Ok in Hrun as (max_t & Hmax & Hrun).
  apply bind_Ok in Hrun as (table & Htable & Hrun).
  apply bind_Ok in Hrun as (intervals & Hint & Hrun).
  apply column_Ok in Hint as [Hcol ->].
  apply bind_Ok in Hrun as (heart_rate & Hhr & Hrun).
  apply column_Ok in Hhr as [_ ->]. injection Hrun as <-.
  assert (Hm : max_t = max_offset (hr_points analitics)).
  { rewrite <- hr_points_fst in Hmax.
    destruct (hr_points analitics) as [|p pts]; [discriminate|].
    rewrite py_max_offset in Hmax by discriminate. congruence. }
  subst max_t. exists table. split; [|split; [exact Hcol|split; [reflexivity|]]].
  - intros k.
    destruct (hr_dict_lookup _ _ _ (arange_NoDup 5 _ 5 ltac:(lia)) Htable k)
      as [Hin Hout].
    rewrite <- arange_grid. split.
    + intros Hk. destruct (Hin Hk) as (v & _ & ->). eauto.
    + intros Hsome.
      destruct (decide (k ∈ Np.arange 5 (max_offset (hr_points analitics) + 1) 5))
        as [Hk|Hk]; [exact Hk|].
      rewrite (Hout Hk) in Hsome. destruct Hsome; discriminate.
  - cbn [assign_hr rows]. rewrite hr_column_zip by (rewrite !length_map; reflexivity).
    apply assign_forward_filled.
Qed.

(** The filled column has no gap after its first resolved row. *)
Lemma forward_filled_resolved (table : gmap Z Z) (rs rs' : list Row) :
  forward_filled table rs rs' ->
  forall i j r r', rs' !! i = Some r -> rs' !! j = Some r' -> (i <= j)%nat ->
    resolved_row r -> resolved_row r'.
Proof.
  intros [_ Hfill] i j r r' Hi Hj Hle Hr. revert r' Hj.
  induction Hle as [|j Hle IH]; intros r' Hj.
  - congruence.
  - destruct (lookup_lt_is_Some_2 rs' j) as [rj Hrj];
      [apply lookup_lt_Some in Hj; lia|].
    specialize (IH rj Hrj). unfold resolved_row in *.
    rewrite (Hfill _ _ Hj). destruct (table !! interval r'); [eauto|].
    rewrite Hrj. exact IH.
Qed.

(** The first row is resolved when its offset is a key of the table,
    and only then. *)
Lemma forward_filled_first (table : gmap Z Z) (rs rs' : list Row) (r0 r0' : Row) :
  forward_filled table rs rs' ->
  rs !! 0%nat = Some r0 -> rs' !! 0%nat = Some r0' ->
  HeartRate r0' = table !! interval r0.
Proof.
  intros [Hsame Hfill] H0 H0'. rewrite (Hfill _ _ H0').
  destruct (Forall2_lookup_lr _ _ _ _ _ _ Hsame H0 H0') as (_ & _ & Hi & _).
  rewrite <- Hi. destruct (table !! interval r0); reflexivity.
Qed.

(** X9. Whatever the heart-rate series, the resampler changes nothing but
    the column of heart rates: the rows keep their channel values,
    timestamps, offsets and smoothed distances.  The column it writes has
    no gap after its first resolved row, and every row whose offset is on
    the grid of the lookup table is resolved. *)
Theorem interpolate_heart_rates_keeps_samples
    (analitics : Analitics) (df df' : DataFrame) :
  interpolate_heart_rates analitics df = Ok df' ->
  columns df' = {["HeartRate"]} ∪ columns df /\
  Forall2 same_but_heart_rate (rows df) (rows df') /\
  (forall i j r r', rows df' !! i = Some r -> rows df' !! j = Some r' ->
     (i <= j)%nat -> resolved_row r -> resolved_row r') /\
  (forall r', r' ∈ rows df' ->
     on_grid (max_offset (hr_points analitics)) (interval r') -> resolved_row r').
Proof.
  intros Hrun.
  apply interpolate_heart_rates_Ok in Hrun as (table & Hgrid & _ & Hcols & Hfill).
  split; [|split; [exact (proj1 Hfill)|split]].
  - rewrite Hcols, (assoc_L (∪)), (idemp_L (∪)). reflexivity.
  - apply (forward_filled_resolved _ _ _ Hfill).
  - intros r' Hr' Hon. apply list_elem_of_lookup in Hr' as [j Hj].
    unfold resolved_row. rewrite (proj2 Hfill _ _ Hj).
    apply Hgrid in Hon as [v ->]. eauto.
Qed.

Lemma interpolate_heart_rates_keeps_samples_witness :
  Forall2 same_but_heart_rate (rows (stage2 fixture 0)) (rows (stage3 fixture 0)).
Proof.
  refine (proj1 (proj2 (interpolate_heart_rates_keeps_samples fixture
                          (stage2 fixture 0) (stage3 fixture 0) _))).
  vm_compute. reflexivity.
Defined.

Lemma SFsub_self (x : spec_float) :
  SFsub prec emax x x = S754_nan \/ exists s, SFsub prec emax x x = S754_zero s.
Proof.
  destruct x as [s|s| |s m e]; cbn [SFsub].
  - right. destruct s; cbn; eauto.
  - left. destruct s; reflexivity.
  - left. reflexivity.
  - right. rewrite Z.min_id.
    assert (Hal : fst (shl_align m e e) = m).
    { unfold shl_align. rewrite Z.sub_diag. reflexivity. }
    rewrite Hal, Z.sub_diag. exists false. reflexivity.
Qed.

(** The slope through one point taken twice is not a number, and so is
    every value of its line. *)
Lemma line_of_one_point (y a b : float) :
  Prim2SF ((y - y) / Py.float_of_Z 0 * a + b)%float = S754_nan.
Proof.
  rewrite add_spec, mul_spec, div_spec, sub_spec, float_of_Z_spec.
  unfold SF64add, SF64mul, SF64div, SF64sub.
  destruct (SFsub_self (Prim2SF y)) as [->|[s ->]]; reflexivity.
Qed.

Lemma arange_from_5 (max_t : Z) :
  5 <= max_t -> exists ks, Np.arange 5 (max_t + 1) 5 = 5 :: ks.
Proof.
  intros Hmax. unfold Np.arange.
  assert (Hn : (1 <= Z.to_nat (- ((5 - (max_t + 1)) / 5)))%nat).
  { assert ((5 - (max_t + 1)) / 5 < 0); [|lia].
    apply Z.div_lt_upper_bound; lia. }
  destruct (Z.to_nat _) as [|n]; [lia|]. cbn [seq map].
  eexists. reflexivity.
Qed.

(** X10. The errors of the resampler on a series too short: an empty
    series is refused with a [ValueError]; so is a series of one point at
    an offset of 5 or more, whose slope is not a number, when the first
    value of the lookup table is converted to an integer.  Without the
    column "interval" the resampler does not return. *)
Theorem interpolate_heart_rates_errors (analitics : Analitics) (df : DataFrame) :
  (hr analitics = [] ->
   interpolate_heart_rates analitics df = Raise ValueError) /\
  (forall p, hr analitics = [p] -> 5 <= hr_t p ->
   interpolate_heart_rates analitics df = Raise ValueError) /\
  ("interval" ∉ columns df ->
   is_ok (interpolate_heart_rates analitics df) = false).
Proof.
  split; [|split].
  - intros Hnil. unfold interpolate_heart_rates. rewrite Hnil. reflexivity.
  - intros p Hp Ht. unfold interpolate_heart_rates. rewrite Hp.
    cbn [map Np.interp1d Np.sort_points zip zip_with foldr Np.insert_point
         bool_decide decide_rel bind py_max foldl].
    destruct (arange_from_5 (hr_t p) Ht) as [ks ->].
    cbn [map hr_dict mapM].
    assert (Hnan : Py.int (Np.call_linear [hr_t p] [hr_v p] 5) = Raise ValueError).
    { unfold Np.call_linear, Py.int.
      replace (Np.clip _ 1 (Z.of_nat (length [hr_t p]) - 1)) with 0
        by (unfold Np.clip; simpl length; lia).
      cbn [Np.take Z.sub Z.ltb Z.compare length Z.add Z.of_nat Z.opp Z.to_nat
           Pos.of_succ_nat Z.pos_sub nth Pos.succ].
      rewrite Z.sub_diag, line_of_one_point. reflexivity. }
    assert (Hf : Np.interp1d [hr_t p] [hr_v p]
                 = Ok (Np.call_linear [hr_t p] [hr_v p])) by reflexivity.
    rewrite Hf. cbn [bind]. unfold hr_dict. cbn [mapM]. rewrite Hnan. reflexivity.
  - intros Hcol.
    destruct (interpolate_heart_rates analitics df) as [df'|e] eqn:Hrun;
      [|reflexivity].
    apply interpolate_heart_rates_Ok in Hrun as (_ & _ & Hin & _). contradiction.
Qed.

Lemma insert_point_perm (p : Z * float) (l : list (Z * float)) :
  Np.insert_point p l ≡ₚ p :: l.
Proof.
  induction l as [|q l IH]; cbn [Np.insert_point]; [reflexivity|].
  destruct (q.1 <? p.1); [|reflexivity].
  rewrite IH. apply Permutation_swap.
Qed.

Lemma sort_points_perm (l : list (Z * float)) : Np.sort_points l ≡ₚ l.
Proof.
  induction l as [|p l IH]; [reflexivity|].
  unfold Np.sort_points in *. cbn [foldr].
  rewrite insert_point_perm, IH. reflexivity.
Qed.

Lemma insert_point_HdRel (q p : Z * float) (l : list (Z * float)) :
  q.1 <= p.1 -> HdRel (fun p q => p.1 <= q.1) q l ->
  HdRel (fun p q => p.1 <= q.1) q (Np.insert_point p l).
Proof.
  intros Hqp Hql. destruct l as [|r l]; cbn [Np.insert_point].
  - constructor. exact Hqp.
  - destruct (r.1 <? p.1); constructor; [|exact Hqp].
    inversion Hql; assumption.
Qed.

Lemma insert_point_keeps_sorted (p : Z * float) (l : list (Z * float)) :
  sorted_by_offset l -> sorted_by_offset (Np.insert_point p l).
Proof.
  unfold sorted_by_offset.
  induction 1 as [|q l Hl IH Hq]; cbn [Np.insert_point].
  - repeat constructor.
  - destruct (Z.ltb_spec q.1 p.1) as [Hlt|Hge].
    + constructor; [exact IH|]. apply insert_point_HdRel; [lia | exact Hq].
    + constructor; [constructor; assumption|]. constructor. exact Hge.
Qed.

Lemma sort_points_is_sorted (l : list (Z * float)) :
  sorted_by_offset (Np.sort_points l).
Proof.
  unfold Np.sort_points. induction l as [|p l IH]; cbn [foldr].
  - constructor.
  - apply insert_point_keeps_sorted, IH.
Qed.

Lemma foldl_max_spec (l : list Z) : forall a,
  let m := foldl Z.max a l in
  (m = a \/ m ∈ l) /\ a <= m /\ Forall (fun x => x <= m) l.
Proof.
  induction l as [|x l IH]; intros a; cbn [foldl].
  - split; [left; reflexivity|]. split; [lia | constructor].
  - destruct (IH (Z.max a x)) as (Hin & Hle & Hall).
    split; [|split; [lia|constructor; [lia | exact Hall]]].
    destruct Hin as [Heq|Hin]; [|right; right; exact Hin].
    rewrite Heq. destruct (Z.max_spec a x) as [[_ ->]|[_ ->]];
      [right; left | left; reflexivity].
Qed.

Lemma py_max_perm (l l' : list Z) : l ≡ₚ l' -> py_max l = py_max l'.
Proof.
  intros Hperm. destruct l as [|a l], l' as [|a' l'].
  - reflexivity.
  - apply Permutation_nil_l in Hperm. discriminate.
  - apply Permutation_nil_r in Hperm. discriminate.
  - cbn [py_max]. f_equal.
    destruct (foldl_max_spec l a) as (Hin & Hle & Hall).
    destruct (foldl_max_spec l' a') as (Hin' & Hle' & Hall').
    cbv zeta in *. set (m := foldl Z.max a l) in *.
    set (m' := foldl Z.max a' l') in *.
    assert (Hm : m ∈ a :: l)
      by (destruct Hin as [->|Hin]; [left | right; exact Hin]).
    assert (Hm' : m' ∈ a' :: l')
      by (destruct Hin' as [->|Hin']; [left | right; exact Hin']).
    assert (Hb : Forall (fun x => x <= m) (a :: l)) by (constructor; assumption).
    assert (Hb' : Forall (fun x => x <= m') (a' :: l')) by (constructor; assumption).
    rewrite Forall_forall in Hb, Hb'.
    rewrite Hperm in Hm. rewrite <- Hperm in Hm'.
    specialize (Hb _ Hm'). specialize (Hb' _ Hm). lia.
Qed.

Lemma hr_points_sorted_series (analitics : Analitics) :
  hr_points (sorted_series analitics) = Np.sort_points (hr_points analitics).
Proof.
  unfold hr_points at 1. cbn [sorted_series hr]. rewrite map_map.
  rewrite <- (map_id (Np.sort_points _)) at 2.
  apply map_ext. intros [x y]. reflexivity.
Qed.

Lemma zip_hr (analitics : Analitics) :
  zip (map hr_t (hr analitics)) (map hr_v (hr analitics)) = hr_points analitics.
Proof. rewrite <- hr_points_fst, <- hr_points_snd. apply zip_fst_snd. Qed.

(** X11. The resampler sorts the heart-rate series by offset before it
    interpolates: the series in any order gives what the sorted series
    gives, the table or the exception.  The sorted series has the points
    of the input, in the order of their offsets. *)
Theorem interpolate_heart_rates_sorts (analitics : Analitics) (df : DataFrame) :
  interpolate_heart_rates analitics df
  = interpolate_heart_rates (sorted_series analitics) df /\
  sorted_by_offset (hr_points (sorted_series analitics)) /\
  hr_points (sorted_series analitics) ≡ₚ hr_points analitics.
Proof.
  rewrite hr_points_sorted_series.
  split; [|split; [apply sort_points_is_sorted | apply sort_points_perm]].
  unfold interpolate_heart_rates.
  assert (Hinterp :
    Np.interp1d (map hr_t (hr (sorted_series analitics)))
                (map hr_v (hr (sorted_series analitics)))
    = Np.interp1d (map hr_t (hr analitics)) (map hr_v (hr analitics))).
  { unfold Np.interp1d. rewrite !zip_hr, hr_points_sorted_series.
    rewrite (sort_points_sorted _ (sort_points_is_sorted _)). reflexivity. }
  assert (Hmax : py_max (map hr_t (hr (sorted_series analitics)))
                 = py_max (map hr_t (hr analitics))).
  { rewrite <- !hr_points_fst, hr_points_sorted_series.
    apply py_max_perm.
    change (map fst ?l) with (fst <$> l).
    apply fmap_Permutation, sort_points_perm. }
  rewrite Hinterp, Hmax. reflexivity.
Qed.

(** ** The aggregator: the maxima *)

Lemma SFcompare_rank (x y : spec_float) :
  x <> S754_nan -> y <> S754_nan ->
  exists c, SFcompare x y = Some c /\
    match c with
    | Lt => lex_lt (rank x) (rank y)
    | Eq => rank x = rank y
    | Gt => lex_lt (rank y) (rank x)
    end.
Proof.
  intros Hx Hy. unfold lex_lt.
  destruct x as [sx|sx| |sx mx ex]; [| |congruence|];
    (destruct y as [sy|sy| |sy my ey]; [| |congruence|]);
    try (destruct sx); try (destruct sy); cbn [SFcompare rank fst snd];
    try (eexists; split; [reflexivity|]; cbn; first [reflexivity | lia]).
  - destruct (Z.compare_spec ex ey) as [He|He|He].
    + change (Pos.compare_cont Eq mx my) with (Pos.compare mx my).
      destruct (Pos.compare_spec mx my) as [Hm|Hm|Hm]; eexists;
        (split; [reflexivity|]); cbn; first [congruence | lia].
    + eexists. split; [reflexivity|]. cbn. lia.
    + eexists. split; [reflexivity|]. cbn. lia.
  - destruct (Z.compare_spec ex ey) as [He|He|He].
    + change (Pos.compare_cont Eq mx my) with (Pos.compare mx my).
      destruct (Pos.compare_spec mx my) as [Hm|Hm|Hm]; eexists;
        (split; [reflexivity|]); cbn; first [congruence | lia].
    + eexists. split; [reflexivity|]. cbn. lia.
    + eexists. split; [reflexivity|]. cbn. lia.
Qed.

Lemma SFleb_rank (x y : spec_float) :
  x <> S754_nan -> y <> S754_nan ->
  (SFleb x y = true <-> lex_le (rank x) (rank y)).
Proof.
  intros Hx Hy. destruct (SFcompare_rank x y Hx Hy) as (c & Hc & Hr).
  unfold SFleb. rewrite Hc. unfold lex_le, lex_lt in *.
  destruct (rank x) as [[a1 a2] a3], (rank y) as [[b1 b2] b3].
  cbn [fst snd] in *.
  destruct c; (split; intros Hle);
    first [reflexivity | discriminate | injection Hr as -> -> ->; lia | lia
          | exfalso; lia].
Qed.

Lemma SFltb_rank (x y : spec_float) :
  x <> S754_nan -> y <> S754_nan ->
  (SFltb x y = true <-> lex_lt (rank x) (rank y)).
Proof.
  intros Hx Hy. destruct (SFcompare_rank x y Hx Hy) as (c & Hc & Hr).
  unfold SFltb. rewrite Hc. unfold lex_lt in *.
  destruct (rank x) as [[a1 a2] a3], (rank y) as [[b1 b2] b3].
  cbn [fst snd] in *.
  destruct c; (split; intros Hlt);
    first [reflexivity | discriminate | injection Hr as -> -> ->; lia | lia
          | exfalso; lia].
Qed.

Lemma SFleb_not_nan (x y : spec_float) :
  SFleb x y = true -> x <> S754_nan /\ y <> S754_nan.
Proof.
  destruct x as [sx|sx| |sx mx ex], y as [sy|sy| |sy my ey];
    cbn; intros H; try discriminate; split; discriminate.
Qed.

Lemma is_nan_spec (x : float) : is_nan x = true <-> Prim2SF x = S754_nan.
Proof.
  unfold is_nan. rewrite FloatAxioms.eqb_spec. unfold SFeqb. split.
  - intros Hn. destruct (Prim2SF x) as [s|s| |s m e] eqn:Hx; [| |reflexivity|];
      exfalso;
      (destruct (SFcompare_rank (Prim2SF x) (Prim2SF x)) as (c & Hc & Hr);
       [rewrite Hx; discriminate | rewrite Hx; discriminate|]);
      rewrite Hx in Hc, Hr; rewrite Hc in Hn;
      destruct c; try discriminate; unfold lex_lt in Hr; lia.
  - intros ->. reflexivity.
Qed.

Lemma not_nan_spec (x : float) : is_nan x = false <-> Prim2SF x <> S754_nan.
Proof.
  rewrite <- is_nan_spec. destruct (is_nan x); split; congruence.
Qed.

Lemma leb_refl (x : float) : is_nan x = false -> (x <=? x)%float = true.
Proof.
  intros Hx. apply not_nan_spec in Hx. rewrite leb_spec.
  apply SFleb_rank; [assumption..|]. unfold lex_le. lia.
Qed.

Lemma leb_trans (x y z : float) :
  (x <=? y)%float = true -> (y <=? z)%float = true -> (x <=? z)%float = true.
Proof.
  rewrite !leb_spec. intros Hxy Hyz.
  destruct (SFleb_not_nan _ _ Hxy) as [Hx Hy].
  destruct (SFleb_not_nan _ _ Hyz) as [_ Hz].
  apply SFleb_rank in Hxy; [|assumption..].
  apply SFleb_rank in Hyz; [|assumption..].
  apply SFleb_rank; [assumption..|].
  unfold lex_le in *. lia.
Qed.

Lemma ltb_false_leb (x y : float) :
  is_nan x = false -> is_nan y = false ->
  (x <? y)%float = false -> (y <=? x)%float = true.
Proof.
  intros Hx Hy Hlt. apply not_nan_spec in Hx, Hy.
  rewrite ltb_spec in Hlt. rewrite leb_spec.
  apply SFleb_rank; [assumption..|].
  assert (Hn : ~ lex_lt (rank (Prim2SF x)) (rank (Prim2SF y))).
  { intros H. apply SFltb_rank in H; [congruence|assumption..]. }
  unfold lex_le, lex_lt in *. lia.
Qed.

Lemma series_max_fold (s : list float) : series_max s = foldl max_step nan s.
Proof. reflexivity. Qed.

(** The maximum from an accumulated value: it is a NaN only when nothing
    else was seen, and otherwise one of the values, not below any. *)
Lemma foldl_max_step (s : list float) : forall acc,
  let m := foldl max_step acc s in
  (is_nan m = true ->
   is_nan acc = true /\ Forall (fun x => is_nan x = true) s) /\
  (is_nan m = false ->
   (m = acc \/ m ∈ s) /\
   (is_nan acc = false -> (acc <=? m)%float = true) /\
   Forall (fun x => is_nan x = false -> (x <=? m)%float = true) s).
Proof.
  induction s as [|x s IH]; intros acc; cbn [foldl].
  - split.
    + intros Hm. split; [exact Hm | constructor].
    + intros Hm. split; [left; reflexivity|].
      split; [intros _; apply leb_refl, Hm | constructor].
  - specialize (IH (max_step acc x)). cbv zeta in IH.
    set (m := foldl max_step (max_step acc x) s) in *.
    destruct IH as [IHnan IHmax]. unfold max_step in IHnan, IHmax.
    split.
    + intros Hm. destruct (IHnan Hm) as [Hacc Hs].
      destruct (is_nan x) eqn:Hx.
      * split; [exact Hacc | constructor; assumption].
      * destruct (is_nan acc) eqn:Ha; [congruence|].
        destruct (acc <? x)%float; congruence.
    + intros Hm. destruct (IHmax Hm) as (Hin & Hle & Hs).
      destruct (is_nan x) eqn:Hx.
      * split; [destruct Hin; [left | right; right]; assumption|].
        split; [exact Hle|]. constructor; [congruence | exact Hs].
      * destruct (is_nan acc) eqn:Ha.
        { split; [destruct Hin as [->|Hin]; right; [left | right; assumption]|].
          split; [discriminate|]. constructor; [intros _; apply Hle, Hx | exact Hs]. }
        destruct (acc <? x)%float eqn:Hlt.
        { split; [destruct Hin as [->|Hin]; right; [left | right; assumption]|].
          split.
          - intros _. apply leb_trans with x; [apply ltb_leb, Hlt | apply Hle, Hx].
          - constructor; [intros _; apply Hle, Hx | exact Hs]. }
        split; [destruct Hin; [left | right; right]; assumption|].
        split; [intros _; apply Hle, Ha|].
        constructor; [|exact Hs]. intros _.
        apply leb_trans with acc; [|apply Hle, Ha].
        apply ltb_false_leb; assumption.
Qed.

(** X12. The maximum speed of the metrics is the greatest Speed of the
    table, the missing values apart: it is not below the Speed of any
    row, and it is the Speed of one of the rows; it is a NaN only when
    the Speed of every row is missing. *)
Theorem max_speed_is_the_greatest (df : DataFrame) (m : Metrics) :
  calculate_metrics df = Ok m ->
  (forall r, r ∈ rows df -> is_nan (cell r "Speed") = false ->
     (cell r "Speed" <=? max_speed m)%float = true) /\
  (is_nan (max_speed m) = false ->
     exists r, r ∈ rows df /\ max_speed m = cell r "Speed") /\
  (is_nan (max_speed m) = true ->
     forall r, r ∈ rows df -> is_nan (cell r "Speed") = true).
Proof.
  unfold calculate_metrics. intros Hm.
  apply bind_Ok in Hm as (intervals & _ & Hm).
  apply bind_Ok in Hm as (t_last & _ & Hm).
  apply bind_Ok in Hm as (t_first & _ & Hm).
  apply bind_Ok in Hm as (smooth & _ & Hm).
  apply bind_Ok in Hm as (distance & _ & Hm).
  apply bind_Ok in Hm as (speeds & Hspeeds & Hm).
  apply bind_Ok in Hm as (heart_rate & _ & Hm).
  injection Hm as <-. cbn [max_speed].
  apply column_Ok in Hspeeds as [_ ->].
  fold (cell) in *.
  pose proof (foldl_max_step (map (fun r => default nan (values r !! "Speed")) (rows df)) nan)
    as [Hnan Hmax].
  cbv zeta in Hnan, Hmax. rewrite <- series_max_fold in Hnan, Hmax.
  set (mx := series_max _) in *.
  split; [|split].
  - intros r Hr Hx.
    destruct (is_nan mx) eqn:Hmx.
    + destruct (Hnan eq_refl) as [_ Hall].
      rewrite Forall_forall in Hall.
      rewrite (Hall (cell r "Speed")) in Hx; [discriminate|].
      apply (list_elem_of_fmap_2 (fun r => cell r "Speed")), Hr.
    + destruct (Hmax eq_refl) as (_ & _ & Hall).
      rewrite Forall_forall in Hall.
      apply (Hall (cell r "Speed")); [|exact Hx].
      apply (list_elem_of_fmap_2 (fun r => cell r "Speed")), Hr.
  - intros Hmx. destruct (Hmax Hmx) as ([Heq|Hin] & _).
    + rewrite Heq in Hmx. discriminate.
    + apply (list_elem_of_fmap_1 (fun r => cell r "Speed")) in Hin as (r & -> & Hr).
      eauto.
  - intros Hmx r Hr. destruct (Hnan Hmx) as [_ Hall].
    rewrite Forall_forall in Hall. apply Hall.
    apply (list_elem_of_fmap_2 (fun r => cell r "Speed")), Hr.
Qed.

Lemma max_speed_is_the_greatest_witness :
  calculate_metrics one_sample_table = Ok one_sample_metrics /\
  forall r, r ∈ rows one_sample_table -> is_nan (cell r "Speed") = false ->
    (cell r "Speed" <=? max_speed one_sample_metrics)%float = true.
Proof.
  assert (Hm : calculate_metrics one_sample_table = Ok one_sample_metrics)
    by (vm_compute; reflexivity).
  split; [exact Hm|].
  apply (max_speed_is_the_greatest one_sample_table one_sample_metrics Hm).
Defined.

Lemma float_of_Z_not_nan (z : Z) : is_nan (Py.float_of_Z z) = false.
Proof.
  apply not_nan_spec. rewrite float_of_Z_spec.
  destruct z as [|p|p]; cbn [binary_normalize]; [discriminate| |].
  - pose proof (binary_round_signed false p 0) as Hs.
    intros Hn. rewrite Hn in Hs. exact Hs.
  - pose proof (binary_round_signed true p 0) as Hs.
    intros Hn. rewrite Hn in Hs. exact Hs.
Qed.

Lemma elem_of_resolved (s : list (option Z)) (n : Z) :
  n ∈ resolved s <-> Some n ∈ s.
Proof.
  unfold resolved. rewrite list_elem_of_omap. split.
  - intros (x & Hx & Hn). cbn in Hn. subst x. exact Hx.
  - intros Hn. exists (Some n). split; [exact Hn | reflexivity].
Qed.

(** X13. The maximum heart rate of the metrics is the greatest resolved
    heart rate of the table: it is not below the heart rate of any row
    and it is the heart rate of one of the rows; it is a NaN exactly when
    no row has a heart rate. *)
Theorem max_heart_rate_is_the_greatest (df : DataFrame) (m : Metrics) :
  calculate_metrics df = Ok m ->
  (forall r n, r ∈ rows df -> HeartRate r = Some n ->
     (Py.float_of_Z n <=? max_heart_rate_bpm m)%float = true) /\
  (is_nan (max_heart_rate_bpm m) = false ->
     exists r n, r ∈ rows df /\ HeartRate r = Some n /\
       max_heart_rate_bpm m = Py.float_of_Z n) /\
  (is_nan (max_heart_rate_bpm m) = true <->
     forall r, r ∈ rows df -> HeartRate r = None).
Proof.
  unfold calculate_metrics. intros Hm.
  apply bind_Ok in Hm as (intervals & _ & Hm).
  apply bind_Ok in Hm as (t_last & _ & Hm).
  apply bind_Ok in Hm as (t_first & _ & Hm).
  apply bind_Ok in Hm as (smooth & _ & Hm).
  apply bind_Ok in Hm as (distance & _ & Hm).
  apply bind_Ok in Hm as (speeds & _ & Hm).
  apply bind_Ok in Hm as (heart_rate & Hhr & Hm).
  injection Hm as <-. cbn [max_heart_rate_bpm].
  apply column_Ok in Hhr as [_ ->]. unfold series_max_hr.
  set (hrs := resolved (map HeartRate (rows df))).
  assert (Hhrs : forall n, n ∈ hrs <-> exists r, r ∈ rows df /\ HeartRate r = Some n).
  { intros n. unfold hrs. rewrite elem_of_resolved.
    change (map HeartRate (rows df)) with (HeartRate <$> rows df).
    rewrite list_elem_of_fmap. split; intros (r & H1 & H2); eauto. }
  pose proof (foldl_max_step (map Py.float_of_Z hrs) nan) as [Hnan Hmax].
  cbv zeta in Hnan, Hmax. rewrite <- series_max_fold in Hnan, Hmax.
  set (mx := series_max _) in *.
  assert (Hin : forall n, n ∈ hrs -> Py.float_of_Z n ∈ map Py.float_of_Z hrs).
  { intros n Hn. apply (list_elem_of_fmap_2 Py.float_of_Z), Hn. }
  split; [|split; [|split]].
  - intros r n Hr Hn.
    assert (Hnh : n ∈ hrs) by (apply Hhrs; eauto).
    destruct (is_nan mx) eqn:Hmx.
    + destruct (Hnan eq_refl) as [_ Hall]. rewrite Forall_forall in Hall.
      specialize (Hall _ (Hin n Hnh)). rewrite float_of_Z_not_nan in Hall.
      discriminate.
    + destruct (Hmax eq_refl) as (_ & _ & Hall). rewrite Forall_forall in Hall.
      apply (Hall _ (Hin n Hnh)), float_of_Z_not_nan.
  - intros Hmx. destruct (Hmax Hmx) as ([Heq|Hel] & _).
    + rewrite Heq in Hmx. discriminate.
    + apply (list_elem_of_fmap_1 Py.float_of_Z) in Hel as (n & -> & Hn).
      apply Hhrs in Hn as (r & Hr & Hrn). eauto.
  - intros Hmx r Hr. destruct (Hnan Hmx) as [_ Hall].
    rewrite Forall_forall in Hall.
    destruct (HeartRate r) as [n|] eqn:Hn; [|reflexivity].
    assert (Hnh : n ∈ hrs) by (apply Hhrs; eauto).
    specialize (Hall _ (Hin n Hnh)). rewrite float_of_Z_not_nan in Hall.
    discriminate.
  - intros Hnone. destruct (is_nan mx) eqn:Hmx; [reflexivity|].
    destruct (Hmax eq_refl) as ([Heq|Hel] & _).
    + rewrite Heq in Hmx. discriminate.
    + apply (list_elem_of_fmap_1 Py.float_of_Z) in Hel as (n & _ & Hn).
      apply Hhrs in Hn as (r & Hr & Hrn). rewrite (Hnone r Hr) in Hrn.
      discriminate.
Qed.

Lemma max_heart_rate_is_the_greatest_witness :
  calculate_metrics one_sample_table = Ok one_sample_metrics /\
  forall r n, r ∈ rows one_sample_table -> HeartRate r = Some n ->
    (Py.float_of_Z n <=? max_heart_rate_bpm one_sample_metrics)%float = true.
Proof.
  assert (Hm : calculate_metrics one_sample_table = Ok one_sample_metrics)
    by (vm_compute; reflexivity).
  split; [exact Hm|].
  apply (max_heart_rate_is_the_greatest one_sample_table one_sample_metrics Hm).
Defined.

(** ** The writer *)

Lemma mapM_is_ok {A B : Type} (f : A -> result B) (l : list A) :
  is_ok (mapM f l) = true <-> Forall (fun a => is_ok (f a) = true) l.
Proof.
  induction l as [|a l IH]; simpl.
  - split; [constructor | reflexivity].
  - rewrite Forall_cons, <- IH.
    destruct (f a); simpl; [|intuition discriminate].
    destruct (mapM f l); simpl; intuition.
Qed.

(** The trackpoint of a row, when the writer returns one. *)
Lemma trackpoint_Ok (df : DataFrame) (r : Row) (tp : Element) :
  trackpoint df r = Ok tp ->
  Forall (fun c => c ∈ columns df) writer_columns /\
  exists bpm, HeartRate r = Some bpm /\
    tp = node "Trackpoint"
           [ leaf "Time" (Iso (datetime r));
             leaf "DistanceMeters" (Str (Py.round1 (SmoothDistance r)));
             node "HeartRateBpm" [ leaf "Value" (Literal (str_int bpm)) ];
             leaf "Cadence" (Str (cell r "Rpm"));
             node "Extensions"
               [ Elem "TPX" AX_NS [] None
                   [ leaf "Speed" (Str (Py.round1 (cell r "Speed" / 3.6)%float));
                     leaf "Watts" (Str (cell r "Power")) ] ] ].
Proof.
  unfold trackpoint. intros Htp.
  apply bind_Ok in Htp as (dt & Hdt & Htp).
  apply bind_Ok in Htp as (smooth & Hsmooth & Htp).
  apply bind_Ok in Htp as (heart_rate & Hhr & Htp).
  apply bind_Ok in Htp as (bpm & Hbpm & Htp).
  apply bind_Ok in Htp as (rpm & Hrpm & Htp).
  apply bind_Ok in Htp as (speed & Hspeed & Htp).
  apply bind_Ok in Htp as (power & Hpower & Htp).
  injection Htp as <-.
  apply getfield_Ok in Hdt as [? ->]. apply getfield_Ok in Hsmooth as [? ->].
  apply getfield_Ok in Hhr as [? ->]. apply getitem_Ok in Hrpm as [? ->].
  apply getitem_Ok in Hspeed as [? ->]. apply getitem_Ok in Hpower as [? ->].
  split; [repeat constructor; assumption|].
  destruct (HeartRate r) as [n|]; [|discriminate].
  injection Hbpm as <-. exists n. split; reflexivity.
Qed.

Lemma getfield_in {A : Type} (df : DataFrame) (c : string) (proj : Row -> A)
    (r : Row) :
  c ∈ columns df -> getfield df c proj r = Ok (proj r).
Proof. intros Hc. unfold getfield. rewrite bool_decide_eq_true_2; auto. Qed.

Lemma trackpoint_is_ok (df : DataFrame) (r : Row) :
  is_ok (trackpoint df r) = true <->
  Forall (fun c => c ∈ columns df) writer_columns /\ resolved_row r.
Proof.
  split.
  - intros Hok. apply is_ok_true in Hok as [tp Htp].
    apply trackpoint_Ok in Htp as (Hcols & bpm & Hbpm & _).
    split; [exact Hcols|]. unfold resolved_row. rewrite Hbpm. eauto.
  - intros [Hcols [bpm Hbpm]]. unfold writer_columns in Hcols.
    repeat (apply Forall_cons in Hcols as [? Hcols]).
    unfold trackpoint. rewrite !getfield_in, !getitem_in by assumption.
    rewrite Hbpm. reflexivity.
Qed.

(** A row without heart rate stops the writer with a [ValueError] once
    the three columns read before the heart rate are there. *)
Lemma trackpoint_ValueError (df : DataFrame) (r : Row) :
  "datetime" ∈ columns df -> "SmoothDistance" ∈ columns df ->
  "HeartRate" ∈ columns df -> HeartRate r = None ->
  trackpoint df r = Raise ValueError.
Proof.
  intros Hd Hs Hh Hnone. unfold trackpoint.
  rewrite !getfield_in by assumption. rewrite Hnone. reflexivity.
Qed.

Lemma create_tcx_track (df : DataFrame) (metrics : Metrics) (start_dt : Z)
    (doc : Element) :
  create_tcx df metrics start_dt = Ok doc ->
  exists tps,
    Forall2 (fun r tp => trackpoint df r = Ok tp) (rows df) tps /\
    trackpoints doc = Some tps.
Proof.
  unfold create_tcx. intros Hdoc.
  apply bind_Ok in Hdoc as (tps & Htps & Hdoc). injection Hdoc as <-.
  apply mapM_Ok in Htps. exists tps. split; [exact Htps|].
  unfold trackpoints, track, find, findall. simpl. f_equal.
  apply filter_all.
  apply Forall2_Forall_r with (P := fun r tp => trackpoint df r = Ok tp) (l := rows df).
  - exact Htps.
  - apply Forall_forall. intros tp _ r Htp.
    apply trackpoint_Ok in Htp as (_ & bpm & _ & ->). reflexivity.
Qed.

(** X14. The writer returns a document exactly when the table has no row,
    or has the six columns read for a trackpoint and a resolved heart
    rate in every row.  (A table without row is written whatever its
    columns: the lap then holds an empty track.) *)
Theorem create_tcx_returns_iff (df : DataFrame) (metrics : Metrics) (start_dt : Z) :
  is_ok (create_tcx df metrics start_dt) = true <->
  rows df = [] \/
  (Forall (fun c => c ∈ columns df) writer_columns /\
   Forall resolved_row (rows df)).
Proof.
  assert (Hok : is_ok (create_tcx df metrics start_dt)
                = is_ok (mapM (trackpoint df) (rows df))).
  { unfold create_tcx. destruct (mapM _ _); reflexivity. }
  rewrite Hok, mapM_is_ok. split.
  - intros Hall. destruct (rows df) as [|r rs]; [left; reflexivity|]. right.
    split.
    + apply Forall_cons in Hall as [Hr _]. apply trackpoint_is_ok in Hr. tauto.
    + eapply Forall_impl; [exact Hall|]. intros x Hx.
      apply trackpoint_is_ok in Hx. tauto.
  - intros [Hnil|[Hcols Hres]]; [rewrite Hnil; constructor|].
    eapply Forall_impl; [exact Hres|]. intros x Hx.
    apply trackpoint_is_ok. auto.
Qed.


(** ** An unresolved heart rate reaches the writer *)

Lemma in_range_0 (analitics : Analitics) :
  Forall (fun s => 0 <= t s <= 1000000) (samples analitics) ->
  samples_in_range analitics 0.
Proof.
  intros Hs. split; [unfold in_range, datetime_max; lia|].
  eapply Forall_impl; [exact Hs|]. intros s Ht. cbn beta in *.
  unfold in_range, datetime_max. lia.
Qed.

Lemma timestamps_in_range_0 (analitics : Analitics) :
  Forall (fun s => 0 <= t s <= 1000000) (samples analitics) ->
  timestamps_in_range analitics 0.
Proof.
  intros Hs. split; [apply in_range_0, Hs|].
  eapply Forall_impl; [exact Hs|]. intros s Ht. cbn beta in *. lia.
Qed.

(** The maximum of the resolved heart rates of a column. *)
Lemma series_max_hr_spec (s : list (option Z)) :
  (forall n, Some n ∈ s -> (Py.float_of_Z n <=? series_max_hr s)%float = true) /\
  (is_nan (series_max_hr s) = false ->
     exists n, Some n ∈ s /\ series_max_hr s = Py.float_of_Z n) /\
  (is_nan (series_max_hr s) = true <-> forall n, Some n ∉ s).
Proof.
  unfold series_max_hr.
  pose proof (foldl_max_step (map Py.float_of_Z (resolved s)) nan) as [Hnan Hmax].
  cbv zeta in Hnan, Hmax. rewrite <- series_max_fold in Hnan, Hmax.
  set (mx := series_max _) in *.
  assert (Hin : forall n, Some n ∈ s ->
                  Py.float_of_Z n ∈ map Py.float_of_Z (resolved s)).
  { intros n Hn. apply (list_elem_of_fmap_2 Py.float_of_Z), elem_of_resolved, Hn. }
  split; [|split; [|split]].
  - intros n Hn. destruct (is_nan mx) eqn:Hmx.
    + destruct (Hnan eq_refl) as [_ Hall]. rewrite Forall_forall in Hall.
      specialize (Hall _ (Hin n Hn)). rewrite float_of_Z_not_nan in Hall.
      discriminate.
    + destruct (Hmax eq_refl) as (_ & _ & Hall). rewrite Forall_forall in Hall.
      apply (Hall _ (Hin n Hn)), float_of_Z_not_nan.
  - intros Hmx. destruct (Hmax Hmx) as ([Heq|Hel] & _).
    + rewrite Heq in Hmx. discriminate.
    + apply (list_elem_of_fmap_1 Py.float_of_Z) in Hel as (n & -> & Hn).
      apply elem_of_resolved in Hn. eauto.
  - intros Hmx n Hn. destruct (Hnan Hmx) as [_ Hall].
    rewrite Forall_forall in Hall.
    specialize (Hall _ (Hin n Hn)). rewrite float_of_Z_not_nan in Hall.
    discriminate.
  - intros Hnone. destruct (is_nan mx) eqn:Hmx; [reflexivity|].
    destruct (Hmax eq_refl) as ([Heq|Hel] & _).
    + rewrite Heq in Hmx. discriminate.
    + apply (list_elem_of_fmap_1 Py.float_of_Z) in Hel as (n & _ & Hn).
      apply elem_of_resolved in Hn. destruct (Hnone n Hn).
Qed.

(** In a filled column with an unresolved row, the first row is
    unresolved. *)
Lemma forward_filled_unresolved (table : gmap Z Z) (rs rs' : list Row) :
  forward_filled table rs rs' ->
  (exists r, r ∈ rs' /\ HeartRate r = None) ->
  exists r0 rest, rs' = r0 :: rest /\ HeartRate r0 = None.
Proof.
  intros Hfill (r & Hr & Hnone).
  destruct rs' as [|r0 rest]; [inversion Hr|].
  exists r0, rest. split; [reflexivity|].
  destruct (HeartRate r0) as [n|] eqn:H0; [|reflexivity].
  apply list_elem_of_lookup in Hr as [j Hj].
  assert (Hres : resolved_row r).
  { apply (forward_filled_resolved _ _ _ Hfill 0%nat j r0 r); [reflexivity|exact Hj|lia|].
    unfold resolved_row. rewrite H0. eauto. }
  unfold resolved_row in Hres. rewrite Hnone in Hres. destruct Hres; discriminate.
Qed.

(** C4, as the code has it.  On a table that the resampler returned with
    an unresolved heart rate, the aggregator does not fail: with the
    columns of the first two stages it returns metrics, whose maximum
    heart rate is the greatest of the resolved heart rates, the
    unresolved rows being skipped (a NaN when no row is resolved).  The
    conversion fails afterwards, in the writer: the unresolved rows
    being the first ones, the first trackpoint raises a [ValueError] at
    the [int] of its heart rate, whatever the metrics, and the conversion
    raises this [ValueError], on either dtype of the Speed column and
    with its timestamps in range; no document is written. *)
Theorem unresolved_heart_rate_stops_the_writer
    (analitics : Analitics) (df2 df : DataFrame) :
  interpolate_heart_rates analitics df2 = Ok df ->
  (exists r, r ∈ rows df /\ HeartRate r = None) ->
  "datetime" ∈ columns df2 -> "SmoothDistance" ∈ columns df2 ->
  "Speed" ∈ columns df2 ->
  (exists m, calculate_metrics df = Ok m /\
     (forall r n, r ∈ rows df -> HeartRate r = Some n ->
        (Py.float_of_Z n <=? max_heart_rate_bpm m)%float = true) /\
     (is_nan (max_heart_rate_bpm m) = false ->
        exists r n, r ∈ rows df /\ HeartRate r = Some n /\
          max_heart_rate_bpm m = Py.float_of_Z n) /\
     (is_nan (max_heart_rate_bpm m) = true <->
        forall r, r ∈ rows df -> HeartRate r = None)) /\
  (forall metrics start_dt, create_tcx df metrics start_dt = Raise ValueError) /\
  (forall d start_dt df1,
     timestamps_in_range analitics start_dt ->
     process_samples analitics start_dt = Ok df1 ->
     calculate_distances_of d df1 = Ok df2 ->
     main_of d analitics start_dt = Raise ValueError).
Proof.
  intros Hrun Hnone Hdt Hsd Hspeed.
  pose proof Hrun as Hrun'.
  apply interpolate_heart_rates_Ok in Hrun' as (table & _ & Hint & Hcols & Hfill).
  assert (Hcol : forall c, c ∈ columns df2 -> c ∈ columns df).
  { intros c Hc. rewrite Hcols. apply elem_of_union_r, elem_of_union_r, Hc. }
  assert (Hhr : "HeartRate" ∈ columns df).
  { rewrite Hcols. apply elem_of_union_l, elem_of_singleton. reflexivity. }
  destruct (forward_filled_unresolved _ _ _ Hfill Hnone) as (r0 & rest & Hrows & H0).
  assert (Hne : rows df <> []) by (rewrite Hrows; discriminate).
  assert (Hmetrics : has_metrics_columns df) by (repeat split; auto).
  destruct (calculate_metrics_returns df Hmetrics Hne) as (tl & tf & dist & Hm & _).
  assert (Hwriter : forall metrics start_dt,
            create_tcx df metrics start_dt = Raise ValueError).
  { intros metrics start_dt. unfold create_tcx. rewrite Hrows. cbn [mapM].
    rewrite trackpoint_ValueError by auto. reflexivity. }
  split; [|split; [exact Hwriter|]].
  - eexists. split; [exact Hm|]. cbn [max_heart_rate_bpm].
    destruct (series_max_hr_spec (map HeartRate (rows df))) as (Hle & Hatt & Hnan).
    assert (Hmem : forall n, Some n ∈ map HeartRate (rows df) <->
                     exists r, r ∈ rows df /\ HeartRate r = Some n).
    { intros n. change (map HeartRate (rows df)) with (HeartRate <$> rows df).
      rewrite list_elem_of_fmap. split; intros (r & H1 & H2); eauto. }
    split; [|split].
    + intros r n Hr Hn. apply Hle, Hmem. eauto.
    + intros Hmx. destruct (Hatt Hmx) as (n & Hn & Heq).
      apply Hmem in Hn as (r & Hr & Hrn). eauto.
    + rewrite Hnan. split.
      * intros Hall r Hr. destruct (HeartRate r) as [n|] eqn:Hn; [|reflexivity].
        destruct (Hall n). apply Hmem. eauto.
      * intros Hall n Hn. apply Hmem in Hn as (r & Hr & Hrn).
        rewrite (Hall r Hr) in Hrn. discriminate.
  - intros d start_dt df1 _ H1 H2. unfold main_of.
    rewrite H1. cbn [bind]. rewrite H2. cbn [bind]. rewrite Hrun. cbn [bind].
    rewrite Hm. cbn [bind]. apply Hwriter.
Qed.

Lemma unresolved_heart_rate_witness :
  (exists r, r ∈ rows (stage3 fixture 0) /\ HeartRate r = None) /\
  timestamps_in_range fixture 0 /\
  main_of int64 fixture 0 = Raise ValueError.
Proof.
  assert (Hnone : exists r, r ∈ rows (stage3 fixture 0) /\ HeartRate r = None).
  { eexists. split.
    - eapply (list_elem_of_lookup_2 _ 0%nat). vm_compute. reflexivity.
    - reflexivity. }
  assert (Hrange : timestamps_in_range fixture 0)
    by (apply timestamps_in_range_0; repeat constructor; cbn; lia).
  split; [exact Hnone|]. split; [exact Hrange|].
  refine (proj2 (proj2 (unresolved_heart_rate_stops_the_writer fixture
                          (stage2 fixture 0) (stage3 fixture 0) _ Hnone _ _ _))
            int64 0 (stage1 fixture 0) Hrange _ _);
    vm_compute; reflexivity.
Defined.

(** ** The whole conversion *)

(** X15. Without any sample the extractor returns the table without
    column, and the conversion stops in the smoother, at the first read of
    the raw distances: a [KeyError] for "HDistance", whatever the
    descriptor and the heart rates. *)
Theorem main_without_samples (analitics : Analitics) (start_dt : Z) :
  samples analitics = [] ->
  process_samples analitics start_dt = Ok (frame_of []) /\
  main analitics start_dt = Raise (KeyError "HDistance").
Proof.
  intros Hnil.
  assert (Hp : process_samples analitics start_dt = Ok (frame_of [])).
  { unfold process_samples, extract. rewrite Hnil. reflexivity. }
  split; [exact Hp|]. unfold main. rewrite Hp. reflexivity.
Qed.

Lemma main_without_samples_witness :
  main {| descriptor := ["Speed"; "Power"; "HDistance"; "Rpm"];
          samples := []; hr := hr fixture |} 0
  = Raise (KeyError "HDistance").
Proof.
  apply (main_without_samples
           {| descriptor := ["Speed"; "Power"; "HDistance"; "Rpm"];
              samples := []; hr := hr fixture |} 0).
  reflexivity.
Defined.

(** X16. With every timestamp in the range of the datetimes, when every
    sample is idle (its Speed and its Power are zero), the extractor
    removes them all and returns the columns without a row; the
    conversion then stops in the smoother, on the raw distance of the
    first row: an [IndexError] (a [KeyError] when no sample has a value
    for "HDistance"), whatever the dtype of the Speed column. *)
Theorem main_all_idle (d : dtype) (analitics : Analitics) (start_dt : Z) :
  samples_in_range analitics start_dt ->
  samples analitics <> [] ->
  Forall idle (rows_of analitics start_dt (samples analitics)) ->
  let table := extract analitics start_dt in
  process_samples analitics start_dt = Ok {| columns := columns table; rows := [] |} /\
  main_of d analitics start_dt =
    Raise (if bool_decide ("HDistance" ∈ columns table)
           then IndexError else KeyError "HDistance").
Proof.
  intros _ Hne Hidle table.
  assert (Hcols : "Speed" ∈ columns table /\ "Power" ∈ columns table).
  { unfold rows_of in Hidle.
    destruct (samples analitics) as [|s ss] eqn:Hs; [congruence|].
    apply Forall_cons in Hidle as [[Hspeed Hpower] _].
    unfold table, extract. rewrite Hs. cbn [map].
    split; eapply columns_frame_of_in;
      [left | apply ne_zero_cell, Hspeed | left | apply ne_zero_cell, Hpower]. }
  destruct Hcols as [Hspeed Hpower].
  assert (Hp : process_samples analitics start_dt
               = Ok {| columns := columns table; rows := [] |}).
  { unfold process_samples, trim.
    apply trim_loop_all_idle; auto. }
  split; [exact Hp|]. unfold main_of. rewrite Hp. cbn [bind].
  unfold calculate_distances_of, channel, column. cbn [columns rows].
  case_bool_decide; reflexivity.
Qed.

Lemma main_all_idle_witness :
  samples_in_range idle_input 0 /\ main_of int64 idle_input 0 = Raise IndexError.
Proof.
  assert (Hrange : samples_in_range idle_input 0)
    by (apply in_range_0; repeat constructor; cbn; lia).
  split; [exact Hrange|].
  refine (proj2 (main_all_idle int64 idle_input 0 Hrange _ _)).
  - discriminate.
  - repeat constructor.
Defined.

(** The table that reaches the aggregator, from the three stages. *)
Lemma stages_Ok (analitics : Analitics) (start_dt : Z) (df1 df2 df3 : DataFrame) :
  process_samples analitics start_dt = Ok df1 ->
  calculate_distances df1 = Ok df2 ->
  interpolate_heart_rates analitics df2 = Ok df3 ->
  exists (table : gmap Z Z) kept dropped,
    samples analitics = kept ++ dropped /\ kept <> [] /\
    Forall idle (rows_of analitics start_dt dropped) /\
    rows df1 = rows_of analitics start_dt kept /\
    Forall2 same_sample (rows df2) (rows df1) /\
    forward_filled table (rows df2) (rows df3) /\
    (forall k, on_grid (max_offset (hr_points analitics)) k <-> is_Some (table !! k)) /\
    (forall c, c ∈ columns df3 <->
               c = "HeartRate" \/ c = "SmoothDistance" \/ c ∈ columns df1) /\
    has_metrics_columns df3 /\ "datetime" ∈ columns df3.
Proof.
  intros H1 H2 H3.
  apply process_samples_Ok in H1 as (_ & (kept & dropped & Hs & Hk & Hd) & Hcols1).
  apply calculate_distances_smoothed in H2 as (-> & Hne & _ & _).
  apply interpolate_heart_rates_Ok in H3 as (table & Hgrid & _ & Hcols3 & Hfill).
  destruct (Hcols1 Hne) as (Hspeed & Hdt & Hint).
  assert (Hcols : forall c, c ∈ columns df3 <->
            c = "HeartRate" \/ c = "SmoothDistance" \/ c ∈ columns df1).
  { intros c. rewrite Hcols3. cbn [smoothed columns].
    rewrite !elem_of_union, !elem_of_singleton. tauto. }
  exists table, kept, dropped.
  split; [exact Hs|]. split.
  { intros ->. apply Hne. rewrite Hk. reflexivity. }
  split; [exact Hd|]. split; [exact Hk|].
  split; [apply smoothed_same|]. split; [exact Hfill|].
  split; [exact Hgrid|]. split; [exact Hcols|].
  split; [|apply Hcols; auto].
  repeat split; apply Hcols; auto.
Qed.

Lemma Forall2_lookup_0 {A B : Type} (P : A -> B -> Prop) (l : list A) (k : list B)
    (a : A) :
  Forall2 P l k -> l !! 0%nat = Some a -> exists b, k !! 0%nat = Some b /\ P a b.
Proof.
  intros Hlk Ha. destruct Hlk as [|x y l k Hxy _]; [discriminate|].
  injection Ha as <-. eauto.
Qed.

(** X17. The first sample decides the heart rates.  When the three stages
    before the aggregator return and the offset of the first kept sample
    is not on the grid of the lookup table (the multiples of 5 from 5 up
    to the maximum offset of the heart-rate series), the first row stays
    without heart rate, the aggregator still returns, and the conversion
    raises a [ValueError] in the writer: no document is written. *)
Theorem main_first_offset_off_grid
    (analitics : Analitics) (start_dt : Z) (df1 df2 df3 : DataFrame) (r0 : Row) :
  process_samples analitics start_dt = Ok df1 ->
  calculate_distances df1 = Ok df2 ->
  interpolate_heart_rates analitics df2 = Ok df3 ->
  rows df1 !! 0%nat = Some r0 ->
  ~ on_grid (max_offset (hr_points analitics)) (interval r0) ->
  is_ok (calculate_metrics df3) = true /\
  main analitics start_dt = Raise ValueError.
Proof.
  intros H1 H2 H3 Hr0 Hoff.
  destruct (stages_Ok _ _ _ _ _ H1 H2 H3)
    as (table & kept & dropped & _ & _ & _ & _ & H12 & Hfill & Hgrid & Hcols
        & Hmetrics & Hdt).
  assert (Hne : rows df3 <> []).
  { destruct Hfill as [Hsame _]. apply Forall2_length in Hsame.
    apply Forall2_length in H12. apply lookup_lt_Some in Hr0.
    destruct (rows df3); [simpl in Hsame; lia | discriminate]. }
  destruct (calculate_metrics_returns df3 Hmetrics Hne) as (tl & tf & d & Hm & _).
  split; [rewrite Hm; reflexivity|].
  unfold main. rewrite H1. cbn [bind]. rewrite H2. cbn [bind].
  rewrite H3. cbn [bind]. rewrite Hm. cbn [bind].
  assert (Hsym : Forall2 same_sample (rows df1) (rows df2)).
  { apply Forall2_flip. eapply Forall2_impl; [exact H12|].
    intros x y (? & ? & ? & ?). repeat split; congruence. }
  destruct (Forall2_lookup_0 _ _ _ _ Hsym Hr0) as (r2 & Hr2 & _ & _ & Hint & _).
  destruct (Forall2_lookup_0 _ _ _ _ (proj1 Hfill) Hr2) as (r3 & Hr3 & _).
  pose proof (forward_filled_first _ _ _ _ _ Hfill Hr2 Hr3) as Hhr.
  assert (Hnone : HeartRate r3 = None).
  { rewrite Hhr, <- Hint. apply eq_None_not_Some. rewrite <- Hgrid. exact Hoff. }
  unfold create_tcx.
  destruct (rows df3) as [|r rs]; [discriminate|]. injection Hr3 as ->.
  cbn [mapM].
  rewrite trackpoint_ValueError; [reflexivity|exact Hdt| | |exact Hnone];
    apply Hcols; auto.
Qed.

Lemma main_first_offset_off_grid_witness :
  rows (stage1 fixture 0) !! 0%nat = Some (make_row (descriptor fixture) 0 {| t := 0; vs := [0; 0; 0; 0]%float |}) /\
  ~ on_grid (max_offset (hr_points fixture)) 0 /\
  main fixture 0 = Raise ValueError.
Proof.
  assert (Hr0 : rows (stage1 fixture 0) !! 0%nat
                = Some (make_row (descriptor fixture) 0
                          {| t := 0; vs := [0; 0; 0; 0]%float |}))
    by reflexivity.
  assert (Hoff : ~ on_grid (max_offset (hr_points fixture)) 0)
    by (intros [Hk _]; lia).
  split; [exact Hr0|]. split; [exact Hoff|].
  refine (proj2 (main_first_offset_off_grid fixture 0 (stage1 fixture 0)
                   (stage2 fixture 0) (stage3 fixture 0) _ _ _ _ Hr0 Hoff));
    vm_compute; reflexivity.
Defined.

(** X18. When the three stages before the aggregator return, the offset of
    the first kept sample is on the grid of the lookup table and the
    table has the columns "Rpm" and "Power", every row has a heart rate
    and the conversion returns a document. *)
Theorem main_returns
    (analitics : Analitics) (start_dt : Z) (df1 df2 df3 : DataFrame) (r0 : Row) :
  process_samples analitics start_dt = Ok df1 ->
  calculate_distances df1 = Ok df2 ->
  interpolate_heart_rates analitics df2 = Ok df3 ->
  rows df1 !! 0%nat = Some r0 ->
  on_grid (max_offset (hr_points analitics)) (interval r0) ->
  "Rpm" ∈ columns df1 -> "Power" ∈ columns df1 ->
  Forall resolved_row (rows df3) /\
  is_ok (main analitics start_dt) = true.
Proof.
  intros H1 H2 H3 Hr0 Hon Hrpm Hpower.
  destruct (stages_Ok _ _ _ _ _ H1 H2 H3)
    as (table & kept & dropped & _ & _ & _ & _ & H12 & Hfill & Hgrid & Hcols
        & Hmetrics & Hdt).
  assert (Hsym : Forall2 same_sample (rows df1) (rows df2)).
  { apply Forall2_flip. eapply Forall2_impl; [exact H12|].
    intros x y (? & ? & ? & ?). repeat split; congruence. }
  destruct (Forall2_lookup_0 _ _ _ _ Hsym Hr0) as (r2 & Hr2 & _ & _ & Hint & _).
  destruct (Forall2_lookup_0 _ _ _ _ (proj1 Hfill) Hr2) as (r3 & Hr3 & _).
  pose proof (forward_filled_first _ _ _ _ _ Hfill Hr2 Hr3) as Hhr.
  assert (Hres : Forall resolved_row (rows df3)).
  { apply Forall_lookup. intros j r Hj.
    apply (forward_filled_resolved _ _ _ Hfill 0%nat j r3 r Hr3 Hj); [lia|].
    unfold resolved_row. rewrite Hhr, <- Hint. apply Hgrid, Hon. }
  split; [exact Hres|].
  assert (Hne : rows df3 <> []) by (intros Hnil; rewrite Hnil in Hr3; discriminate).
  destruct (calculate_metrics_returns df3 Hmetrics Hne) as (tl & tf & d & Hm & _).
  unfold main. rewrite H1. cbn [bind]. rewrite H2. cbn [bind].
  rewrite H3. cbn [bind]. rewrite Hm. cbn [bind].
  unfold create_tcx.
  assert (Htps : is_ok (mapM (trackpoint df3) (rows df3)) = true).
  { apply mapM_is_ok. eapply Forall_impl; [exact Hres|].
    intros r Hr. apply trackpoint_is_ok. split; [|exact Hr].
    destruct Hmetrics as (? & ? & ? & ?).
    repeat constructor; try assumption; apply Hcols; auto. }
  destruct (mapM _ _); [reflexivity | discriminate].
Qed.

Lemma main_returns_witness :
  is_ok (main on_grid_input 0) = true.
Proof.
  refine (proj2 (main_returns on_grid_input 0 (stage1 on_grid_input 0)
                   (stage2 on_grid_input 0) (stage3 on_grid_input 0)
                   (make_row (descriptor on_grid_input) 0
                      {| t := 5; vs := [36; 100; 50; 80]%float |}) _ _ _ _ _ _ _));
    try (vm_compute; reflexivity).
  split; [simpl; lia | reflexivity].
Defined.

Lemma trackpoint_written_sample (df : DataFrame) (fields : list string)
    (start_dt : Z) (s : RawSample) (r : Row) (tp : Element) :
  values r = values (make_row fields start_dt s) ->
  datetime r = datetime (make_row fields start_dt s) ->
  trackpoint df r = Ok tp ->
  written_sample fields start_dt s tp.
Proof.
  intros Hv Hd Htp.
  apply trackpoint_Ok in Htp as (_ & bpm & _ & ->).
  unfold written_sample, cell in *. rewrite Hv, Hd.
  repeat split; reflexivity.
Qed.

(** The samples behind the rows that the extractor returns. *)
Lemma process_samples_kept (analitics : Analitics) (start_dt : Z) (df : DataFrame) :
  process_samples analitics start_dt = Ok df -> rows df <> [] ->
  exists kept dropped,
    rows df = rows_of analitics start_dt kept /\
    kept_samples analitics start_dt kept dropped.
Proof.
  intros Hrun Hne. unfold process_samples, trim in Hrun.
  pose proof (trim_loop_Ok _ _ _ (Nat.le_refl _) (frame_of_wf _) Hrun)
    as (_ & tail & Hrows & Htail & Hend).
  cbn [extract frame_of rows] in Hrows.
  apply map_eq_app in Hrows as (kept & dropped & Hs & Hk & Hd).
  exists kept, dropped. split; [symmetry; exact Hk|].
  split; [exact Hs|]. split; [unfold rows_of; rewrite Hd; exact Htail|].
  destruct Hend as [Hnil|(init & r & Hinit & Hidle)]; [congruence|].
  assert (Hlast : last (rows df) = Some r) by (rewrite Hinit; apply last_snoc).
  rewrite <- Hk in Hlast.
  change (map ?f kept) with (f <$> kept) in Hlast. rewrite fmap_last in Hlast.
  destruct (last kept) as [final|]; [|discriminate].
  injection Hlast as <-. eauto.
Qed.

(** The tables of a conversion that returned. *)
Lemma main_of_Ok (d : dtype) (analitics : Analitics) (start_dt : Z) (doc : Element) :
  main_of d analitics start_dt = Ok doc ->
  exists df1 df2 df3 metrics kept dropped,
    process_samples analitics start_dt = Ok df1 /\
    calculate_distances_of d df1 = Ok df2 /\
    interpolate_heart_rates analitics df2 = Ok df3 /\
    calculate_metrics df3 = Ok metrics /\
    create_tcx df3 metrics start_dt = Ok doc /\
    rows df1 = rows_of analitics start_dt kept /\
    kept_samples analitics start_dt kept dropped /\
    Forall2 same_sample (rows df2) (rows df1) /\
    Forall2 same_but_heart_rate (rows df2) (rows df3) /\
    has_metrics_columns df3.
Proof.
  unfold main_of. intros Hmain.
  apply bind_Ok in Hmain as (df1 & H1 & Hmain).
  apply bind_Ok in Hmain as (df2 & H2 & Hmain).
  apply bind_Ok in Hmain as (df3 & H3 & Hmain).
  apply bind_Ok in Hmain as (metrics & Hm & Hdoc).
  pose proof (calculate_distances_of_smoothed _ _ _ H2) as (Hdf2 & Hne & _).
  destruct (process_samples_kept _ _ _ H1 Hne) as (kept & dropped & Hk & Hkept).
  pose proof (interpolate_heart_rates_Ok _ _ _ H3) as (table & _ & _ & Hcols3 & [H23 _]).
  pose proof (process_samples_Ok _ _ _ H1) as (_ & _ & Hcols1).
  destruct (Hcols1 Hne) as (Hspeed & Hdt & Hint).
  assert (Hcols : forall c, c ∈ columns df3 <->
            c = "HeartRate" \/ c = "SmoothDistance" \/ c ∈ columns df1).
  { intros c. rewrite Hcols3, Hdf2. cbn [smoothed_of columns].
    rewrite !elem_of_union, !elem_of_singleton. tauto. }
  exists df1, df2, df3, metrics, kept, dropped.
  repeat (split; [assumption|]).
  split; [rewrite Hdf2; apply smoothed_of_same|]. split; [exact H23|].
  repeat split; apply Hcols; auto.
Qed.

(** X19. With its timestamps in range, the document that the conversion
    returns holds one trackpoint per kept sample, in the order of the
    input.  The samples kept are the input without its idle tail: the
    samples dropped are idle and the last one kept is not.  Each
    trackpoint carries the time, the cadence, the speed and the power of
    its sample, whatever the dtype of the Speed column. *)
Theorem main_writes_the_kept_samples
    (d : dtype) (analitics : Analitics) (start_dt : Z) (doc : Element) :
  timestamps_in_range analitics start_dt ->
  main_of d analitics start_dt = Ok doc ->
  exists kept dropped tps,
    kept_samples analitics start_dt kept dropped /\
    trackpoints doc = Some tps /\
    Forall2 (written_sample (descriptor analitics) start_dt) kept tps.
Proof.
  intros _ Hmain.
  destruct (main_of_Ok _ _ _ _ Hmain)
    as (df1 & df2 & df3 & metrics & kept & dropped & _ & _ & _ & _ & Hdoc
        & Hk & Hkept & H12 & H23 & _).
  apply create_tcx_track in Hdoc as (tps & Htps & Htrack).
  exists kept, dropped, tps.
  split; [exact Hkept|]. split; [exact Htrack|].
  apply Forall2_same_length_lookup. split.
  - apply Forall2_length in H12, H23, Htps.
    rewrite Hk in H12. unfold rows_of in H12. rewrite length_map in H12. lia.
  - intros i s tp Hi Htp.
    destruct (Forall2_lookup_r _ _ _ _ _ Htps Htp) as (r3 & Hr3 & Hw).
    destruct (Forall2_lookup_r _ _ _ _ _ H23 Hr3) as (r2 & Hr2 & Hv3 & Hd3 & _).
    destruct (Forall2_lookup_l _ _ _ _ _ H12 Hr2) as (r1 & Hr1 & Hv2 & Hd2 & _).
    assert (Hr1' : rows df1 !! i = Some (make_row (descriptor analitics) start_dt s)).
    { rewrite Hk. unfold rows_of.
      change (map ?f kept) with (f <$> kept).
      rewrite list_lookup_fmap, Hi. reflexivity. }
    assert (r1 = make_row (descriptor analitics) start_dt s) as -> by congruence.
    apply (trackpoint_written_sample df3 _ _ _ r3); congruence.
Qed.

Lemma main_writes_the_kept_samples_witness :
  timestamps_in_range on_grid_input 0 /\
  exists doc, main_of int64 on_grid_input 0 = Ok doc /\
    exists kept dropped tps,
      kept_samples on_grid_input 0 kept dropped /\
      trackpoints doc = Some tps /\
      Forall2 (written_sample (descriptor on_grid_input) 0) kept tps.
Proof.
  assert (Hrange : timestamps_in_range on_grid_input 0)
    by (apply timestamps_in_range_0; repeat constructor; cbn; lia).
  split; [exact Hrange|].
  eexists. split; [vm_compute; reflexivity|].
  apply (main_writes_the_kept_samples int64 on_grid_input 0 _ Hrange).
  vm_compute. reflexivity.
Defined.






(** ** The start time *)

Lemma make_row_shift (fields : list string) (start_dt c : Z) (s : RawSample) :
  make_row fields (start_dt + c) s = shift_row c (make_row fields start_dt s).
Proof. unfold make_row, shift_row. cbn. f_equal. lia. Qed.

Lemma columns_frame_of_shift (c : Z) (rs : list Row) :
  columns (frame_of (map (shift_row c) rs)) = columns (frame_of rs).
Proof.
  induction rs as [|r rs IH]; [reflexivity|].
  cbn [frame_of columns map foldr] in *. rewrite IH. reflexivity.
Qed.

Lemma extract_shift (analitics : Analitics) (start_dt c : Z) :
  extract analitics (start_dt + c) = shift c (extract analitics start_dt).
Proof.
  unfold extract, shift.
  assert (Hrows : map (make_row (descriptor analitics) (start_dt + c)) (samples analitics)
                  = map (shift_row c)
                      (map (make_row (descriptor analitics) start_dt) (samples analitics))).
  { rewrite map_map. apply map_ext. intros s. apply make_row_shift. }
  rewrite Hrows. unfold frame_of at 1. cbn [rows].
  f_equal. apply (columns_frame_of_shift c).
Qed.

Lemma last_map {A B : Type} (f : A -> B) (l : list A) :
  last (map f l) = f <$> last l.
Proof. change (map f l) with (f <$> l). apply fmap_last. Qed.

Lemma removelast_map {A B : Type} (f : A -> B) (l : list A) :
  removelast (map f l) = map f (removelast l).
Proof.
  induction l as [|a [|b l] IH]; [reflexivity..|].
  cbn [map removelast] in *. rewrite IH. reflexivity.
Qed.

Lemma empty_shift (c : Z) (df : DataFrame) : empty (shift c df) = empty df.
Proof.
  unfold empty, shift. cbn [rows columns].
  destruct (rows df); reflexivity.
Qed.

Lemma getitem_shift (c : Z) (df : DataFrame) (r : Row) (col : string) :
  getitem (shift c df) (shift_row c r) col = getitem df r col.
Proof. reflexivity. Qed.

Lemma trim_loop_shift (c : Z) (fuel : nat) : forall (df : DataFrame),
  trim_loop fuel (shift c df) =
    do df' <- trim_loop fuel df; Ok (shift c df').
Proof.
  induction fuel as [|fuel IH]; intros df; [reflexivity|].
  cbn [trim_loop]. rewrite empty_shift.
  destruct (empty df); [reflexivity|].
  cbn [shift rows]. rewrite last_map.
  destruct (last (rows df)) as [x|]; [|reflexivity].
  cbn [fmap option_fmap option_map].
  change {| columns := columns df; rows := map (shift_row c) (rows df) |}
    with (shift c df).
  rewrite !getitem_shift.
  destruct (getitem df x "Speed") as [speed|e]; [|reflexivity]. cbn [bind].
  destruct (Py.ne speed 0); [reflexivity|].
  destruct (getitem df x "Power") as [power|e]; [|reflexivity]. cbn [bind].
  destruct (Py.ne power 0); [reflexivity|].
  rewrite <- IH. f_equal. unfold drop_last, shift. cbn [rows columns].
  rewrite removelast_map. reflexivity.
Qed.

Lemma process_samples_shift (analitics : Analitics) (start_dt c : Z) :
  process_samples analitics (start_dt + c) =
    do df <- process_samples analitics start_dt; Ok (shift c df).
Proof.
  unfold process_samples, trim. rewrite extract_shift.
  rewrite trim_loop_shift. cbn [shift rows]. rewrite length_map. reflexivity.
Qed.

Lemma smooth_from_shift (inc : Z -> float -> float) (c : Z) (rest : list Row) :
  forall dist prev_dt,
    smooth_from inc dist (prev_dt + c) (map (shift_row c) rest)
    = smooth_from inc dist prev_dt rest.
Proof.
  induction rest as [|r rest IH]; intros dist prev_dt; [reflexivity|].
  cbn [map smooth_from shift_row datetime].
  replace (datetime r + c - (prev_dt + c)) with (datetime r - prev_dt) by lia.
  change (cell (shift_row c r) "Speed") with (cell r "Speed").
  rewrite IH. reflexivity.
Qed.

Lemma pass_shift (inc : Z -> float -> float) (c : Z) (rs : list Row) :
  pass inc (map (shift_row c) rs) = pass inc rs.
Proof.
  destruct rs as [|r0 rest]; [reflexivity|].
  cbn [map pass shift_row datetime].
  change (cell (shift_row c r0) "HDistance") with (cell r0 "HDistance").
  rewrite smooth_from_shift. reflexivity.
Qed.

Lemma factor_shift (c : Z) (rs : list Row) :
  factor (map (shift_row c) rs) = factor rs.
Proof.
  unfold factor. rewrite pass_shift, map_map. reflexivity.
Qed.

Lemma zip_with_set_smooth_shift (c : Z) (col : list float) (rs : list Row) :
  zip_with set_smooth col (map (shift_row c) rs)
  = map (shift_row c) (zip_with set_smooth col rs).
Proof.
  revert col. induction rs as [|r rs IH]; intros [|d col]; try reflexivity.
  cbn [map zip_with]. rewrite IH. reflexivity.
Qed.

Lemma smoothed_shift (c : Z) (df : DataFrame) :
  smoothed (shift c df) = shift c (smoothed df).
Proof.
  unfold smoothed, shift. cbn [rows columns].
  rewrite factor_shift, pass_shift, zip_with_set_smooth_shift. reflexivity.
Qed.

Lemma calculate_distances_shift (c : Z) (df df' : DataFrame) :
  calculate_distances df = Ok df' ->
  calculate_distances (shift c df) = Ok (shift c df').
Proof.
  intros Hrun.
  apply calculate_distances_smoothed in Hrun as (-> & Hne & Hcols & Hin).
  rewrite calculate_distances_eq.
  - cbn [shift rows]. rewrite factor_shift, Hin, <- smoothed_shift. reflexivity.
  - cbn [shift rows]. destruct (rows df); [congruence | discriminate].
  - unfold has_distance_columns in *. cbn [shift rows columns].
    rewrite length_map. exact Hcols.
Qed.

Lemma zip_with_set_hr_shift (c : Z) (col : list (option Z)) (rs : list Row) :
  zip_with set_hr col (map (shift_row c) rs)
  = map (shift_row c) (zip_with set_hr col rs).
Proof.
  revert col. induction rs as [|r rs IH]; intros [|d col]; try reflexivity.
  cbn [map zip_with]. rewrite IH. reflexivity.
Qed.

Lemma assign_hr_shift (c : Z) (df : DataFrame) (col : list (option Z)) :
  assign_hr (shift c df) col = shift c (assign_hr df col).
Proof.
  unfold assign_hr, shift. cbn [rows columns].
  rewrite zip_with_set_hr_shift. reflexivity.
Qed.

Lemma column_shift {A : Type} (c : Z) (df : DataFrame) (col : string)
    (proj : Row -> A) :
  (forall r, proj (shift_row c r) = proj r) ->
  column (shift c df) col proj = column df col proj.
Proof.
  intros Hproj. unfold column, shift. cbn [rows columns].
  rewrite map_map. rewrite (map_ext _ _ Hproj). reflexivity.
Qed.

Lemma interpolate_heart_rates_shift (analitics : Analitics) (c : Z) (df : DataFrame) :
  interpolate_heart_rates analitics (shift c df) =
    do df' <- interpolate_heart_rates analitics df; Ok (shift c df').
Proof.
  unfold interpolate_heart_rates.
  destruct (Np.interp1d _ _) as [f|e]; [|reflexivity]. cbn [bind].
  destruct (py_max _) as [max_t|e]; [|reflexivity]. cbn [bind].
  destruct (hr_dict _ _) as [table|e]; [|reflexivity]. cbn [bind].
  rewrite column_shift by reflexivity.
  destruct (column df "interval" interval) as [intervals|e]; [|reflexivity].
  cbn [bind]. rewrite assign_hr_shift, column_shift by reflexivity.
  destruct (column _ "HeartRate" HeartRate) as [heart_rate|e]; [|reflexivity].
  cbn [bind]. rewrite assign_hr_shift. reflexivity.
Qed.

Lemma calculate_metrics_shift (c : Z) (df : DataFrame) :
  calculate_metrics (shift c df) = calculate_metrics df.
Proof.
  unfold calculate_metrics, channel.
  rewrite !column_shift by reflexivity. reflexivity.
Qed.

Lemma create_tcx_shift (c : Z) (df : DataFrame) (metrics : Metrics)
    (start_dt start_dt' : Z) :
  is_ok (create_tcx (shift c df) metrics start_dt')
  = is_ok (create_tcx df metrics start_dt).
Proof.
  assert (Hok : forall d s, is_ok (create_tcx d metrics s)
                            = is_ok (mapM (trackpoint d) (rows d))).
  { intros d s. unfold create_tcx. destruct (mapM _ _); reflexivity. }
  rewrite !Hok. apply eq_true_iff_eq. rewrite !mapM_is_ok.
  cbn [shift rows]. rewrite Forall_map.
  apply Forall_iff. intros r. rewrite !trackpoint_is_ok. reflexivity.
Qed.

Lemma main_shift (analitics : Analitics) (start_dt c : Z) :
  is_ok (main analitics start_dt) = true ->
  is_ok (main analitics (start_dt + c)) = true.
Proof.
  unfold main. rewrite process_samples_shift.
  destruct (process_samples analitics start_dt) as [df1|e]; [|discriminate].
  cbn [bind].
  destruct (calculate_distances df1) as [df2|e] eqn:H2; [|discriminate].
  rewrite (calculate_distances_shift c _ _ H2). cbn [bind].
  rewrite interpolate_heart_rates_shift.
  destruct (interpolate_heart_rates analitics df2) as [df3|e]; [|discriminate].
  cbn [bind]. rewrite calculate_metrics_shift.
  destruct (calculate_metrics df3) as [metrics|e]; [|discriminate].
  cbn [bind]. rewrite (create_tcx_shift c df3 metrics start_dt). auto.
Qed.

Lemma factor_of_shift (d : dtype) (c : Z) (rs : list Row) :
  factor_of d (map (shift_row c) rs) = factor_of d rs.
Proof.
  unfold factor_of. rewrite pass_shift, map_map. reflexivity.
Qed.

Lemma smoothed_of_shift (d : dtype) (c : Z) (df : DataFrame) :
  smoothed_of d (shift c df) = shift c (smoothed_of d df).
Proof.
  unfold smoothed_of, shift. cbn [rows columns].
  rewrite factor_of_shift, pass_shift, zip_with_set_smooth_shift. reflexivity.
Qed.

Lemma calculate_distances_of_shift (d : dtype) (c : Z) (df df' : DataFrame) :
  calculate_distances_of d df = Ok df' ->
  calculate_distances_of d (shift c df) = Ok (shift c df').
Proof.
  intros Hrun.
  apply calculate_distances_of_smoothed in Hrun as (-> & Hne & Hcols & Hin).
  rewrite calculate_distances_of_eq.
  - cbn [shift rows]. rewrite factor_of_shift, Hin, <- smoothed_of_shift. reflexivity.
  - cbn [shift rows]. destruct (rows df); [congruence | discriminate].
  - unfold has_distance_columns in *. cbn [shift rows columns].
    rewrite length_map. exact Hcols.
Qed.

Lemma main_of_shift (d : dtype) (analitics : Analitics) (start_dt c : Z) :
  is_ok (main_of d analitics start_dt) = true ->
  is_ok (main_of d analitics (start_dt + c)) = true.
Proof.
  unfold main_of. rewrite process_samples_shift.
  destruct (process_samples analitics start_dt) as [df1|e]; [|discriminate].
  cbn [bind].
  destruct (calculate_distances_of d df1) as [df2|e] eqn:H2; [|discriminate].
  rewrite (calculate_distances_of_shift d c _ _ H2). cbn [bind].
  rewrite interpolate_heart_rates_shift.
  destruct (interpolate_heart_rates analitics df2) as [df3|e]; [|discriminate].
  cbn [bind]. rewrite calculate_metrics_shift.
  destruct (calculate_metrics df3) as [metrics|e]; [|discriminate].
  cbn [bind]. rewrite (create_tcx_shift c df3 metrics start_dt). auto.
Qed.

(** X21. The start time moves the timestamps and nothing else.  For two
    start times that keep the timestamps in range, the extractor and the
    smoother return the same table up to the timestamps, which differ by
    the difference of the start times (the smoothed distances are the
    same); and the conversion returns a document for the one exactly
    when it does for the other, whatever the dtype of the Speed
    column. *)
Theorem main_start_independent
    (d : dtype) (analitics : Analitics) (start_dt start_dt' : Z) :
  timestamps_in_range analitics start_dt ->
  timestamps_in_range analitics start_dt' ->
  (forall df1 df2,
     process_samples analitics start_dt = Ok df1 ->
     calculate_distances_of d df1 = Ok df2 ->
     process_samples analitics start_dt' = Ok (shift (start_dt' - start_dt) df1) /\
     calculate_distances_of d (shift (start_dt' - start_dt) df1)
     = Ok (shift (start_dt' - start_dt) df2) /\
     map SmoothDistance (rows (shift (start_dt' - start_dt) df2))
     = map SmoothDistance (rows df2)) /\
  is_ok (main_of d analitics start_dt') = is_ok (main_of d analitics start_dt).
Proof.
  intros _ _. split.
  - intros df1 df2 H1 H2.
    replace start_dt' with (start_dt + (start_dt' - start_dt)) at 1 by lia.
    rewrite process_samples_shift, H1. split; [reflexivity|].
    split; [apply calculate_distances_of_shift, H2|].
    cbn [shift rows]. rewrite map_map. reflexivity.
  - apply eq_true_iff_eq. split; intros Hok.
    + replace start_dt with (start_dt' + (start_dt - start_dt')) by lia.
      apply main_of_shift, Hok.
    + replace start_dt' with (start_dt + (start_dt' - start_dt)) by lia.
      apply main_of_shift, Hok.
Qed.

Lemma main_start_independent_witness :
  timestamps_in_range on_grid_input 0 /\
  timestamps_in_range on_grid_input 3600000000 /\
  is_ok (main_of int64 on_grid_input 3600000000) = is_ok (main_of int64 on_grid_input 0).
Proof.
  assert (H0 : timestamps_in_range on_grid_input 0)
    by (apply timestamps_in_range_0; repeat constructor; cbn; lia).
  assert (H1 : timestamps_in_range on_grid_input 3600000000).
  { split; [split; [unfold in_range, datetime_max; lia|]|];
      repeat constructor; cbn; unfold datetime_max; lia. }
  split; [exact H0|]. split; [exact H1|].
  apply (main_start_independent int64 on_grid_input 0 3600000000 H0 H1).
Defined.
